(** * The test-taking session engine of the JEE mock-test application

    A shallow embedding of
    - the answer judge [isAnswerCorrect] (two copies: the report page and the
      [calculate-score] edge function),
    - the report computation [generateReport] and the server recomputation,
    - the test page: loading, question state machine, timer effect and
      submission,
    - the handler of the edge function, and what the report page shows,
    and the properties of the specification that concern them, with further
    properties of the code itself. *)

From Stdlib Require Import ZArith String Ascii List Bool Lia Permutation.
From Corelib Require Import SpecFloat.
From stdpp Require Import gmap strings list fin_maps.

Set Warnings "-register-all".

Local Open Scope string_scope.
Local Open Scope Z_scope.

(** ** The JavaScript values the code handles *)

Module Js.

(** A JavaScript number is an IEEE 754 binary64 value: [spec_float] at
    precision 53 and maximal exponent 1024, with its operations written out
    over [Z]. *)
Definition prec : Z := 53.
Definition emax : Z := 1024.
Definition number : Type := spec_float.

Definition NaN : number := S754_nan.
Definition Infinity (neg : bool) : number := S754_infinity neg.
Definition num_sub : number -> number -> number := SFsub prec emax.
Definition num_abs : number -> number := SFabs.
Definition num_lt : number -> number -> bool := SFltb.

(** [Number.isNaN] *)
Definition Number_isNaN (x : number) : bool :=
  match x with S754_nan => true | _ => false end.

(** The number nearest to [(-1)^neg * d * 10^x] (ties to even): how a
    decimal literal, in the source text or in a string, becomes a number. *)
Definition of_decimal (neg : bool) (d x : Z) : number :=
  match d with
  | Zpos p =>
      if 0 <=? x then binary_round prec emax neg (Z.to_pos (d * 10 ^ x)) 0
      else
        let D := 10 ^ (- x) in
        let s := Z.max 0 (64 + Z.log2 D + 1 - Z.log2 d) in
        let N := Z.shiftl d s in
        let q := N / D in
        let r := N mod D in
        let loc := if r =? 0 then loc_Exact else loc_Inexact (2 * r ?= D) in
        binary_round_aux prec emax neg q (- s) loc
  | _ => S754_zero neg
  end.

(** The values of the language that reach the code: JSON data read from the
    record store, [undefined], and a symbol, the one primitive whose
    conversion to a string inside [parseFloat] throws. *)
Inductive value : Type :=
  | JNull
  | JUndefined
  | JBool (b : bool)
  | JNum (x : number)
  | JStr (s : string)
  | JArr (items : list value)
  | JObj (fields : list (string * value))
  | JSymbol (description : string).

(** What a [throw] carries. *)
Inductive error : Type :=
  | TypeError (message : string).

(** The outcome of evaluating code that may throw. *)
Inductive completion (A : Type) : Type :=
  | Normal (a : A)
  | Throw (e : error).
Arguments Normal {A} a.
Arguments Throw {A} e.

Definition bind {A B : Type} (c : completion A) (k : A -> completion B) : completion B :=
  match c with
  | Normal a => k a
  | Throw e => Throw e
  end.

(** [try { body } catch (e) { handler e }] *)
Definition try_catch {A : Type} (body : completion A) (handler : error -> completion A) : completion A :=
  match body with
  | Normal a => Normal a
  | Throw e => handler e
  end.

(** ToBoolean: what [!v], [v || w] and [if (v)] test. *)
Definition truthy (v : value) : bool :=
  match v with
  | JNull | JUndefined => false
  | JBool b => b
  | JNum (S754_zero _) | JNum S754_nan => false
  | JNum _ => true
  | JStr s => negb (String.eqb s "")
  | JArr _ | JObj _ | JSymbol _ => true
  end.

(** [a || b] *)
Definition or_else (a b : value) : value := if truthy a then a else b.

(** [v === null], [v === undefined], [v === ""] *)
Definition is_null (v : value) : bool := match v with JNull => true | _ => false end.
Definition is_undefined (v : value) : bool := match v with JUndefined => true | _ => false end.
Definition is_empty_string (v : value) : bool :=
  match v with JStr s => String.eqb s "" | _ => false end.

(** [Array.isArray(v)], and [v.length === 0] and [v[0]] on an array. *)
Definition Array_isArray (v : value) : bool := match v with JArr _ => true | _ => false end.
Definition length_is_zero (v : value) : bool :=
  match v with JArr nil => true | _ => false end.
Definition first_item (v : value) : value :=
  match v with JArr (x :: _) => x | _ => JUndefined end.

(** *** Strings to numbers: the StrDecimalLiteral grammar of [parseFloat]

    Strings are sequences of ASCII characters. *)

Definition is_digit (c : ascii) : bool :=
  let n := Z.of_nat (nat_of_ascii c) in (48 <=? n) && (n <=? 57).

Definition digit_value (c : ascii) : Z := Z.of_nat (nat_of_ascii c) - 48.

(** TAB, LF, VT, FF, CR and the space. *)
Definition is_white_space (c : ascii) : bool :=
  let n := Z.of_nat (nat_of_ascii c) in ((9 <=? n) && (n <=? 13)) || (n =? 32).

Fixpoint trim_start (s : string) : string :=
  match s with
  | String c r => if is_white_space c then trim_start r else s
  | EmptyString => s
  end.

(** The longest run of decimal digits at the head of [s], and the rest. *)
Fixpoint digits_prefix (s : string) : list Z * string :=
  match s with
  | String c r =>
      if is_digit c then let '(ds, rest) := digits_prefix r in (digit_value c :: ds, rest)
      else (nil, s)
  | EmptyString => (nil, s)
  end.

Definition digits_value (ds : list Z) : Z :=
  fold_left (fun acc d => 10 * acc + d) ds 0.

Definition sign_prefix (s : string) : bool * string :=
  match s with
  | String "-" r => (true, r)
  | String "+" r => (false, r)
  | _ => (false, s)
  end.

(** The value of the ExponentPart at the head of [s]; 0 when there is none
    (an [e] that no digit follows is not part of the literal). *)
Definition exponent_part (s : string) : Z :=
  match s with
  | String c r =>
      if (Ascii.eqb c "e" || Ascii.eqb c "E")%bool then
        let '(neg, r') := sign_prefix r in
        match fst (digits_prefix r') with
        | nil => 0
        | ds => if neg then - digits_value ds else digits_value ds
        end
      else 0
  | EmptyString => 0
  end.

(** [parseFloat] on a string: leading white space is dropped, the longest
    prefix that is a StrDecimalLiteral is read, and [NaN] is the answer when
    there is none. *)
Definition parseFloat_string (s : string) : number :=
  let '(neg, s0) := sign_prefix (trim_start s) in
  if String.prefix "Infinity" s0 then Infinity neg
  else
    let '(ip, s1) := digits_prefix s0 in
    let '(fp, s2) :=
      match s1 with
      | String "." r => digits_prefix r
      | _ => (nil, s1)
      end in
    match (ip ++ fp)%list with
    | nil => NaN
    | ds => of_decimal neg (digits_value ds) (exponent_part s2 - Z.of_nat (length fp))
    end.

(** *** Numbers to strings: Number::toString in radix 10 *)

Definition number_eqb (x y : number) : bool :=
  match x, y with
  | S754_zero a, S754_zero b => Bool.eqb a b
  | S754_infinity a, S754_infinity b => Bool.eqb a b
  | S754_nan, S754_nan => true
  | S754_finite a m e, S754_finite b m' e' => Bool.eqb a b && Pos.eqb m m' && (e =? e')
  | _, _ => false
  end.

(** [P / Q < 10 ^ n] for positive [P] and [Q]. *)
Definition lt_pow10 (P Q n : Z) : bool :=
  if 0 <=? n then P <? 10 ^ n * Q else P * 10 ^ (- n) <? Q.

Fixpoint find_exponent (fuel : nat) (P Q n : Z) : Z :=
  match fuel with
  | O => n
  | S fuel' => if lt_pow10 P Q n then n else find_exponent fuel' P Q (n + 1)
  end.

(** The [n] with [10 ^ (n - 1) <= P / Q < 10 ^ n]. *)
Definition decimal_exponent (P Q : Z) : Z :=
  find_exponent 8 P Q ((Z.log2 P - Z.log2 Q) * 30103 / 100000 - 2).

(** The integer [s] with [s * 10 ^ e10] a decimal of [x = P / Q] that reads
    back as [x], if one of the two neighbours of [x] at that scale does: the
    nearer one, the even one on a tie. *)
Definition digits_at (x : number) (P Q e10 : Z) : option Z :=
  let A := if 0 <=? e10 then P else P * 10 ^ (- e10) in
  let B := if 0 <=? e10 then Q * 10 ^ e10 else Q in
  let lo := A / B in
  let r := A mod B in
  let hi := lo + 1 in
  match number_eqb (of_decimal false lo e10) x, number_eqb (of_decimal false hi e10) x with
  | true, true =>
      Some (if 2 * r <? B then lo else if B <? 2 * r then hi else if Z.even lo then lo else hi)
  | true, false => Some lo
  | false, true => Some hi
  | false, false => None
  end.

(** The least number of digits [k] (from [k] upwards, [fuel] tries) with its
    digits [s]. *)
Fixpoint shortest_digits (fuel : nat) (x : number) (P Q n k : Z) : Z * Z :=
  match fuel with
  | O => (k, (if 0 <=? n - k then P / (Q * 10 ^ (n - k)) else P * 10 ^ (k - n) / Q))
  | S fuel' =>
      match digits_at x P Q (n - k) with
      | Some s => (k, s)
      | None => shortest_digits fuel' x P Q n (k + 1)
      end
  end.

Fixpoint digits_of (fuel : nat) (n : Z) (acc : string) : string :=
  match fuel with
  | O => acc
  | S fuel' =>
      let acc' := String (ascii_of_nat (Z.to_nat (48 + n mod 10))) acc in
      if n <? 10 then acc' else digits_of fuel' (n / 10) acc'
  end.

(** A non-negative integer in decimal. *)
Definition Z_to_string (n : Z) : string :=
  digits_of (S (Z.to_nat (Z.log2 n))) n "".

Fixpoint zeros (n : nat) : string :=
  match n with O => "" | S n' => String "0" (zeros n') end.

(** Steps 5 to 9 of Number::toString: the digits [ds] (there are [k]) and the
    decimal exponent [n] laid out. *)
Definition layout (ds : string) (k n : Z) : string :=
  if (k <=? n) && (n <=? 21) then (ds ++ zeros (Z.to_nat (n - k)))%string
  else if (0 <? n) && (n <=? 21) then
    (String.substring 0 (Z.to_nat n) ds ++ "." ++
     String.substring (Z.to_nat n) (Z.to_nat (k - n)) ds)%string
  else if (-6 <? n) && (n <=? 0) then ("0." ++ zeros (Z.to_nat (- n)) ++ ds)%string
  else
    let sign := if 0 <=? n - 1 then "+" else "-" in
    let e := (sign ++ Z_to_string (Z.abs (n - 1)))%string in
    match ds with
    | String d EmptyString => (ds ++ "e" ++ e)%string
    | String d rest => (String d ("." ++ rest) ++ "e" ++ e)%string
    | EmptyString => ds
    end.

Definition Number_toString (x : number) : string :=
  match x with
  | S754_nan => "NaN"
  | S754_zero _ => "0"
  | S754_infinity neg => if neg then "-Infinity" else "Infinity"
  | S754_finite neg m e =>
      let P := if 0 <=? e then Zpos m * 2 ^ e else Zpos m in
      let Q := if 0 <=? e then 1 else 2 ^ (- e) in
      let n := decimal_exponent P Q in
      let '(k, s) := shortest_digits 17 (S754_finite false m e) P Q n 1 in
      let '(k, s, n) := if s =? 10 ^ k then (1, 1, n + 1) else (k, s, n) in
      ((if neg then "-" else "") ++ layout (Z_to_string s) k n)%string
  end.

(** *** Conversions of values *)

(** The abstract operation ToString. An array is joined with commas, [null]
    and [undefined] items as the empty string; a symbol throws. *)
Fixpoint ToString (v : value) : completion string :=
  match v with
  | JNull => Normal "null"
  | JUndefined => Normal "undefined"
  | JBool b => Normal (if b then "true" else "false")
  | JNum x => Normal (Number_toString x)
  | JStr s => Normal s
  | JArr items =>
      (fix join (l : list value) : completion string :=
         match l with
         | nil => Normal ""
         | x :: rest =>
             bind (match x with JNull | JUndefined => Normal "" | _ => ToString x end)
               (fun sx =>
                  match rest with
                  | nil => Normal sx
                  | _ => bind (join rest) (fun sr => Normal (sx ++ "," ++ sr)%string)
                  end)
         end) items
  | JObj _ => Normal "[object Object]"
  | JSymbol _ => Throw (TypeError "Cannot convert a Symbol value to a string")
  end.

(** [String(v)]: ToString, but a symbol gives its descriptive string. *)
Definition String_ (v : value) : completion string :=
  match v with
  | JSymbol d => Normal ("Symbol(" ++ d ++ ")")%string
  | _ => ToString v
  end.

(** [parseFloat(v)] *)
Definition parseFloat (v : value) : completion number :=
  bind (ToString v) (fun s => Normal (parseFloat_string s)).

(** [s.toUpperCase()] on ASCII strings. *)
Definition upper_ascii (c : ascii) : ascii :=
  let n := Z.of_nat (nat_of_ascii c) in
  if (97 <=? n) && (n <=? 122) then ascii_of_nat (Z.to_nat (n - 32)) else c.

Fixpoint toUpperCase (s : string) : string :=
  match s with
  | String c r => String (upper_ascii c) (toUpperCase r)
  | EmptyString => EmptyString
  end.

(** [m.get(k)] on a [Map]: [undefined] for a key that is not there. *)
Definition Map_get (m : gmap string value) (k : string) : value :=
  match m !! k with
  | Some v => v
  | None => JUndefined
  end.

(** [typeof v === 'number'] *)
Definition is_number (v : value) : bool := match v with JNum _ => true | _ => false end.

(** [items.join(sep)] on an array: the items as strings, [null] and
    [undefined] as the empty string. *)
Fixpoint Array_join (items : list value) (sep : string) : completion string :=
  match items with
  | nil => Normal ""
  | x :: rest =>
      bind (match x with JNull | JUndefined => Normal "" | _ => ToString x end)
        (fun sx =>
           match rest with
           | nil => Normal sx
           | _ => bind (Array_join rest sep) (fun sr => Normal (sx ++ sep ++ sr)%string)
           end)
  end.

(** [strings.join(sep)] on an array of strings. *)
Fixpoint join_strings (l : list string) (sep : string) : string :=
  match l with
  | nil => ""
  | x :: nil => x
  | x :: rest => (x ++ sep ++ join_strings rest sep)%string
  end.

(** Number::toString on an integer of magnitude below 10^21: its decimal
    digits, after a minus sign if it is negative. *)
Definition integer_toString (n : Z) : string :=
  if n <? 0 then ("-" ++ Z_to_string (- n))%string else Z_to_string n.

(** [s.padStart(2, '0')] *)
Definition padStart2 (s : string) : string :=
  match String.length s with
  | O => "00"
  | S O => ("0" ++ s)%string
  | _ => s
  end.

(** No symbol occurs in the value: the values that JSON data can hold. *)
Fixpoint symbol_free (v : value) : bool :=
  match v with
  | JSymbol _ => false
  | JArr items => forallb symbol_free items
  | JObj fields => forallb (fun kv => symbol_free (snd kv)) fields
  | _ => true
  end.

End Js.

Notation "'let*' x ':=' c1 'in' c2" := (Js.bind c1 (fun x => c2))
  (at level 10, x name, c1 at level 100, c2 at level 200).

(** ** The rows read from the record store *)

Module Store.
Import Js.

(** A row of [Questions]. [subject] and the texts are nullable columns. *)
Record Question : Type := {
  question_id : string;
  question_type : string;
  subject : option string;
  correct_answer : value;
  question_text : option string;
  solution_text : option string;
}.

(** What the join [Questions(...)] of a link row holds: nothing, one row as
    an object, or an array of rows (an item may be [null]). *)
Inductive Joined : Type :=
  | JoinNull
  | JoinObject (q : Question)
  | JoinArray (items : list (option Question)).

(** A row of [Test_Questions_Link] with its joined question. *)
Record Link : Type := {
  question_number : Z;
  Questions : Joined;
}.

(** The link with a join of one row as an array of that row, the shape the
    report page reads. *)
Definition as_array (link : Link) : Link :=
  match Questions link with
  | JoinObject q =>
      {| question_number := question_number link; Questions := JoinArray [Some q] |}
  | _ => link
  end.

(** A row of [User_Answer_Responses], as both scoring paths select it. *)
Record AnswerRow : Type := {
  ans_question_id : string;
  ans_selected_answer : value;
}.

(** [answerMap]: [userAnswers.forEach(ans => answerMap.set(...))]. *)
Definition answerMap (userAnswers : list AnswerRow) : gmap string value :=
  fold_left (fun m ans => <[ans_question_id ans := ans_selected_answer ans]> m)
    userAnswers ∅.

(** A row of [Tests], as far as the pages read it. *)
Record TestRow : Type := {
  name : string;
  duration_minutes : Z;
}.

(** What the join [Tests(...)] of an attempt holds. *)
Inductive TestsJoin : Type :=
  | TestsNull
  | TestsObject (t : TestRow)
  | TestsArray (items : list TestRow).

(** A row of [User_Test_Attempts] with its joined test. *)
Record AttemptRow : Type := {
  test_id : string;
  user_id : string;
  Tests : TestsJoin;
}.

(** What a query gives back: [{ data, error }] with one of the two set. *)
Inductive fetched (A : Type) : Type :=
  | fetch_data (data : A)
  | fetch_error (message : string).
Arguments fetch_data {A} data.
Arguments fetch_error {A} message.

End Store.

(** ** The report page: [src/app/report/[attemptId]/page.tsx] *)

Module ReportPage.
Import Js Store.

Inductive Status : Type := CORRECT | INCORRECT | UNATTEMPTED.

Record QuestionAnalysis : Type := {
  qa_question_id : string;
  qa_question_number : Z;
  qa_question_text : option string;
  qa_subject : option string;
  qa_correct_answer : value;
  qa_solution_text : option string;
  qa_selected_answer : value;
  qa_status : Status;
}.

(** Counters are JavaScript numbers that only ever hold small integers: [Z]. *)
Record SubjectStats : Type := {
  correct : Z;
  incorrect : Z;
  unattempted : Z;
  score : Z;
}.

(** [subjectStats] is an object used as a map from the upper-cased subject
    to its counters (no upper-cased key meets a property of the prototype). *)
Record ReportData : Type := {
  testName : string;
  totalScore : Z;
  totalCorrect : Z;
  totalIncorrect : Z;
  totalUnattempted : Z;
  subjectStats : gmap string SubjectStats;
  questions : list QuestionAnalysis;
}.

(** The judge. The body of [try] yields [Some b] where the source returns
    [b] and [None] where control falls out of the block. *)
Definition isAnswerCorrect (qType : string) (selected correct : value) : completion bool :=
  if is_null selected || is_undefined selected || is_empty_string selected then
    Normal false
  else if negb (Array_isArray correct) || length_is_zero correct then
    Normal false
  else
    let* r := try_catch
           (let correctAnswer := first_item correct in
            if String.eqb qType "SINGLE_CHOICE" then
              let* a := String_ selected in
              let* b := String_ correctAnswer in
              Normal (Some (String.eqb a b))
            else if String.eqb qType "NUMERICAL" then
              let* selectedNum := parseFloat selected in
              let* correctNum := parseFloat correctAnswer in
              if Number_isNaN selectedNum || Number_isNaN correctNum then
                Normal (Some false)
              else
                Normal (Some (num_lt (num_abs (num_sub correctNum selectedNum))
                                (of_decimal false 1 (-2))))
            else Normal None)
           (fun e => Normal (Some false)) in
    match r with
    | Some b => Normal b
    | None => Normal false
    end.

(** The question a link is scored with: the first item of an array join;
    [None] where the loop says [continue]. *)
Definition link_question (link : Link) : option Question :=
  match Questions link with
  | JoinNull => None
  | JoinObject _ => None
  | JoinArray nil => None
  | JoinArray (q :: _) => q
  end.

Definition zero_stats : SubjectStats :=
  {| correct := 0; incorrect := 0; unattempted := 0; score := 0 |}.

(** [(q.subject || 'UNCATEGORIZED').toUpperCase()] *)
Definition subject_key (q : Question) : string :=
  toUpperCase
    (match subject q with
     | Some s => if String.eqb s "" then "UNCATEGORIZED" else s
     | None => "UNCATEGORIZED"
     end).

(** The status branch taken for a question and its looked-up answer. *)
Definition classify (q : Question) (selected_answer : value) : completion Status :=
  if is_null selected_answer || is_empty_string selected_answer then Normal UNATTEMPTED
  else
    let* ok := isAnswerCorrect (question_type q) selected_answer (correct_answer q) in
    Normal (if ok then CORRECT else INCORRECT).

(** The two increments of the branch: the total and the subject's counter. *)
Definition tally (st : Status) (sub : string) (r : ReportData) : ReportData :=
  let stats := default zero_stats (subjectStats r !! sub) in
  match st with
  | UNATTEMPTED =>
      {| testName := testName r; totalScore := totalScore r;
         totalCorrect := totalCorrect r; totalIncorrect := totalIncorrect r;
         totalUnattempted := totalUnattempted r + 1;
         subjectStats :=
           <[sub := {| correct := correct stats; incorrect := incorrect stats;
                       unattempted := unattempted stats + 1; score := score stats |}]>
             (subjectStats r);
         questions := questions r |}
  | CORRECT =>
      {| testName := testName r; totalScore := totalScore r;
         totalCorrect := totalCorrect r + 1; totalIncorrect := totalIncorrect r;
         totalUnattempted := totalUnattempted r;
         subjectStats :=
           <[sub := {| correct := correct stats + 1; incorrect := incorrect stats;
                       unattempted := unattempted stats; score := score stats |}]>
             (subjectStats r);
         questions := questions r |}
  | INCORRECT =>
      {| testName := testName r; totalScore := totalScore r;
         totalCorrect := totalCorrect r; totalIncorrect := totalIncorrect r + 1;
         totalUnattempted := totalUnattempted r;
         subjectStats :=
           <[sub := {| correct := correct stats; incorrect := incorrect stats + 1;
                       unattempted := unattempted stats; score := score stats |}]>
             (subjectStats r);
         questions := questions r |}
  end.

(** [newReportData.questions.push({...})] *)
Definition push_question (qa : QuestionAnalysis) (r : ReportData) : ReportData :=
  {| testName := testName r; totalScore := totalScore r;
     totalCorrect := totalCorrect r; totalIncorrect := totalIncorrect r;
     totalUnattempted := totalUnattempted r; subjectStats := subjectStats r;
     questions := questions r ++ [qa] |}.

(** One turn of [for (const link of questionLinks)]. *)
Definition report_step (answers : gmap string value) (r : ReportData) (link : Link)
  : completion ReportData :=
  match link_question link with
  | None => Normal r
  | Some q =>
      let selected_answer := or_else (Map_get answers (question_id q)) JNull in
      let sub := subject_key q in
      let* st := classify q selected_answer in
      Normal
        (push_question
           {| qa_question_id := question_id q;
              qa_question_number := question_number link;
              qa_question_text := question_text q;
              qa_subject := subject q;
              qa_correct_answer := correct_answer q;
              qa_solution_text := solution_text q;
              qa_selected_answer := selected_answer;
              qa_status := st |}
           (tally st sub r))
  end.

Fixpoint report_loop (answers : gmap string value) (r : ReportData) (links : list Link)
  : completion ReportData :=
  match links with
  | nil => Normal r
  | link :: rest => let* r' := report_step answers r link in report_loop answers r' rest
  end.

(** "Calculate scores": the total, then every subject's bucket. *)
Definition subject_score (st : SubjectStats) : SubjectStats :=
  {| correct := correct st; incorrect := incorrect st; unattempted := unattempted st;
     score := correct st * 4 - incorrect st * 1 |}.

Definition calculate_scores (r : ReportData) : ReportData :=
  {| testName := testName r;
     totalScore := totalCorrect r * 4 - totalIncorrect r * 1;
     totalCorrect := totalCorrect r; totalIncorrect := totalIncorrect r;
     totalUnattempted := totalUnattempted r;
     subjectStats := subject_score <$> subjectStats r;
     questions := questions r |}.

Definition empty_report (name : string) : ReportData :=
  {| testName := name; totalScore := 0; totalCorrect := 0; totalIncorrect := 0;
     totalUnattempted := 0; subjectStats := ∅; questions := nil |}.

(** Step 5 of [generateReport], on the rows that steps 2 to 4 fetched. *)
Definition generateReport (name : string) (userAnswers : list AnswerRow)
    (questionLinks : list Link) : completion ReportData :=
  let* r := report_loop (answerMap userAnswers) (empty_report name) questionLinks in
  Normal (calculate_scores r).

(** The sum of the scores of all subject buckets. *)
Definition sum_subject_scores (m : gmap string SubjectStats) : Z :=
  map_fold (fun _ st acc => score st + acc) 0 m.

(** The marks a status is worth. *)
Definition marks (st : Status) : Z :=
  match st with CORRECT => 4 | INCORRECT => -1 | UNATTEMPTED => 0 end.

(** *** The rest of the page *)

(** The tabs of the solution review. *)
Inductive ReportTab : Type := TAB_ALL | TAB_CORRECT | TAB_INCORRECT | TAB_UNATTEMPTED.

(** [q.status === activeTab] *)
Definition status_is_tab (st : Status) (tab : ReportTab) : bool :=
  match st, tab with
  | CORRECT, TAB_CORRECT | INCORRECT, TAB_INCORRECT | UNATTEMPTED, TAB_UNATTEMPTED => true
  | _, _ => false
  end.

Definition filteredQuestions (r : ReportData) (activeTab : ReportTab) : list QuestionAnalysis :=
  List.filter
    (fun q => match activeTab with
              | TAB_ALL => true
              | _ => status_is_tab (qa_status q) activeTab
              end)
    (questions r).

(** [getAnswerDisplay] of the review card. *)
Definition getAnswerDisplay (answer : value) : completion string :=
  if is_null answer || is_undefined answer || is_empty_string answer then
    Normal "Not Answered"
  else
    let* numeric :=
      (if is_number answer then Normal true
       else let* x := parseFloat answer in Normal (negb (Number_isNaN x))) in
    if numeric then
      let* x := parseFloat answer in String_ (JNum x)
    else
      match answer with
      | JArr items => Array_join items ", "
      | _ => String_ answer
      end.

Fixpoint displays (items : list value) : completion (list string) :=
  match items with
  | nil => Normal nil
  | a :: rest =>
      let* d := getAnswerDisplay a in
      let* ds := displays rest in
      Normal (d :: ds)
  end.

(** [getCorrectAnswerDisplay] of the review card. *)
Definition getCorrectAnswerDisplay (answer : value) : completion string :=
  if is_null answer || is_undefined answer then Normal "N/A"
  else
    match answer with
    | JArr items => let* ds := displays items in Normal (join_strings ds ", ")
    | _ => getAnswerDisplay answer
    end.

(** What the component shows: [loading], [error], [reportData], and where the
    router was sent. *)
Record View : Type := {
  view_loading : bool;
  view_error : option string;
  view_report : option ReportData;
  view_route : option string;
}.

(** [attemptData.Tests[0].name] for a non-empty array join, else the default. *)
Definition testName_of (tests : TestsJoin) : string :=
  match tests with
  | TestsArray (t :: _) => name t
  | _ => "Test Report"
  end.

(** How the [try] block of [generateReport] ends. *)
Inductive Tried : Type :=
  | returned_early
  | threw (message : string)
  | computed (r : ReportData).

(** The [try] block of [generateReport]: [user] is the id of the signed-in
    user, the other arguments are what the three queries give. *)
Definition generateReport_try (user : option string) (attempt : fetched AttemptRow)
    (answers : fetched (list AnswerRow)) (links : fetched (list Link)) : Tried :=
  match user with
  | None => returned_early
  | Some uid =>
      match attempt with
      | fetch_error m => threw ("Attempt not found. " ++ m)
      | fetch_data attemptData =>
          if negb (String.eqb (user_id attemptData) uid) then
            threw "You do not have permission to view this report."
          else
            match answers with
            | fetch_error m => threw ("Could not fetch answers. " ++ m)
            | fetch_data userAnswers =>
                match links with
                | fetch_error m => threw ("Could not fetch questions. " ++ m)
                | fetch_data questionLinks =>
                    match generateReport (testName_of (Tests attemptData)) userAnswers
                            questionLinks with
                    | Normal r => computed r
                    | Throw (TypeError m) => threw m
                    end
                end
            end
      end
  end.

(** [generateReport] as the effect runs it: the [try] block, [catch] and
    [finally], from the initial state of the component. *)
Definition generateReport_view (user : option string) (attempt : fetched AttemptRow)
    (answers : fetched (list AnswerRow)) (links : fetched (list Link)) : View :=
  match generateReport_try user attempt answers links with
  | returned_early =>
      {| view_loading := false; view_error := None; view_report := None;
         view_route := Some "/login" |}
  | threw m =>
      {| view_loading := false; view_error := Some m; view_report := None;
         view_route := None |}
  | computed r =>
      {| view_loading := false; view_error := None; view_report := Some r;
         view_route := None |}
  end.

End ReportPage.

(** ** The edge function: [supabase/functions/calculate-score/index.ts] *)

Module CalculateScore.
Import Js Store.

(** The judge, as the edge function has it. *)
Definition isAnswerCorrect (qType : string) (selected correct : value) : completion bool :=
  if is_null selected || is_undefined selected || is_empty_string selected then
    Normal false
  else if negb (Array_isArray correct) || length_is_zero correct then
    Normal false
  else
    let* r := try_catch
           (let correctAnswer := first_item correct in
            if String.eqb qType "SINGLE_CHOICE" then
              let* a := String_ selected in
              let* b := String_ correctAnswer in
              Normal (Some (String.eqb a b))
            else if String.eqb qType "NUMERICAL" then
              let* selectedNum := parseFloat selected in
              let* correctNum := parseFloat correctAnswer in
              if Number_isNaN selectedNum || Number_isNaN correctNum then
                Normal (Some false)
              else
                Normal (Some (num_lt (num_abs (num_sub correctNum selectedNum))
                                (of_decimal false 1 (-2))))
            else Normal None)
           (fun e => Normal (Some false)) in
    match r with
    | Some b => Normal b
    | None => Normal false
    end.

(** [link.Questions && Array.isArray(link.Questions) ? link.Questions[0]
    : link.Questions], and [None] where [if (!q) continue] leaves the turn. *)
Definition link_question (link : Link) : option Question :=
  match Questions link with
  | JoinArray (q :: _) => q
  | JoinArray nil => None
  | JoinObject q => Some q
  | JoinNull => None
  end.

(** The branch taken for a question: no counter, [totalCorrect++] or
    [totalIncorrect++]. *)
Inductive Branch : Type := Unattempted | Correct | Incorrect.

Definition classify (q : Question) (selected_answer : value) : completion Branch :=
  if is_null selected_answer then Normal Unattempted
  else
    let* ok := isAnswerCorrect (question_type q) selected_answer (correct_answer q) in
    Normal (if ok then Correct else Incorrect).

(** The counters [totalCorrect] and [totalIncorrect]. *)
Record Totals : Type := { totalCorrect : Z; totalIncorrect : Z }.

Definition count (b : Branch) (t : Totals) : Totals :=
  match b with
  | Unattempted => t
  | Correct => {| totalCorrect := totalCorrect t + 1; totalIncorrect := totalIncorrect t |}
  | Incorrect => {| totalCorrect := totalCorrect t; totalIncorrect := totalIncorrect t + 1 |}
  end.

Definition score_step (answers : gmap string value) (t : Totals) (link : Link)
  : completion Totals :=
  match link_question link with
  | None => Normal t
  | Some q =>
      let selected_answer := or_else (Map_get answers (question_id q)) JNull in
      let* b := classify q selected_answer in
      Normal (count b t)
  end.

Fixpoint score_loop (answers : gmap string value) (t : Totals) (links : list Link)
  : completion Totals :=
  match links with
  | nil => Normal t
  | link :: rest => let* t' := score_step answers t link in score_loop answers t' rest
  end.

(** Step 4 of the handler: [finalScore]. *)
Definition finalScore (userAnswers : list AnswerRow) (questionLinks : list Link)
  : completion Z :=
  let* t := score_loop (answerMap userAnswers) {| totalCorrect := 0; totalIncorrect := 0 |}
         questionLinks in
  Normal (totalCorrect t * 4 - totalIncorrect t * 1).

(** *** The handler *)

Inductive Body : Type :=
  | body_ok
  | body_score (score : Z)
  | body_error (message : string).

(** A response: its status, its body, and whether it carries the CORS
    headers and the JSON content type. *)
Record Response : Type := {
  status : Z;
  body : Body;
  cors : bool;
  json : bool;
}.

(** The [try] block up to [finalScore]: [attemptId] is what destructuring
    the request body gives, the other arguments what the three queries give. *)
Definition recompute (attemptId : completion value) (attempt : fetched string)
    (answers : fetched (list AnswerRow)) (links : fetched (list Link)) : fetched Z :=
  match attemptId with
  | Throw (TypeError m) => fetch_error m
  | Normal id =>
      if negb (truthy id) then fetch_error "Missing 'attemptId' in request body"
      else
        match attempt with
        | fetch_error m => fetch_error m
        | fetch_data testId =>
            match answers with
            | fetch_error m => fetch_error m
            | fetch_data userAnswers =>
                match links with
                | fetch_error m => fetch_error m
                | fetch_data questionLinks =>
                    match finalScore userAnswers questionLinks with
                    | Normal score => fetch_data score
                    | Throw (TypeError m) => fetch_error m
                    end
                end
            end
        end
  end.

(** The handler: the response, and the [final_score] of the attempt
    afterwards ([stored] before). [updateError] is the error of the update,
    if it fails. *)
Definition serve (method : string) (attemptId : completion value) (attempt : fetched string)
    (answers : fetched (list AnswerRow)) (links : fetched (list Link))
    (updateError : option string) (stored : option Z) : Response * option Z :=
  if String.eqb method "OPTIONS" then
    ({| status := 200; body := body_ok; cors := true; json := false |}, stored)
  else
    match recompute attemptId attempt answers links with
    | fetch_error m =>
        ({| status := 400; body := body_error m; cors := true; json := true |}, stored)
    | fetch_data score =>
        match updateError with
        | Some m =>
            ({| status := 400; body := body_error m; cors := true; json := true |}, stored)
        | None =>
            ({| status := 200; body := body_score score; cors := true; json := true |},
             Some score)
        end
    end.

End CalculateScore.

(** ** The test page: [src/app/test/[attemptId]/page.tsx] *)

Module TestPage.
Import Js.

Inductive AnswerStatus : Type :=
  | not_visited
  | unanswered
  | answered
  | marked_for_review.

#[global] Instance AnswerStatus_eq_dec : EqDecision AnswerStatus.
Proof. solve_decision. Defined.

Record QuestionState : Type := {
  status : AnswerStatus;
  selected_answer : value;
  time_taken_sec : Z;
}.

(** The fields of a question that the handlers read. *)
Record Question : Type := {
  question_id : string;
  question_type : string;
  question_number : Z;
}.

(** The state variables of the component ([testDuration] is only stored). *)
Record State : Type := {
  questions : list Question;
  timeLeft : Z;
  currentQuestionIndex : Z;
  testState : gmap string QuestionState;
  loading : bool;
  isSubmitting : bool;
}.

(** A call of a state setter, with a value or an updater function. *)
Inductive Update : Type :=
  | setTestState (f : gmap string QuestionState -> gmap string QuestionState)
  | setCurrentQuestionIndex (i : Z)
  | setIsSubmitting (b : bool)
  | setTimeLeft (f : Z -> Z).

Definition apply_update (u : Update) (s : State) : State :=
  match u with
  | setTestState f =>
      {| questions := questions s; timeLeft := timeLeft s;
         currentQuestionIndex := currentQuestionIndex s; testState := f (testState s);
         loading := loading s; isSubmitting := isSubmitting s |}
  | setCurrentQuestionIndex i =>
      {| questions := questions s; timeLeft := timeLeft s;
         currentQuestionIndex := i; testState := testState s;
         loading := loading s; isSubmitting := isSubmitting s |}
  | setIsSubmitting b =>
      {| questions := questions s; timeLeft := timeLeft s;
         currentQuestionIndex := currentQuestionIndex s; testState := testState s;
         loading := loading s; isSubmitting := b |}
  | setTimeLeft f =>
      {| questions := questions s; timeLeft := f (timeLeft s);
         currentQuestionIndex := currentQuestionIndex s; testState := testState s;
         loading := loading s; isSubmitting := isSubmitting s |}
  end.

(** The queued setter calls of one handler run, applied in order. *)
Definition apply_updates (us : list Update) (s : State) : State :=
  fold_left (fun acc u => apply_update u acc) us s.

(** A request to the record store. *)
Inductive Request : Type :=
  | upsert_response (qId : string) (selected : value) (action : AnswerStatus)
  | update_attempt_completed.

(** What a handler run leaves behind: requests sent and setters called. *)
Record Effects : Type := {
  requests : list Request;
  updates : list Update;
}.

Definition no_effects : Effects := {| requests := nil; updates := nil |}.

(** [questions[i]] *)
Definition item {A : Type} (l : list A) (i : Z) : option A :=
  if i <? 0 then None else l !! Z.to_nat i.

(** [questions[i].question_id]: reading a property of [undefined] throws. *)
Definition question_id_at (qs : list Question) (i : Z) : completion string :=
  match item qs i with
  | Some q => Normal (question_id q)
  | None => Throw (TypeError "Cannot read properties of undefined")
  end.

Definition fresh_state : QuestionState :=
  {| status := not_visited; selected_answer := JNull; time_taken_sec := 0 |}.

Definition with_status (st : AnswerStatus) (q : QuestionState) : QuestionState :=
  {| status := st; selected_answer := selected_answer q;
     time_taken_sec := time_taken_sec q |}.

(** [getQuestionState], on the [testState] of the render. *)
Definition getQuestionState (s : State) (qId : string) : QuestionState :=
  default fresh_state (testState s !! qId).

(** [initialState] of [fetchTestData]. *)
Definition initialState (fetchedQuestions : list Question) : gmap string QuestionState :=
  let m := fold_left (fun m q => <[question_id q := fresh_state]> m) fetchedQuestions ∅ in
  match fetchedQuestions with
  | q0 :: _ => alter (with_status unanswered) (question_id q0) m
  | nil => m
  end.

(** The timer effect's body, on the state of the render it belongs to. *)
Inductive TimerAction : Type :=
  | timer_idle
  | timer_submit
  | timer_interval.

Definition timerEffect (s : State) : TimerAction :=
  if loading s || isSubmitting s then timer_idle
  else if timeLeft s <=? 0 then timer_submit
  else timer_interval.

(** [saveAnswerToDB] up to its [await]: the upsert it sends, if any. It reads
    [testStateRef.current]. *)
Definition saveAnswerToDB (ref : gmap string QuestionState) (qId : string) : option Request :=
  match ref !! qId with
  | None => None
  | Some stateToSave =>
      let dbAction :=
        match status stateToSave with
        | not_visited => unanswered
        | a => a
        end in
      Some (upsert_response qId (selected_answer stateToSave) dbAction)
  end.

Definition navigateToQuestion (s : State) (ref : gmap string QuestionState) (newIndex : Z)
  : completion Effects :=
  if (newIndex <? 0) || (Z.of_nat (length (questions s)) <=? newIndex)
     || (newIndex =? currentQuestionIndex s) then
    Normal no_effects
  else
    let* oldQId := question_id_at (questions s) (currentQuestionIndex s) in
    let save := saveAnswerToDB ref oldQId in
    let* newQId := question_id_at (questions s) newIndex in
    let newState := getQuestionState s newQId in
    Normal
      {| requests := option_list save;
         updates :=
           (if decide (status newState = not_visited) then
              [setTestState (fun prevState => <[newQId := with_status unanswered newState]> prevState)]
            else []) ++ [setCurrentQuestionIndex newIndex] |}.

Definition handleSaveAndNext (s : State) (ref : gmap string QuestionState) : completion Effects :=
  navigateToQuestion s ref (currentQuestionIndex s + 1).

Definition handleMarkForReview (s : State) (ref : gmap string QuestionState)
  : completion Effects :=
  let* qId := question_id_at (questions s) (currentQuestionIndex s) in
  let mark :=
    setTestState (fun prevState =>
      let oldQState := default (getQuestionState s qId) (prevState !! qId) in
      <[qId := with_status marked_for_review oldQState]> prevState) in
  let* nav := navigateToQuestion s ref (currentQuestionIndex s + 1) in
  Normal {| requests := requests nav; updates := mark :: updates nav |}.

Definition handleClearResponse (s : State) : completion Effects :=
  let* qId := question_id_at (questions s) (currentQuestionIndex s) in
  Normal
    {| requests := nil;
       updates :=
         [setTestState (fun prevState =>
            let oldQState := default (getQuestionState s qId) (prevState !! qId) in
            <[qId := {| status := unanswered; selected_answer := JNull;
                        time_taken_sec := time_taken_sec oldQState |}]> prevState)] |}.

Definition handleAnswerChange (s : State) (selectedOption : value) : completion Effects :=
  let* qId := question_id_at (questions s) (currentQuestionIndex s) in
  let newStatus :=
    if negb (is_null selectedOption) && negb (is_empty_string selectedOption)
    then answered else unanswered in
  Normal
    {| requests := nil;
       updates :=
         [setTestState (fun prevState =>
            let oldQState := default (getQuestionState s qId) (prevState !! qId) in
            <[qId := {| status := newStatus; selected_answer := selectedOption;
                        time_taken_sec := time_taken_sec oldQState |}]> prevState)] |}.

Definition jumpToQuestion (s : State) (ref : gmap string QuestionState) (index : Z)
  : completion Effects :=
  navigateToQuestion s ref index.

(** [handleSubmitTest] up to its first [await]: it returns at the guard, or
    at a declined confirmation, or it sets the flag and calls
    [saveAnswerToDB] for the current question. *)
Inductive SubmitStart : Type :=
  | submit_ignored
  | submit_declined
  | submit_started (save : completion (option Request)).

Definition handleSubmitTest_begin (s : State) (ref : gmap string QuestionState)
    (confirmSubmit : bool) : SubmitStart :=
  if isSubmitting s then submit_ignored
  else if negb confirmSubmit then submit_declined
  else
    submit_started
      (let* currentQId := question_id_at (questions s) (currentQuestionIndex s) in
       Normal (saveAnswerToDB ref currentQId)).

(** What the page shows or logs. *)
Inductive Ui : Type :=
  | called_handleSubmitTest (by_timer : bool)
  | confirm_dialog
  | console_error_save
  | console_error_submit
  | alert_submit_error
  | router_push_report
  | uncaught (e : error).

(** [handleSubmitTest] after the update of [User_Test_Attempts] settled. *)
Definition handleSubmitTest_end (error : bool) : list Ui * list Update :=
  if error then ([console_error_submit; alert_submit_error], [setIsSubmitting false])
  else ([router_push_report], []).

(** *** The record store, for one attempt *)

Inductive AttemptStatus : Type := STARTED | COMPLETED.

Record AnswerResponse : Type := {
  resp_selected_answer : value;
  resp_action : AnswerStatus;
}.

Record Database : Type := {
  responses : gmap string AnswerResponse;
  attempt_status : AttemptStatus;
  end_time : option Z;
}.

(** A request that succeeds; one that fails leaves the store as it was. *)
Definition perform (now : Z) (r : Request) (d : Database) : Database :=
  match r with
  | upsert_response qId sel act =>
      {| responses := <[qId := {| resp_selected_answer := sel; resp_action := act |}]> (responses d);
         attempt_status := attempt_status d; end_time := end_time d |}
  | update_attempt_completed =>
      {| responses := responses d; attempt_status := COMPLETED; end_time := Some now |}
  end.

(** *** The page at run time

    The committed state, the ref, whether the timer effect holds an interval,
    the store, the [await] an unfinished [handleSubmitTest] call stands at,
    and what was shown so far.

    The page is driven by one event loop. An event runs its handler up to the
    handler's next [await]; the setter calls made on the way commit together
    and the effects of the new render run before the next event, so that
    every handler reads the state of the last commit. A request to the store
    that fails leaves the store as it was. *)

Inductive Awaiting : Type :=
  | awaiting_save (r : Request)
  | awaiting_update.

Record World : Type := {
  page : State;
  testStateRef : gmap string QuestionState;
  interval : bool;
  db : Database;
  awaiting : option Awaiting;
  shown : list Ui;
}.

Definition set_page (s : State) (w : World) : World :=
  {| page := s; testStateRef := testStateRef w; interval := interval w; db := db w;
     awaiting := awaiting w; shown := shown w |}.
Definition set_ref (r : gmap string QuestionState) (w : World) : World :=
  {| page := page w; testStateRef := r; interval := interval w; db := db w;
     awaiting := awaiting w; shown := shown w |}.
Definition set_interval (b : bool) (w : World) : World :=
  {| page := page w; testStateRef := testStateRef w; interval := b; db := db w;
     awaiting := awaiting w; shown := shown w |}.
Definition set_db (d : Database) (w : World) : World :=
  {| page := page w; testStateRef := testStateRef w; interval := interval w; db := d;
     awaiting := awaiting w; shown := shown w |}.
Definition set_awaiting (a : option Awaiting) (w : World) : World :=
  {| page := page w; testStateRef := testStateRef w; interval := interval w; db := db w;
     awaiting := a; shown := shown w |}.
Definition show (us : list Ui) (w : World) : World :=
  {| page := page w; testStateRef := testStateRef w; interval := interval w; db := db w;
     awaiting := awaiting w; shown := shown w ++ us |}.

(** A call of [handleSubmitTest] on the committed state, up to its first
    [await]. With nothing to save the call goes on to the update at once. *)
Definition submit_begin (by_timer confirmSubmit : bool) (w : World) : World :=
  let w := show [called_handleSubmitTest by_timer] w in
  match handleSubmitTest_begin (page w) (testStateRef w) confirmSubmit with
  | submit_ignored => w
  | submit_declined => show [confirm_dialog] w
  | submit_started save =>
      let w := set_page (apply_update (setIsSubmitting true) (page w)) (show [confirm_dialog] w) in
      match save with
      | Throw e => show [uncaught e] w
      | Normal (Some r) => set_awaiting (Some (awaiting_save r)) w
      | Normal None => set_awaiting (Some awaiting_update) w
      end
  end.

Definition timer_deps (s : State) : Z * bool * bool :=
  (timeLeft s, loading s, isSubmitting s).

(** The effects after a commit: [before] is the state of the previous
    render. The ref follows [testState]; the timer effect runs again when one
    of [timeLeft], [loading], [isSubmitting] changed, after its cleanup. A
    setter called by the effect commits in turn. *)
Fixpoint run_effects (fuel : nat) (confirmSubmit : bool) (before : State) (w : World) : World :=
  let w := set_ref (testState (page w)) w in
  if decide (timer_deps before = timer_deps (page w)) then w
  else
    match fuel with
    | O => w
    | S fuel' =>
        let w0 := set_interval false w in
        match timerEffect (page w0) with
        | timer_idle => w0
        | timer_interval => set_interval true w0
        | timer_submit =>
            run_effects fuel' confirmSubmit (page w0) (submit_begin true confirmSubmit w0)
        end
    end.

(** A commit of the state [s] and the effects that follow it. *)
Definition commit (confirmSubmit : bool) (s : State) (w : World) : World :=
  run_effects 2 confirmSubmit (page w) (set_page s w).

(** A handler that does not await: its upserts settle at once ([save_failed]
    says how), its setter calls commit together. *)
Definition dispatch (now : Z) (save_failed confirmSubmit : bool) (h : completion Effects)
    (w : World) : World :=
  match h with
  | Throw e => show [uncaught e] w
  | Normal eff =>
      let w1 :=
        if save_failed then show (map (fun _ => console_error_save) (requests eff)) w
        else set_db (fold_left (fun d r => perform now r d) (requests eff) (db w)) w in
      commit confirmSubmit (apply_updates (updates eff) (page w)) w1
  end.

(** What happens to the page: the interval fires; the user clicks Submit;
    the upsert that [handleSubmitTest] awaits settles; the update of the
    attempt that it awaits settles; the user clicks a palette button, "Save &
    Next", "Mark for Review & Next" or "Clear Response", or changes the
    answer. [failed] says whether the request came back with an error. *)
Inductive Input : Type :=
  | tick
  | click_submit
  | save_settled (failed : bool)
  | update_settled (failed : bool)
  | click_palette (index : Z) (save_failed : bool)
  | click_save_next (save_failed : bool)
  | click_mark_for_review (save_failed : bool)
  | click_clear_response
  | change_answer (selectedOption : value).

(** One event, at time [now]; [confirmSubmit] is the user's answer to a
    confirmation asked during it. The interval fires only while the timer
    effect holds one, and the Submit button is disabled while [isSubmitting]
    is set. *)
Definition step (now : Z) (confirmSubmit : bool) (i : Input) (w : World) : World :=
  match i with
  | tick =>
      if interval w then
        commit confirmSubmit (apply_update (setTimeLeft (fun prevTime => prevTime - 1)) (page w)) w
      else w
  | click_submit =>
      if isSubmitting (page w) then w
      else
        let before := page w in
        run_effects 2 confirmSubmit before (submit_begin false confirmSubmit w)
  | save_settled failed =>
      match awaiting w with
      | Some (awaiting_save r) =>
          let w1 := if failed then show [console_error_save] w
                    else set_db (perform now r (db w)) w in
          set_awaiting (Some awaiting_update) w1
      | _ => w
      end
  | update_settled failed =>
      match awaiting w with
      | Some awaiting_update =>
          let w1 := if failed then w
                    else set_db (perform now update_attempt_completed (db w)) w in
          let '(ui, us) := handleSubmitTest_end failed in
          commit confirmSubmit (apply_updates us (page w1))
            (set_awaiting None (show ui w1))
      | _ => w
      end
  | click_palette index save_failed =>
      dispatch now save_failed confirmSubmit (jumpToQuestion (page w) (testStateRef w) index) w
  | click_save_next save_failed =>
      dispatch now save_failed confirmSubmit (handleSaveAndNext (page w) (testStateRef w)) w
  | click_mark_for_review save_failed =>
      dispatch now save_failed confirmSubmit (handleMarkForReview (page w) (testStateRef w)) w
  | click_clear_response =>
      dispatch now false confirmSubmit (handleClearResponse (page w)) w
  | change_answer selectedOption =>
      dispatch now false confirmSubmit (handleAnswerChange (page w) selectedOption) w
  end.

(** A run: the events in order, each with its time and the user's answer. *)
Fixpoint run (events : list (Z * bool * Input)) (w : World) : World :=
  match events with
  | nil => w
  | (now, confirmSubmit, i) :: rest => run rest (step now confirmSubmit i w)
  end.

(** The page while [fetchTestData] is at work: the initial values of the
    state variables. *)
Definition mounted (d : Database) : World :=
  {| page :=
       {| questions := nil; timeLeft := 180 * 60; currentQuestionIndex := 0;
          testState := ∅; loading := true; isSubmitting := false |};
     testStateRef := ∅; interval := false; db := d; awaiting := None; shown := nil |}.

(** The page once [fetchTestData] has set the questions, the time, the
    initial question states and [loading]. *)
Definition loaded (confirmSubmit : bool) (fetchedQuestions : list Question) (duration : Z)
    (d : Database) : World :=
  commit confirmSubmit
    {| questions := fetchedQuestions; timeLeft := duration * 60;
       currentQuestionIndex := 0; testState := initialState fetchedQuestions;
       loading := false; isSubmitting := false |}
    (mounted d).

(** How often [handleSubmitTest] was called, by the timer or by a click. *)
Definition is_submit_call (by_timer : bool) (u : Ui) : bool :=
  match u with
  | called_handleSubmitTest b => Bool.eqb b by_timer
  | _ => false
  end.

Definition submit_calls (by_timer : bool) (w : World) : nat :=
  length (List.filter (is_submit_call by_timer) (shown w)).

(** The worlds the page can be in: loaded, then any events. *)
Inductive reachable : World -> Prop :=
  | reachable_loaded (confirmSubmit : bool) (fetchedQuestions : list Question)
      (duration : Z) (d : Database) :
      reachable (loaded confirmSubmit fetchedQuestions duration d)
  | reachable_step (now : Z) (confirmSubmit : bool) (i : Input) (w : World) :
      reachable w -> reachable (step now confirmSubmit i w).

(** The current index points at a question whenever there is one. *)
Definition index_ok (s : State) : Prop :=
  0 <= currentQuestionIndex s
  /\ (questions s <> nil -> currentQuestionIndex s < Z.of_nat (length (questions s))).

(** What every reachable world satisfies: loading is over; an interval is
    held only while the countdown runs; the ref follows the state; a call of
    [handleSubmitTest] is unfinished only while [isSubmitting] is set; the
    current index is in range. *)
Record invariant (w : World) : Prop := {
  inv_loading : loading (page w) = false;
  inv_interval : interval w = true -> timerEffect (page w) = timer_interval;
  inv_ref : testStateRef w = testState (page w);
  inv_awaiting : isSubmitting (page w) = false -> awaiting w = None;
  inv_index : index_ok (page w);
}.

(** A setter call that touches none of the timer effect's dependencies. *)
Definition quiet (u : Update) : Prop :=
  match u with
  | setTestState _ | setCurrentQuestionIndex _ => True
  | setIsSubmitting _ | setTimeLeft _ => False
  end.

(** A question has left [not_visited]. *)
Definition visited (m : gmap string QuestionState) (qId : string) : Prop :=
  exists st, m !! qId = Some st /\ status st <> not_visited.

(** A setter call under which no question goes back to [not_visited]. *)
Definition keeps_visited (u : Update) : Prop :=
  match u with
  | setTestState f => forall m qId, visited m qId -> visited (f m) qId
  | _ => True
  end.

(** *** Loading the page *)

(** One link of [fetchTestData]: the joined question when the join is an
    object, with the number of the link; [None] where the [filter] drops it
    (an empty [question_id]). *)
Definition link_question (link : Store.Link) : option Question :=
  match Store.Questions link with
  | Store.JoinObject q =>
      if String.eqb (Store.question_id q) "" then None
      else
        Some {| question_id := Store.question_id q;
                question_type := Store.question_type q;
                question_number := Store.question_number link |}
  | _ => None
  end.

Definition fetchedQuestions (questionLinks : list Store.Link) : list Question :=
  omap link_question questionLinks.

(** [duration]: the test's minutes for a non-empty array join, else 180. *)
Definition duration (testDetails : Store.TestsJoin) : Z :=
  match testDetails with
  | Store.TestsArray (t :: _) => Store.duration_minutes t
  | _ => 180
  end.

(** How [fetchTestData] ends: sent to the login page; an alert and the
    dashboard; an alert with the page left loading; or the page. *)
Inductive Fetched : Type :=
  | to_login
  | to_dashboard
  | questions_missing
  | ready (w : World).

Definition fetchTestData (confirmSubmit : bool) (session : option string)
    (attempt : Store.fetched Store.AttemptRow)
    (links : Store.fetched (list Store.Link)) (d : Database) : Fetched :=
  match session with
  | None => to_login
  | Some _ =>
      match attempt with
      | Store.fetch_error _ => to_dashboard
      | Store.fetch_data attemptData =>
          match links with
          | Store.fetch_error _ => questions_missing
          | Store.fetch_data questionLinks =>
              ready (loaded confirmSubmit (fetchedQuestions questionLinks)
                       (duration (Store.Tests attemptData)) d)
          end
      end
  end.

(** [formatTime], on a whole number of seconds. *)
Definition formatTime (seconds : Z) : string :=
  let h := padStart2 (integer_toString (seconds / 3600)) in
  let m := padStart2 (integer_toString (Z.rem seconds 3600 / 60)) in
  let s := padStart2 (integer_toString (Z.rem seconds 60)) in
  (h ++ ":" ++ m ++ ":" ++ s)%string.

(** *** What runs of the page keep *)

(** The action that [saveAnswerToDB] stores for a status. *)
Definition dbAction (st : AnswerStatus) : AnswerStatus :=
  match st with
  | not_visited => unanswered
  | a => a
  end.

(** The row that a save of the state [st] writes. *)
Definition saved_row (st : QuestionState) : AnswerResponse :=
  {| resp_selected_answer := selected_answer st; resp_action := dbAction (status st) |}.

Definition request_ok (r : Request) : Prop :=
  match r with
  | upsert_response _ _ act => act <> not_visited
  | update_attempt_completed => True
  end.

(** No stored response has the action [not_visited]. *)
Definition stored_ok (d : Database) : Prop :=
  forall qId r, responses d !! qId = Some r -> resp_action r <> not_visited.

(** The current question has left [not_visited]. *)
Definition current_visited (s : State) : Prop :=
  forall q, item (questions s) (currentQuestionIndex s) = Some q ->
            visited (testState s) (question_id q).

Definition is_uncaught (u : Ui) : bool :=
  match u with uncaught _ => true | _ => false end.

(** A handler of a button sends at most the save of the current question,
    and calls no setter but [setTestState] and [setCurrentQuestionIndex]. *)
Definition button_handler (s : State) (ref : gmap string QuestionState)
    (h : completion Effects) : Prop :=
  forall eff, h = Normal eff ->
    Forall quiet (updates eff)
    /\ (requests eff = []
        \/ exists q, item (questions s) (currentQuestionIndex s) = Some q
                     /\ requests eff = option_list (saveAnswerToDB ref (question_id q))).

(** What a call of [handleSubmitTest] awaits first, on the current question
    [q]: the final save, or the update when there is nothing to save. *)
Definition awaited (ref : gmap string QuestionState) (q : Question) : Awaiting :=
  match saveAnswerToDB ref (question_id q) with
  | Some r => awaiting_save r
  | None => awaiting_update
  end.

(** The part of the state that the effects never touch. *)
Definition same_test (s s' : State) : Prop :=
  questions s' = questions s
  /\ currentQuestionIndex s' = currentQuestionIndex s
  /\ testState s' = testState s
  /\ timeLeft s' = timeLeft s
  /\ loading s' = loading s.

(** What runs keep of the store. *)
Definition store_kept (w : World) : Prop :=
  stored_ok (db w) /\ forall r, awaiting w = Some (awaiting_save r) -> request_ok r.

(** What stays as it is while no confirmation is accepted. *)
Definition not_submitted (d : Database) (w : World) : Prop :=
  attempt_status (db w) = attempt_status d
  /\ end_time (db w) = end_time d
  /\ awaiting w = None
  /\ isSubmitting (page w) = false.

(** What runs of a page without questions keep. *)
Definition nothing_to_do (d : Database) (w : World) : Prop :=
  questions (page w) = [] /\ db w = d /\ awaiting w = None.

(** A question state whose status fits its answer: an answered question has
    an answer, and a question that is unanswered or not visited has none. *)
Definition answer_matches (st : QuestionState) : Prop :=
  (status st = answered -> selected_answer st <> JNull /\ selected_answer st <> JStr "")
  /\ (status st = unanswered \/ status st = not_visited ->
      selected_answer st = JNull \/ selected_answer st = JStr "").

Definition states_match (m : gmap string QuestionState) : Prop :=
  forall qId st, m !! qId = Some st -> answer_matches st.

(** A setter call that keeps the question states fitting. *)
Definition keeps_matching (u : Update) : Prop :=
  match u with
  | setTestState f => forall m, states_match m -> states_match (f m)
  | _ => True
  end.

(** What was shown holds no uncaught exception. *)
Definition no_uncaught (w : World) : Prop :=
  Forall (fun u => is_uncaught u = false) (shown w).

(** What runs of a page with a question keep. *)
Definition never_thrown (w : World) : Prop :=
  questions (page w) <> [] /\ index_ok (page w) /\ no_uncaught w.

End TestPage.

(** ** The rules as the specification words them *)

Module Spec.
Import Js.

(** NUMERICAL: both values parsed as floating-point numbers; false if either
    fails to parse; otherwise [|selected - canonical| < 0.01]. *)
Definition numerical_rule (selected canonical : value) : bool :=
  match parseFloat selected, parseFloat canonical with
  | Normal s, Normal c =>
      if Number_isNaN s || Number_isNaN c then false
      else num_lt (num_abs (num_sub s c)) (of_decimal false 1 (-2))
  | _, _ => false
  end.

(** [selected] is null, undefined or the empty string. *)
Definition no_answer (selected : value) : Prop :=
  selected = JNull \/ selected = JUndefined \/ selected = JStr "".

(** [correct_answer] is a non-empty sequence. *)
Definition non_empty_array (correct : value) : Prop :=
  exists first rest, correct = JArr (first :: rest).

(** [score = correct * 4 - incorrect * 1] *)
Definition score_rule (correct incorrect : Z) : Z := correct * 4 - incorrect * 1.

(** The joined question of a link cannot be resolved: the join holds
    nothing, an empty array, or an array whose first item is null. *)
Definition unresolved (link : Store.Link) : Prop :=
  Store.Questions link = Store.JoinNull
  \/ Store.Questions link = Store.JoinArray nil
  \/ exists rest, Store.Questions link = Store.JoinArray (None :: rest).

(** The join of a link is not a single object. *)
Definition array_joined (link : Store.Link) : Prop :=
  match Store.Questions link with
  | Store.JoinObject _ => False
  | _ => True
  end.

(** The report status that a branch of the server loop stands for. *)
Definition status_of_branch (b : CalculateScore.Branch) : ReportPage.Status :=
  match b with
  | CalculateScore.Unattempted => ReportPage.UNATTEMPTED
  | CalculateScore.Correct => ReportPage.CORRECT
  | CalculateScore.Incorrect => ReportPage.INCORRECT
  end.

End Spec.

(** ** A clock reading, to read [formatTime] against *)

Module Clock.

(** Two decimal digits. *)
Definition two_digits (n : Z) : string :=
  String (ascii_of_nat (Z.to_nat (48 + n / 10)))
    (String (ascii_of_nat (Z.to_nat (48 + n mod 10))) "").

(** Hours, minutes and seconds, two digits each. *)
Definition hh_mm_ss (seconds : Z) : string :=
  (two_digits (seconds / 3600) ++ ":" ++ two_digits (seconds / 60 mod 60) ++ ":"
   ++ two_digits (seconds mod 60))%string.

End Clock.

(** ** Sums over the subject buckets *)

Module Buckets.
Import ReportPage.

(** The sum of [f] over all buckets. *)
Definition sum_by (f : SubjectStats -> Z) (m : gmap string SubjectStats) : Z :=
  map_fold (fun _ st acc => f st + acc) 0 m.

(** The sum of the marks of a list of analysed questions. *)
Definition total_marks (qs : list QuestionAnalysis) : Z :=
  fold_right (fun qa acc => marks (qa_status qa) + acc) 0 qs.

(** How many analysed questions have the status [st]. *)
Definition has_status (st : Status) (qa : QuestionAnalysis) : bool :=
  match st, qa_status qa with
  | CORRECT, CORRECT | INCORRECT, INCORRECT | UNATTEMPTED, UNATTEMPTED => true
  | _, _ => false
  end.

Definition count_status (st : Status) (qs : list QuestionAnalysis) : Z :=
  Z.of_nat (length (List.filter (has_status st) qs)).

(** What the report loop keeps true: the totals are the sums of the buckets
    and the numbers of listed questions of each status. *)
Record consistent (r : ReportData) : Prop := {
  sum_correct : sum_by correct (subjectStats r) = totalCorrect r;
  sum_incorrect : sum_by incorrect (subjectStats r) = totalIncorrect r;
  sum_unattempted : sum_by unattempted (subjectStats r) = totalUnattempted r;
  listed_correct : count_status CORRECT (questions r) = totalCorrect r;
  listed_incorrect : count_status INCORRECT (questions r) = totalIncorrect r;
  listed_unattempted : count_status UNATTEMPTED (questions r) = totalUnattempted r;
}.

(** The bucket of a listed question: its subject as [generateReport] keys
    it. *)
Definition qa_key (qa : QuestionAnalysis) : string :=
  Js.toUpperCase
    (match qa_subject qa with
     | Some s => if String.eqb s "" then "UNCATEGORIZED" else s
     | None => "UNCATEGORIZED"
     end).

(** The listed questions of the bucket [sub]. *)
Definition listed_in (sub : string) (qs : list QuestionAnalysis) : list QuestionAnalysis :=
  List.filter (fun qa => String.eqb (qa_key qa) sub) qs.

(** What a link contributes to the list of the report, as far as it does not
    depend on the judge. *)
Definition listing (answers : gmap string Js.value) (link : Store.Link)
  : option (Z * string * Js.value) :=
  match link_question link with
  | Some q =>
      Some (Store.question_number link, Store.question_id q,
            Js.or_else (Js.Map_get answers (Store.question_id q)) Js.JNull)
  | None => None
  end.

Definition listed (qa : QuestionAnalysis) : Z * string * Js.value :=
  (qa_question_number qa, qa_question_id qa, qa_selected_answer qa).

(** What the loop keeps true of the bucket [sub]: it exists if and only if
    a listed question has that subject, and it counts those questions. *)
Definition bucket_counts (r : ReportData) (sub : string) : Prop :=
  match subjectStats r !! sub with
  | Some st =>
      correct st = count_status CORRECT (listed_in sub (questions r))
      /\ incorrect st = count_status INCORRECT (listed_in sub (questions r))
      /\ unattempted st = count_status UNATTEMPTED (listed_in sub (questions r))
      /\ listed_in sub (questions r) <> []
  | None => listed_in sub (questions r) = []
  end.

(** What the loop keeps true of a listed question and its answer. *)
Definition answer_listed (answers : gmap string Js.value) (qa : QuestionAnalysis) : Prop :=
  qa_selected_answer qa = Js.or_else (Js.Map_get answers (qa_question_id qa)) Js.JNull
  /\ (qa_status qa = UNATTEMPTED <-> qa_selected_answer qa = Js.JNull)
  /\ (qa_selected_answer qa = Js.JNull \/ Js.truthy (qa_selected_answer qa) = true).

End Buckets.

(** ** Concrete rows and pages *)

Module Examples.
Import Js Store.

Definition question (id type : string) (sub : option string) (key : value) : Question :=
  {| question_id := id; question_type := type; subject := sub; correct_answer := key;
     question_text := None; solution_text := None |}.

Definition ten : value := JNum (of_decimal false 10 0).
Definition zero : value := JNum (of_decimal false 0 0).

Definition q1 : Question := question "q1" "SINGLE_CHOICE" (Some "Physics") (JArr [JStr "A"]).
Definition q2 : Question := question "q2" "SINGLE_CHOICE" (Some "Physics") (JArr [JStr "B"]).
Definition q3 : Question := question "q3" "NUMERICAL" (Some "Maths") (JArr [ten]).
Definition q4 : Question := question "q4" "NUMERICAL" (Some "Maths") (JArr [zero]).

(** A link whose join is an array of one row, and one whose join is the row
    itself. *)
Definition array_link (n : Z) (q : Question) : Link :=
  {| question_number := n; Questions := JoinArray [Some q] |}.
Definition object_link (n : Z) (q : Question) : Link :=
  {| question_number := n; Questions := JoinObject q |}.

Definition answer (id : string) (v : value) : AnswerRow :=
  {| ans_question_id := id; ans_selected_answer := v |}.

(** The scenario of the specification: Q1 answered "A", Q2 answered "C",
    Q3 left unanswered. *)
Definition scenario_links : list Link := [array_link 1 q1; array_link 2 q2; array_link 3 q3].
Definition scenario_answers : list AnswerRow := [answer "q1" (JStr "A"); answer "q2" (JStr "C")].

Definition report_of (answers : list AnswerRow) (links : list Link) : ReportPage.ReportData :=
  match ReportPage.generateReport "Mock test" answers links with
  | Normal r => r
  | Throw _ => ReportPage.empty_report "Mock test"
  end.

Definition scenario_report : ReportPage.ReportData := report_of scenario_answers scenario_links.

(** The rows of an attempt whose one question link joins its question as an
    object, answered correctly. *)
Definition object_links : list Link := [object_link 1 q1].
Definition object_answers : list AnswerRow := [answer "q1" (JStr "A")].

(** A link with nothing joined, between two links of the scenario. *)
Definition dangling_link : Link := {| question_number := 9; Questions := JoinNull |}.

(** A stored numerical answer 0 for a question whose key is 0. *)
Definition zero_links : list Link := [array_link 1 q4].
Definition zero_answers : list AnswerRow := [answer "q4" zero].

(** A test page with two questions and an attempt that has started. *)
Definition page_questions : list TestPage.Question :=
  [ {| TestPage.question_id := "q1"; TestPage.question_type := "SINGLE_CHOICE";
       TestPage.question_number := 1 |};
    {| TestPage.question_id := "q3"; TestPage.question_type := "NUMERICAL";
       TestPage.question_number := 2 |} ].

Definition started : TestPage.Database :=
  {| TestPage.responses := ∅; TestPage.attempt_status := TestPage.STARTED;
     TestPage.end_time := None |}.

(** The page loaded with three hours on the clock, and with one minute. *)
Definition fresh_page : TestPage.World := TestPage.loaded true page_questions 180 started.
Definition last_minute : TestPage.World := TestPage.loaded true page_questions 1 started.

(** The user submits and confirms; the final save fails; the update of the
    attempt succeeds. *)
Definition submit_with_failed_save : list (Z * bool * TestPage.Input) :=
  [(10, true, TestPage.click_submit);
   (11, true, TestPage.save_settled true);
   (12, true, TestPage.update_settled false)].

(** The user submits and confirms; the final save succeeds; the update of
    the attempt fails. *)
Definition submit_with_failed_update : list (Z * bool * TestPage.Input) :=
  [(10, true, TestPage.click_submit);
   (11, true, TestPage.save_settled false);
   (12, true, TestPage.update_settled true)].

(** Sixty ticks run the last minute down and the user confirms; the save
    succeeds and the update of the attempt fails. *)
Definition expiry_with_failed_update : list (Z * bool * TestPage.Input) :=
  repeat (0, true, TestPage.tick) 60
  ++ [(61, true, TestPage.save_settled false);
      (62, true, TestPage.update_settled true)].

(** Sixty ticks, and the user declines the confirmation. *)
Definition expiry_declined : list (Z * bool * TestPage.Input) :=
  repeat (0, false, TestPage.tick) 60.

End Examples.

(** * Properties *)

(** ** The answer judge *)

Section Judge.
Import Js.

(** The conversions on sample inputs: what [parseFloat] reads from a string,
    printed back by Number::toString. *)
Example parseFloat_samples :
  map (fun s => Number_toString (parseFloat_string s))
    ["9.995"; "  -12.50e1x"; ".5"; "5."; "abc"; ""; "1e21"; "0.000001"; "1e-7";
     "-0"; "Infinity"; "123456789012345678901"; "0.30000000000000004"]
  = ["9.995"; "-125"; "0.5"; "5"; "NaN"; "NaN"; "1e+21"; "0.000001"; "1e-7";
     "0"; "Infinity"; "123456789012345680000"; "0.30000000000000004"].
Proof. vm_compute. reflexivity. Qed.

(** The tolerance of the judge is the binary64 number nearest to 1/100: its
    mantissa has 53 bits and it is within half a unit in the last place. *)
Example tolerance_is_nearest_hundredth :
  of_decimal false 1 (-2) = S754_finite false 5764607523034235 (-59)
  /\ Z.log2 5764607523034235 = 52
  /\ 2 * Z.abs (2 ^ 59 - 100 * 5764607523034235) <= 100.
Proof. vm_compute. repeat split; discriminate. Qed.

(** The two copies of the judge are one function. *)
Lemma isAnswerCorrect_copies_equal (qType : string) (selected correct : value) :
  CalculateScore.isAnswerCorrect qType selected correct
  = ReportPage.isAnswerCorrect qType selected correct.
Proof. reflexivity. Qed.

Lemma isAnswerCorrect_no_answer (qType : string) (selected correct : value) :
  Spec.no_answer selected ->
  ReportPage.isAnswerCorrect qType selected correct = Normal false.
Proof. intros [-> | [-> | ->]]; reflexivity. Qed.

Lemma isAnswerCorrect_malformed_key (qType : string) (selected correct : value) :
  ~ Spec.non_empty_array correct ->
  ReportPage.isAnswerCorrect qType selected correct = Normal false.
Proof.
  intros Hbad. unfold ReportPage.isAnswerCorrect.
  destruct (is_null selected || is_undefined selected || is_empty_string selected);
    [reflexivity |].
  destruct correct as [| | | | | [| first rest] | |]; try reflexivity.
  exfalso. apply Hbad. exists first, rest. reflexivity.
Qed.

(** Whatever the [try] block does, the judge returns a boolean. *)
Lemma isAnswerCorrect_returns (qType : string) (selected correct : value) :
  exists b, ReportPage.isAnswerCorrect qType selected correct = Normal b.
Proof.
  unfold ReportPage.isAnswerCorrect.
  destruct (is_null selected || is_undefined selected || is_empty_string selected);
    [eexists; reflexivity |].
  destruct (negb (Array_isArray correct) || length_is_zero correct);
    [eexists; reflexivity |].
  destruct (String.eqb qType "SINGLE_CHOICE").
  - destruct (String_ selected) as [a | e]; simpl; [| eexists; reflexivity].
    destruct (String_ (first_item correct)); simpl; eexists; reflexivity.
  - destruct (String.eqb qType "NUMERICAL"); [| eexists; reflexivity].
    destruct (parseFloat selected) as [s | e]; simpl; [| eexists; reflexivity].
    destruct (parseFloat (first_item correct)) as [c | e]; simpl; [| eexists; reflexivity].
    destruct (Number_isNaN s || Number_isNaN c); eexists; reflexivity.
Qed.

Lemma isAnswerCorrect_other_type (qType : string) (selected correct : value) :
  qType <> "SINGLE_CHOICE" -> qType <> "NUMERICAL" ->
  ReportPage.isAnswerCorrect qType selected correct = Normal false.
Proof.
  intros H1 H2. unfold ReportPage.isAnswerCorrect.
  apply String.eqb_neq in H1. apply String.eqb_neq in H2. rewrite H1, H2.
  destruct (is_null selected || is_undefined selected || is_empty_string selected);
    [reflexivity |].
  destruct (negb (Array_isArray correct) || length_is_zero correct); reflexivity.
Qed.

(** C3. With no selected answer (null, undefined or the empty string) the
    judge returns false for every question type and every correct_answer;
    with a correct_answer that is not a non-empty array it returns false for
    every selected value; a question type other than SINGLE_CHOICE and
    NUMERICAL gives false; and the judge never throws. This holds of both
    copies, which are equal. *)
Theorem judge_false_without_answer_or_key (qType : string) (selected correct : value) :
  (Spec.no_answer selected ->
   ReportPage.isAnswerCorrect qType selected correct = Normal false
   /\ CalculateScore.isAnswerCorrect qType selected correct = Normal false)
  /\ (~ Spec.non_empty_array correct ->
      ReportPage.isAnswerCorrect qType selected correct = Normal false
      /\ CalculateScore.isAnswerCorrect qType selected correct = Normal false)
  /\ (qType <> "SINGLE_CHOICE" -> qType <> "NUMERICAL" ->
      ReportPage.isAnswerCorrect qType selected correct = Normal false
      /\ CalculateScore.isAnswerCorrect qType selected correct = Normal false)
  /\ (exists b,
        ReportPage.isAnswerCorrect qType selected correct = Normal b
        /\ CalculateScore.isAnswerCorrect qType selected correct = Normal b).
Proof.
  split; [| split; [| split]].
  - intros H. split; now apply isAnswerCorrect_no_answer.
  - intros H. split; now apply isAnswerCorrect_malformed_key.
  - intros H1 H2. split; now apply isAnswerCorrect_other_type.
  - destruct (isAnswerCorrect_returns qType selected correct) as [b Hb].
    exists b. split; exact Hb.
Qed.

Lemma judge_false_without_answer_or_key_witness :
  ReportPage.isAnswerCorrect "NUMERICAL" JNull (JArr [Examples.ten]) = Normal false
  /\ CalculateScore.isAnswerCorrect "SINGLE_CHOICE" (JStr "A") JNull = Normal false
  /\ ReportPage.isAnswerCorrect "MULTIPLE_CHOICE" (JStr "A") (JArr [JStr "A"]) = Normal false.
Proof.
  destruct (judge_false_without_answer_or_key "NUMERICAL" JNull (JArr [Examples.ten]))
    as [Hnone _].
  destruct (judge_false_without_answer_or_key "SINGLE_CHOICE" (JStr "A") JNull)
    as [_ [Hkey _]].
  destruct (judge_false_without_answer_or_key "MULTIPLE_CHOICE" (JStr "A")
              (JArr [JStr "A"])) as [_ [_ [Htype _]]].
  split; [apply Hnone; left; reflexivity |].
  split; [apply Hkey; intros [first [rest Habs]]; discriminate |].
  apply Htype; discriminate.
Defined.

(** X1. SINGLE_CHOICE compares the two values as strings: an answer that is not
    missing is correct against itself, the number 3 is correct against the
    string "3", and two different strings are not equal. *)
Lemma single_choice_compares_strings :
  (forall (x : value) (sx : string),
     ~ Spec.no_answer x -> String_ x = Normal sx ->
     ReportPage.isAnswerCorrect "SINGLE_CHOICE" x (JArr [x]) = Normal true)
  /\ (forall a b : string,
        a <> "" ->
        ReportPage.isAnswerCorrect "SINGLE_CHOICE" (JStr a) (JArr [JStr b])
        = Normal (String.eqb a b))
  /\ ReportPage.isAnswerCorrect "SINGLE_CHOICE" (JNum (of_decimal false 3 0))
       (JArr [JStr "3"]) = Normal true.
Proof.
  split; [| split].
  - intros x sx Hx Hsx. unfold ReportPage.isAnswerCorrect.
    destruct (is_null x || is_undefined x || is_empty_string x) eqn:Hg.
    + exfalso. apply Hx. unfold Spec.no_answer.
      destruct x as [| | b | n | s | l | f | d]; simpl in Hg; try discriminate; auto.
      apply String.eqb_eq in Hg. subst. auto.
    + simpl. rewrite Hsx. simpl. now rewrite String.eqb_refl.
  - intros a b Ha. unfold ReportPage.isAnswerCorrect. simpl.
    apply String.eqb_neq in Ha. rewrite Ha. reflexivity.
  - vm_compute. reflexivity.
Qed.

Lemma single_choice_compares_strings_witness :
  ReportPage.isAnswerCorrect "SINGLE_CHOICE" (JBool true) (JArr [JBool true]) = Normal true
  /\ ReportPage.isAnswerCorrect "SINGLE_CHOICE" (JStr "A") (JArr [JStr "B"]) = Normal false.
Proof.
  destruct single_choice_compares_strings as [Hself [Hstrings _]].
  split.
  - apply (Hself (JBool true) "true"); [| reflexivity].
    intros [Habs | [Habs | Habs]]; discriminate.
  - apply (Hstrings "A" "B"). discriminate.
Defined.

End Judge.

(** ** The numerical rule *)

Section Numerical.
Import Js.

Lemma abs_binary_round_aux (sx : bool) (mx ex : Z) (lx : location) :
  SFabs (binary_round_aux prec emax sx mx ex lx) = binary_round_aux prec emax false mx ex lx.
Proof.
  unfold binary_round_aux.
  destruct (shr_fexp prec emax mx ex lx) as [mrs' e'].
  destruct (shr_fexp prec emax _ e' loc_Exact) as [mrs'' e''].
  destruct (shr_m mrs'') as [| m | m]; try reflexivity.
  destruct (e'' <=? emax - prec); reflexivity.
Qed.

Lemma abs_binary_normalize_opp (m e : Z) :
  SFabs (binary_normalize prec emax (- m) e false) = SFabs (binary_normalize prec emax m e false).
Proof.
  destruct m as [| p | p]; simpl; [reflexivity | |];
    unfold binary_round;
    destruct (shl_align p e _) as [mz ez];
    now rewrite !abs_binary_round_aux.
Qed.

(** [Math.abs(a - b)] and [Math.abs(b - a)] are the same number. *)
Lemma abs_sub_comm (x y : number) : num_abs (num_sub x y) = num_abs (num_sub y x).
Proof.
  unfold num_abs, num_sub.
  destruct x as [sx | sx | | sx mx ex], y as [sy | sy | | sy my ey];
    try reflexivity;
    try (destruct sx, sy; reflexivity);
    try (destruct sx; reflexivity);
    try (destruct sy; reflexivity).
  unfold SFsub. rewrite (Z.min_comm ey ex).
  rewrite <- abs_binary_normalize_opp. f_equal. f_equal. lia.
Qed.

Lemma parseFloat_no_answer (selected : value) :
  Spec.no_answer selected -> parseFloat selected = Normal NaN.
Proof. intros [-> | [-> | ->]]; reflexivity. Qed.

Lemma no_answer_guard (selected : value) :
  is_null selected || is_undefined selected || is_empty_string selected = true
  <-> Spec.no_answer selected.
Proof.
  unfold Spec.no_answer. split.
  - destruct selected as [| | b | x | s | l | f | d]; simpl; try discriminate; auto.
    intros H. apply String.eqb_eq in H. subst. auto.
  - intros [-> | [-> | ->]]; reflexivity.
Qed.

(** The NUMERICAL branch of the judge computes the rule of the
    specification. *)
Lemma isAnswerCorrect_numerical (selected canonical : value) (rest : list value) :
  ReportPage.isAnswerCorrect "NUMERICAL" selected (JArr (canonical :: rest))
  = Normal (Spec.numerical_rule selected canonical).
Proof.
  unfold ReportPage.isAnswerCorrect, Spec.numerical_rule.
  destruct (is_null selected || is_undefined selected || is_empty_string selected) eqn:Hg.
  - apply no_answer_guard in Hg. rewrite (parseFloat_no_answer _ Hg).
    destruct (parseFloat canonical); reflexivity.
  - simpl. destruct (parseFloat selected) as [s | e]; simpl; [| reflexivity].
    destruct (parseFloat canonical) as [c | e]; simpl; [| reflexivity].
    destruct (Number_isNaN s || Number_isNaN c); [reflexivity |].
    now rewrite (abs_sub_comm c s).
Qed.

(** C4. For a NUMERICAL question the judge parses the selected answer and
    the first element of correct_answer as binary64 numbers, returns false
    when either parse fails (gives NaN, or throws), and otherwise returns
    true exactly when the absolute value of their binary64 difference is
    strictly below the binary64 number 0.01. So 9.995 against [10] is
    correct and 9.98 against [10] is not, for numbers and for the strings
    that the input field stores. Both copies. *)
Theorem numerical_within_tolerance (selected canonical : value) (rest : list value) :
  ReportPage.isAnswerCorrect "NUMERICAL" selected (JArr (canonical :: rest))
    = Normal (Spec.numerical_rule selected canonical)
  /\ CalculateScore.isAnswerCorrect "NUMERICAL" selected (JArr (canonical :: rest))
    = Normal (Spec.numerical_rule selected canonical)
  /\ ReportPage.isAnswerCorrect "NUMERICAL" (JNum (of_decimal false 9995 (-3)))
       (JArr [JNum (of_decimal false 10 0)]) = Normal true
  /\ ReportPage.isAnswerCorrect "NUMERICAL" (JNum (of_decimal false 998 (-2)))
       (JArr [JNum (of_decimal false 10 0)]) = Normal false
  /\ ReportPage.isAnswerCorrect "NUMERICAL" (JStr "9.995")
       (JArr [JNum (of_decimal false 10 0)]) = Normal true
  /\ ReportPage.isAnswerCorrect "NUMERICAL" (JStr "9.98")
       (JArr [JNum (of_decimal false 10 0)]) = Normal false.
Proof.
  split; [apply isAnswerCorrect_numerical |].
  split; [apply isAnswerCorrect_numerical |].
  repeat split; vm_compute; reflexivity.
Qed.

End Numerical.

(** ** The two scoring paths *)

Section Scoring.
Import Js Store ReportPage Buckets.

Lemma sum_by_empty (f : SubjectStats -> Z) : sum_by f ∅ = 0.
Proof. unfold sum_by. apply map_fold_empty. Qed.

Lemma sum_by_insert_fresh (f : SubjectStats -> Z) (m : gmap string SubjectStats)
    (k : string) (v : SubjectStats) :
  m !! k = None -> sum_by f (<[k:=v]> m) = f v + sum_by f m.
Proof.
  intros Hk. unfold sum_by. rewrite map_fold_insert_L; [reflexivity | | exact Hk].
  intros. lia.
Qed.

Lemma sum_by_insert_old (f : SubjectStats -> Z) (m : gmap string SubjectStats)
    (k : string) (v old : SubjectStats) :
  m !! k = Some old -> sum_by f (<[k:=v]> m) = f v + sum_by f m - f old.
Proof.
  intros Hk.
  rewrite <- (insert_delete_eq m k v).
  rewrite sum_by_insert_fresh by apply lookup_delete_eq.
  rewrite <- (insert_id m k old Hk) at 2.
  rewrite <- (insert_delete_eq m k old).
  rewrite sum_by_insert_fresh by apply lookup_delete_eq.
  lia.
Qed.

(** Writing a bucket changes the sum by the difference to what the bucket
    held, a missing bucket counting as zero. *)
Lemma sum_by_insert (f : SubjectStats -> Z) (m : gmap string SubjectStats)
    (k : string) (v : SubjectStats) :
  f zero_stats = 0 ->
  sum_by f (<[k:=v]> m) = sum_by f m + f v - f (default zero_stats (m !! k)).
Proof.
  intros Hz. destruct (m !! k) as [old |] eqn:Hk; simpl.
  - rewrite (sum_by_insert_old f m k v old Hk). lia.
  - rewrite (sum_by_insert_fresh f m k v Hk). lia.
Qed.

Lemma sum_by_score_rule (m : gmap string SubjectStats) :
  sum_by score (subject_score <$> m)
  = Spec.score_rule (sum_by correct m) (sum_by incorrect m).
Proof.
  unfold Spec.score_rule.
  induction m as [| k v m Hk IH] using map_ind.
  - rewrite fmap_empty, !sum_by_empty. reflexivity.
  - rewrite fmap_insert.
    rewrite !sum_by_insert_fresh by (rewrite ?lookup_fmap, ?Hk; reflexivity).
    rewrite IH. simpl. lia.
Qed.

Lemma count_status_snoc (st : Status) (qs : list QuestionAnalysis) (qa : QuestionAnalysis) :
  count_status st (qs ++ [qa]) = count_status st qs + (if has_status st qa then 1 else 0).
Proof.
  unfold count_status. rewrite List.filter_app, length_app. simpl.
  destruct (has_status st qa); simpl; lia.
Qed.

Lemma total_marks_counts (qs : list QuestionAnalysis) :
  total_marks qs = Spec.score_rule (count_status CORRECT qs) (count_status INCORRECT qs).
Proof.
  unfold Spec.score_rule, count_status.
  induction qs as [| qa qs IH]; [reflexivity |].
  simpl total_marks. rewrite IH. unfold has_status. simpl List.filter.
  destruct (qa_status qa); simpl length; unfold marks; lia.
Qed.

Lemma consistent_empty (name : string) : consistent (empty_report name).
Proof. split; reflexivity. Qed.

(** One counted question keeps the totals, the buckets and the list in
    step. *)
Lemma consistent_counted (r : ReportData) (sub : string) (qa : QuestionAnalysis) :
  consistent r -> consistent (push_question qa (tally (qa_status qa) sub r)).
Proof.
  intros [Hc Hi Hu Lc Li Lu].
  split; simpl; rewrite ?count_status_snoc; unfold has_status;
    destruct (qa_status qa); simpl;
    rewrite ?sum_by_insert by reflexivity; simpl; lia.
Qed.

Lemma report_step_consistent (answers : gmap string value) (r r' : ReportData) (link : Link) :
  report_step answers r link = Normal r' -> consistent r -> consistent r'.
Proof.
  unfold report_step. destruct (link_question link) as [q |].
  - destruct (classify q _) as [st | e]; simpl; [| discriminate].
    intros [= <-] Hr.
    match goal with |- consistent (push_question ?qa _) =>
      apply (consistent_counted r (subject_key q) qa Hr) end.
  - intros [= <-] Hr. exact Hr.
Qed.

Lemma report_loop_consistent (answers : gmap string value) (links : list Link)
    (r r' : ReportData) :
  report_loop answers r links = Normal r' -> consistent r -> consistent r'.
Proof.
  revert r. induction links as [| link rest IH]; simpl; intros r.
  - intros [= <-] Hr. exact Hr.
  - destruct (report_step answers r link) as [r1 |] eqn:Hstep; simpl; [| discriminate].
    intros Hloop Hr. apply (IH r1 Hloop).
    exact (report_step_consistent answers r r1 link Hstep Hr).
Qed.

(** C2. Every computed report has totalScore = totalCorrect * 4 -
    totalIncorrect * 1, every subject bucket has score = correct * 4 -
    incorrect * 1, the scores of the subjects add up to totalScore (with or
    without questions), and the totals count the listed questions of each
    status, so that totalScore is 4 for each CORRECT, -1 for each INCORRECT
    and 0 for each UNATTEMPTED question. *)
Theorem report_scores_follow_rule (name : string) (userAnswers : list AnswerRow)
    (questionLinks : list Link) (r : ReportData) :
  generateReport name userAnswers questionLinks = Normal r ->
  totalScore r = Spec.score_rule (totalCorrect r) (totalIncorrect r)
  /\ (forall sub st, subjectStats r !! sub = Some st ->
        score st = Spec.score_rule (correct st) (incorrect st))
  /\ sum_subject_scores (subjectStats r) = totalScore r
  /\ totalCorrect r = count_status CORRECT (questions r)
  /\ totalIncorrect r = count_status INCORRECT (questions r)
  /\ totalUnattempted r = count_status UNATTEMPTED (questions r)
  /\ totalScore r = total_marks (questions r).
Proof.
  unfold generateReport.
  destruct (report_loop _ _ questionLinks) as [r0 |] eqn:Hloop; simpl; [| discriminate].
  intros [= <-].
  destruct (report_loop_consistent _ _ _ _ Hloop (consistent_empty name))
    as [Hc Hi Hu Lc Li Lu].
  simpl. repeat split.
  - intros sub st. rewrite lookup_fmap.
    destruct (subjectStats r0 !! sub) as [st0 |]; simpl; [| discriminate].
    intros [= <-]. reflexivity.
  - change (sum_by score (subject_score <$> subjectStats r0)
            = totalCorrect r0 * 4 - totalIncorrect r0 * 1).
    rewrite sum_by_score_rule, Hc, Hi. reflexivity.
  - symmetry. exact Lc.
  - symmetry. exact Li.
  - symmetry. exact Lu.
  - rewrite total_marks_counts, Lc, Li. reflexivity.
Qed.


Lemma report_scores_follow_rule_witness :
  totalScore Examples.scenario_report
    = Spec.score_rule (totalCorrect Examples.scenario_report)
        (totalIncorrect Examples.scenario_report)
  /\ (forall sub st, subjectStats Examples.scenario_report !! sub = Some st ->
        score st = Spec.score_rule (correct st) (incorrect st))
  /\ sum_subject_scores (subjectStats Examples.scenario_report)
     = totalScore Examples.scenario_report
  /\ totalCorrect Examples.scenario_report
     = count_status CORRECT (questions Examples.scenario_report)
  /\ totalIncorrect Examples.scenario_report
     = count_status INCORRECT (questions Examples.scenario_report)
  /\ totalUnattempted Examples.scenario_report
     = count_status UNATTEMPTED (questions Examples.scenario_report)
  /\ totalScore Examples.scenario_report = total_marks (questions Examples.scenario_report).
Proof.
  apply (report_scores_follow_rule "Mock test" Examples.scenario_answers
           Examples.scenario_links).
  vm_compute. reflexivity.
Defined.

(** The scenario of the specification: one correct, one incorrect, one
    unattempted, 3 marks; the server computes the same score. *)
Lemma scenario_scores :
  totalCorrect Examples.scenario_report = 1
  /\ totalIncorrect Examples.scenario_report = 1
  /\ totalUnattempted Examples.scenario_report = 1
  /\ totalScore Examples.scenario_report = 3
  /\ CalculateScore.finalScore Examples.scenario_answers Examples.scenario_links = Normal 3.
Proof. vm_compute. repeat split; reflexivity. Qed.

(** *** Neither loop throws *)

Lemma classify_returns (q : Question) (selected_answer : value) :
  exists st, classify q selected_answer = Normal st.
Proof.
  unfold classify.
  destruct (is_null selected_answer || is_empty_string selected_answer);
    [eexists; reflexivity |].
  destruct (isAnswerCorrect_returns (question_type q) selected_answer (correct_answer q))
    as [b ->].
  eexists; reflexivity.
Qed.

Lemma report_loop_returns (answers : gmap string value) (links : list Link) (r : ReportData) :
  exists r', report_loop answers r links = Normal r'.
Proof.
  revert r. induction links as [| link rest IH]; intros r; simpl.
  - eexists; reflexivity.
  - unfold report_step. destruct (link_question link) as [q |]; simpl; [| apply IH].
    destruct (classify_returns q (or_else (Map_get answers (question_id q)) JNull))
      as [st ->].
    simpl. apply IH.
Qed.


Lemma server_classify_returns (q : Question) (selected_answer : value) :
  exists b, CalculateScore.classify q selected_answer = Normal b.
Proof.
  unfold CalculateScore.classify.
  destruct (is_null selected_answer); [eexists; reflexivity |].
  destruct (isAnswerCorrect_returns (question_type q) selected_answer (correct_answer q))
    as [b Hb].
  change (CalculateScore.isAnswerCorrect (question_type q) selected_answer (correct_answer q))
    with (isAnswerCorrect (question_type q) selected_answer (correct_answer q)).
  rewrite Hb. eexists; reflexivity.
Qed.

Lemma score_loop_returns (answers : gmap string value) (links : list Link)
    (t : CalculateScore.Totals) :
  exists t', CalculateScore.score_loop answers t links = Normal t'.
Proof.
  revert t. induction links as [| link rest IH]; intros t; simpl.
  - eexists; reflexivity.
  - unfold CalculateScore.score_step.
    destruct (CalculateScore.link_question link) as [q |]; simpl; [| apply IH].
    destruct (server_classify_returns q (or_else (Map_get answers (question_id q)) JNull))
      as [b ->].
    simpl. apply IH.
Qed.

(** *** Links that do not resolve *)

Lemma report_loop_app (answers : gmap string value) (l1 l2 : list Link) (r : ReportData) :
  report_loop answers r (l1 ++ l2)
  = let* r' := report_loop answers r l1 in report_loop answers r' l2.
Proof.
  revert r. induction l1 as [| link rest IH]; intros r; simpl; [reflexivity |].
  destruct (report_step answers r link) as [r1 | e]; simpl; [apply IH | reflexivity].
Qed.

Lemma score_loop_app (answers : gmap string value) (l1 l2 : list Link)
    (t : CalculateScore.Totals) :
  CalculateScore.score_loop answers t (l1 ++ l2)
  = let* t' := CalculateScore.score_loop answers t l1 in
    CalculateScore.score_loop answers t' l2.
Proof.
  revert t. induction l1 as [| link rest IH]; intros t; simpl; [reflexivity |].
  destruct (CalculateScore.score_step answers t link) as [t1 | e]; simpl;
    [apply IH | reflexivity].
Qed.

(** C9. In both scoring paths a link whose joined question does not resolve
    is skipped: the report (all counters, all scores, the question list) and
    the server's score are what they are without the link, wherever it stands
    among the links. A link with no join, an empty join or a null first item
    resolves in neither path. *)
Theorem unresolved_links_are_skipped (name : string) (userAnswers : list AnswerRow)
    (before after : list Link) (link : Link) :
  (link_question link = None ->
   generateReport name userAnswers (before ++ link :: after)
   = generateReport name userAnswers (before ++ after))
  /\ (CalculateScore.link_question link = None ->
      CalculateScore.finalScore userAnswers (before ++ link :: after)
      = CalculateScore.finalScore userAnswers (before ++ after))
  /\ (Spec.unresolved link ->
      link_question link = None /\ CalculateScore.link_question link = None).
Proof.
  split; [| split].
  - intros Hnone. unfold generateReport. rewrite !report_loop_app.
    destruct (report_loop _ _ before) as [r |]; simpl; [| reflexivity].
    unfold report_step. rewrite Hnone. reflexivity.
  - intros Hnone. unfold CalculateScore.finalScore. rewrite !score_loop_app.
    destruct (CalculateScore.score_loop _ _ before) as [t |]; simpl; [| reflexivity].
    unfold CalculateScore.score_step. rewrite Hnone. reflexivity.
  - unfold Spec.unresolved, link_question, CalculateScore.link_question.
    intros [-> | [-> | [rest ->]]]; split; reflexivity.
Qed.

Lemma unresolved_links_are_skipped_witness :
  generateReport "Mock test" Examples.scenario_answers
    ([Examples.array_link 1 Examples.q1] ++ Examples.dangling_link
       :: [Examples.array_link 2 Examples.q2])
  = generateReport "Mock test" Examples.scenario_answers
      ([Examples.array_link 1 Examples.q1] ++ [Examples.array_link 2 Examples.q2])
  /\ CalculateScore.finalScore Examples.scenario_answers
       ([Examples.array_link 1 Examples.q1] ++ Examples.dangling_link
          :: [Examples.array_link 2 Examples.q2])
     = CalculateScore.finalScore Examples.scenario_answers
         ([Examples.array_link 1 Examples.q1] ++ [Examples.array_link 2 Examples.q2])
  /\ link_question Examples.dangling_link = None
  /\ CalculateScore.link_question Examples.dangling_link = None.
Proof.
  destruct (unresolved_links_are_skipped "Mock test" Examples.scenario_answers
              [Examples.array_link 1 Examples.q1] [Examples.array_link 2 Examples.q2]
              Examples.dangling_link) as [Hreport [Hserver Hboth]].
  split; [apply Hreport; reflexivity |].
  split; [apply Hserver; reflexivity |].
  apply Hboth. left. reflexivity.
Defined.


(** *** Falsy stored answers *)

Lemma looked_up_answer_not_empty (stored : value) :
  is_empty_string (or_else stored JNull) = false.
Proof.
  unfold or_else. destruct (truthy stored) eqn:Ht; [| reflexivity].
  destruct stored as [| | b | x | s | l | f | d]; try reflexivity.
  simpl in *. now destruct (String.eqb s "").
Qed.

Lemma looked_up_falsy (answers : gmap string value) (id : string) (stored : value) :
  answers !! id = Some stored -> truthy stored = false ->
  or_else (Map_get answers id) JNull = JNull.
Proof. intros Hid Hf. unfold or_else, Map_get. now rewrite Hid, Hf. Qed.

(** C10. In both scoring paths a stored answer that is falsy (the empty
    string, the number 0, false) is replaced by null when it is looked up,
    so its question is UNATTEMPTED: the report lists it with a null answer
    and counts it as unattempted, the server counts nothing, and the score
    does not move. A stored number 0 for a NUMERICAL question whose key is 0
    is therefore not judged, although the judge would accept it. *)
Theorem falsy_answers_count_as_unattempted :
  (forall (answers : gmap string value) (q : Question) (stored : value) (link : Link),
     answers !! question_id q = Some stored -> truthy stored = false ->
     (link_question link = Some q ->
      forall r, report_step answers r link
        = Normal
            (push_question
               {| qa_question_id := question_id q;
                  qa_question_number := question_number link;
                  qa_question_text := question_text q;
                  qa_subject := subject q;
                  qa_correct_answer := correct_answer q;
                  qa_solution_text := solution_text q;
                  qa_selected_answer := JNull;
                  qa_status := UNATTEMPTED |}
               (tally UNATTEMPTED (subject_key q) r)))
     /\ (CalculateScore.link_question link = Some q ->
         forall t, CalculateScore.score_step answers t link = Normal t))
  /\ truthy (JStr "") = false
  /\ truthy Examples.zero = false
  /\ truthy (JBool false) = false
  /\ marks UNATTEMPTED = 0
  /\ isAnswerCorrect "NUMERICAL" Examples.zero (JArr [Examples.zero]) = Normal true
  /\ totalUnattempted (Examples.report_of Examples.zero_answers Examples.zero_links) = 1
  /\ totalScore (Examples.report_of Examples.zero_answers Examples.zero_links) = 0
  /\ CalculateScore.finalScore Examples.zero_answers Examples.zero_links = Normal 0.
Proof.
  split.
  - intros answers q stored link Hid Hf. split.
    + intros Hq r. unfold report_step. rewrite Hq.
      rewrite (looked_up_falsy answers _ stored Hid Hf). reflexivity.
    + intros Hq t. unfold CalculateScore.score_step. rewrite Hq.
      rewrite (looked_up_falsy answers _ stored Hid Hf). reflexivity.
  - vm_compute. repeat split; reflexivity.
Qed.

Lemma falsy_answers_count_as_unattempted_witness :
  CalculateScore.score_step (answerMap Examples.zero_answers)
    {| CalculateScore.totalCorrect := 0; CalculateScore.totalIncorrect := 0 |}
    (Examples.array_link 1 Examples.q4)
  = Normal {| CalculateScore.totalCorrect := 0; CalculateScore.totalIncorrect := 0 |}.
Proof.
  destruct falsy_answers_count_as_unattempted as [Hstep _].
  destruct (Hstep (answerMap Examples.zero_answers) Examples.q4 Examples.zero
              (Examples.array_link 1 Examples.q4)) as [_ Hserver].
  - reflexivity.
  - reflexivity.
  - apply Hserver. reflexivity.
Defined.

(** *** The two paths side by side *)

(** On the answer that the lookup gives, the report and the server take the
    same branch. *)
Lemma classify_agree (q : Question) (stored : value) :
  classify q (or_else stored JNull)
  = let* b := CalculateScore.classify q (or_else stored JNull) in
    Normal (Spec.status_of_branch b).
Proof.
  unfold classify, CalculateScore.classify.
  rewrite looked_up_answer_not_empty, orb_false_r.
  destruct (is_null (or_else stored JNull)); [reflexivity |].
  change (CalculateScore.isAnswerCorrect (question_type q) (or_else stored JNull)
            (correct_answer q))
    with (isAnswerCorrect (question_type q) (or_else stored JNull) (correct_answer q)).
  destruct (isAnswerCorrect _ _ _) as [[|] | e]; reflexivity.
Qed.

Lemma link_question_agree (link : Link) :
  Spec.array_joined link -> CalculateScore.link_question link = link_question link.
Proof.
  unfold Spec.array_joined, CalculateScore.link_question, link_question.
  destruct (Questions link) as [| q | [| q rest]]; intros H; [| destruct H | |]; reflexivity.
Qed.

Lemma loops_agree (answers : gmap string value) (links : list Link) :
  Forall Spec.array_joined links ->
  forall (r : ReportData) (t : CalculateScore.Totals),
    CalculateScore.totalCorrect t = totalCorrect r ->
    CalculateScore.totalIncorrect t = totalIncorrect r ->
    match report_loop answers r links, CalculateScore.score_loop answers t links with
    | Normal r', Normal t' =>
        CalculateScore.totalCorrect t' = totalCorrect r'
        /\ CalculateScore.totalIncorrect t' = totalIncorrect r'
    | Throw e, Throw e' => e = e'
    | _, _ => False
    end.
Proof.
  induction 1 as [| link rest Hlink _ IH]; intros r t Hc Hi; simpl; [auto |].
  unfold report_step, CalculateScore.score_step.
  rewrite (link_question_agree link Hlink).
  destruct (link_question link) as [q |]; simpl; [| now apply IH].
  rewrite classify_agree.
  destruct (CalculateScore.classify q _) as [b | e]; simpl; [| reflexivity].
  apply IH; destruct b; simpl; lia.
Qed.



(** C1 (the code departs from the claim). On one and the same set of rows,
    an attempt whose single question link joins its question as an object
    and whose stored answer is the right one, the report skips the question
    (no question listed, nothing counted, total score 0) and the server
    counts it as correct (score 4). The two copies of the judge agree on
    every input. *)
Theorem object_join_scored_by_server_only :
  generateReport "Mock test" Examples.object_answers Examples.object_links
    = Normal (Examples.report_of Examples.object_answers Examples.object_links)
  /\ questions (Examples.report_of Examples.object_answers Examples.object_links) = nil
  /\ totalCorrect (Examples.report_of Examples.object_answers Examples.object_links) = 0
  /\ totalUnattempted (Examples.report_of Examples.object_answers Examples.object_links) = 0
  /\ totalScore (Examples.report_of Examples.object_answers Examples.object_links) = 0
  /\ CalculateScore.finalScore Examples.object_answers Examples.object_links = Normal 4
  /\ (forall qType selected correct,
        CalculateScore.isAnswerCorrect qType selected correct
        = isAnswerCorrect qType selected correct).
Proof.
  repeat split; vm_compute; reflexivity.
Qed.

End Scoring.

(** ** The test page *)

Section Page.
Import Js TestPage.
Local Open Scope list_scope.

Lemma run_effects_same_deps (fuel : nat) (c : bool) (before : State) (w : World) :
  timer_deps before = timer_deps (page w) ->
  run_effects fuel c before w = set_ref (testState (page w)) w.
Proof.
  intros Hd. destruct fuel; simpl; destruct (decide _) as [_ | Hn]; try reflexivity;
    now destruct Hn.
Qed.

Lemma submit_begin_page (by_timer c : bool) (w : World) :
  page (submit_begin by_timer c w)
  = if negb (isSubmitting (page w)) && c then apply_update (setIsSubmitting true) (page w)
    else page w.
Proof.
  unfold submit_begin, handleSubmitTest_begin. simpl.
  destruct (isSubmitting (page w)); [reflexivity |].
  destruct c; simpl; [| reflexivity].
  destruct (question_id_at _ _) as [qId | e]; simpl; [| reflexivity].
  destruct (saveAnswerToDB _ _); reflexivity.
Qed.

Lemma submit_begin_keeps (by_timer c : bool) (w : World) :
  interval (submit_begin by_timer c w) = interval w
  /\ db (submit_begin by_timer c w) = db w
  /\ testStateRef (submit_begin by_timer c w) = testStateRef w.
Proof.
  unfold submit_begin, handleSubmitTest_begin. simpl.
  destruct (isSubmitting (page w)); [auto |].
  destruct c; simpl; [| auto].
  destruct (question_id_at _ _) as [qId | e]; simpl; [| auto].
  destruct (saveAnswerToDB _ _); auto.
Qed.

Lemma submit_begin_awaiting (by_timer c : bool) (w : World) :
  (isSubmitting (page w) = false -> awaiting w = None) ->
  isSubmitting (page (submit_begin by_timer c w)) = false ->
  awaiting (submit_begin by_timer c w) = None.
Proof.
  intros Hw. unfold submit_begin, handleSubmitTest_begin. simpl.
  destruct (isSubmitting (page w)) eqn:Hs.
  { cbn. rewrite Hs. discriminate. }
  destruct c; simpl; [| intros; now apply Hw].
  destruct (question_id_at _ _) as [qId | e]; simpl; [| cbn; discriminate].
  destruct (saveAnswerToDB _ _); cbn; discriminate.
Qed.

(** The effects change nothing of the state but [isSubmitting]. *)
Lemma run_effects_page (fuel : nat) (c : bool) (before : State) (w : World) :
  exists b, page (run_effects fuel c before w) = apply_update (setIsSubmitting b) (page w).
Proof.
  revert before w. induction fuel as [| fuel IH]; intros before w; simpl.
  - exists (isSubmitting (page w)). destruct (decide _); destruct w as [[]]; reflexivity.
  - destruct (decide _).
    + exists (isSubmitting (page w)). destruct w as [[]]; reflexivity.
    + simpl. destruct (timerEffect (page w)).
      * exists (isSubmitting (page w)). destruct w as [[]]; reflexivity.
      * destruct (IH (page w) (submit_begin true c (set_interval false (set_ref (testState (page w)) w))))
          as [b Hb].
        rewrite Hb, submit_begin_page. simpl.
        destruct (negb (isSubmitting (page w)) && c).
        -- exists b. destruct w as [[]]; reflexivity.
        -- exists b. reflexivity.
      * exists (isSubmitting (page w)). destruct w as [[]]; reflexivity.
Qed.

Lemma run_effects_submitting (c : bool) (before : State) (w : World) :
  isSubmitting (page w) = true -> isSubmitting before = false ->
  run_effects 1 c before w = set_interval false (set_ref (testState (page w)) w).
Proof.
  intros Hw Hb. simpl.
  destruct (decide _) as [Heq | _].
  - unfold timer_deps in Heq. injection Heq as _ _ Heq. congruence.
  - unfold timerEffect. simpl. rewrite Hw, orb_true_r. reflexivity.
Qed.

Lemma run_effects_changed (fuel : nat) (c : bool) (before : State) (w : World) :
  timer_deps before <> timer_deps (page w) ->
  run_effects (S fuel) c before w
  = match timerEffect (page w) with
    | timer_idle => set_interval false (set_ref (testState (page w)) w)
    | timer_interval => set_interval true (set_interval false (set_ref (testState (page w)) w))
    | timer_submit =>
        run_effects fuel c (page w)
          (submit_begin true c (set_interval false (set_ref (testState (page w)) w)))
    end.
Proof.
  intros Hd. simpl. destruct (decide _) as [Heq | _]; [now destruct Hd | reflexivity].
Qed.

(** Two rounds of effects are all there are: with more fuel the outcome is
    the same. *)
Lemma run_effects_settles (n : nat) (c : bool) (before : State) (w : World) :
  run_effects (2 + n) c before w = run_effects 2 c before w.
Proof.
  destruct (decide (timer_deps before = timer_deps (page w))) as [Hd | Hd].
  { now rewrite !run_effects_same_deps. }
  change (2 + n)%nat with (S (1 + n)). rewrite !(run_effects_changed _ c before w Hd).
  destruct (timerEffect (page w)) eqn:Ht; try reflexivity.
  unfold timerEffect in Ht.
  destruct (loading (page w) || isSubmitting (page w)) eqn:Hg; [discriminate |].
  apply orb_false_elim in Hg as [_ Hs].
  set (w0 := set_interval false (set_ref (testState (page w)) w)).
  pose proof (submit_begin_page true c w0) as Hp.
  change (isSubmitting (page w0)) with (isSubmitting (page w)) in Hp.
  rewrite Hs in Hp. simpl negb in Hp. simpl andb in Hp.
  destruct c.
  - change (1 + n)%nat with (S n). rewrite (run_effects_submitting true (page w)).
    + destruct n as [| n].
      * now rewrite run_effects_submitting by (rewrite ?Hp; auto).
      * rewrite run_effects_changed.
        -- unfold timerEffect. rewrite Hp. simpl. now rewrite orb_true_r.
        -- rewrite Hp. unfold timer_deps. simpl. congruence.
    + rewrite Hp. reflexivity.
    + exact Hs.
  - rewrite !run_effects_same_deps by (rewrite Hp; reflexivity). reflexivity.
Qed.

#[local] Arguments run_effects : simpl never.

Ltac close_invariant :=
  split; simpl;
  repeat match goal with H : isSubmitting _ = _ |- _ => rewrite H end;
  auto; try discriminate.

Lemma run_effects_invariant (c : bool) (before : State) (w : World) :
  loading (page w) = false ->
  index_ok (page w) ->
  (isSubmitting (page w) = false -> awaiting w = None) ->
  (timer_deps before = timer_deps (page w) ->
   interval w = true -> timerEffect (page w) = timer_interval) ->
  invariant (run_effects 2 c before w).
Proof.
  intros Hl Hi Ha Ht.
  destruct (decide (timer_deps before = timer_deps (page w))) as [Hd | Hd].
  - rewrite (run_effects_same_deps 2 c before w Hd).
    split; simpl; auto.
  - rewrite (run_effects_changed 1 c before w Hd).
    destruct (timerEffect (page w)) eqn:Ht'.
    + close_invariant.
    + unfold timerEffect in Ht'. rewrite Hl in Ht'. simpl in Ht'.
      destruct (isSubmitting (page w)) eqn:Hs; [discriminate |].
      set (w0 := set_interval false (set_ref (testState (page w)) w)).
      assert (Hs0 : isSubmitting (page w0) = false) by exact Hs.
      pose proof (submit_begin_page true c w0) as Hp.
      destruct (submit_begin_keeps true c w0) as [Hint [_ Href]].
      pose proof (submit_begin_awaiting true c w0 (fun _ => Ha eq_refl)) as Haw.
      rewrite Hs0 in Hp. simpl negb in Hp. simpl andb in Hp.
      destruct c.
      * rewrite run_effects_submitting; [| rewrite Hp; reflexivity | exact Hs].
        split; simpl; rewrite ?Hp; simpl; auto; discriminate.
      * rewrite run_effects_same_deps by (rewrite Hp; reflexivity).
        split; simpl; rewrite ?Hp; simpl; auto.
        -- rewrite Hint. discriminate.
        -- intros _. apply Haw. rewrite Hp. exact Hs.
    + close_invariant.
Qed.


Lemma timerEffect_deps (s s' : State) :
  timer_deps s = timer_deps s' -> timerEffect s = timerEffect s'.
Proof.
  unfold timer_deps, timerEffect. intros [= -> -> ->]. reflexivity.
Qed.

Lemma apply_updates_quiet (us : list Update) (s : State) :
  Forall quiet us ->
  questions (apply_updates us s) = questions s
  /\ timer_deps (apply_updates us s) = timer_deps s.
Proof.
  intros Hq. revert s. induction Hq as [| u us Hu _ IH]; intros s; simpl; [auto |].
  destruct (IH (apply_update u s)) as [-> ->].
  destruct u; simpl in Hu; try destruct Hu; auto.
Qed.

Lemma item_in_range {A : Type} (l : list A) (i : Z) :
  0 <= i < Z.of_nat (length l) -> exists x, item l i = Some x.
Proof.
  intros [Hlo Hhi]. unfold item.
  destruct (i <? 0) eqn:Hneg; [lia |].
  destruct (lookup_lt_is_Some_2 l (Z.to_nat i)) as [x Hx]; [lia |].
  exists x. exact Hx.
Qed.

Lemma item_range {A : Type} (l : list A) (i : Z) (x : A) :
  item l i = Some x -> 0 <= i < Z.of_nat (length l).
Proof.
  unfold item. destruct (i <? 0) eqn:Hneg; [discriminate |].
  intros Hx. apply lookup_lt_Some in Hx. lia.
Qed.

(** With a question to go to, the current index points at a question. *)
Lemma current_question (s : State) (i : Z) (target : Question) :
  index_ok s -> item (questions s) i = Some target ->
  exists old, item (questions s) (currentQuestionIndex s) = Some old.
Proof.
  intros [Hlo Hhi] Ht. apply item_range in Ht. apply item_in_range.
  split; [exact Hlo |]. apply Hhi. intros Hnil. rewrite Hnil in Ht. simpl in Ht. lia.
Qed.

(** What a navigation to a question other than the current one does. *)
Lemma navigateToQuestion_moves (s : State) (ref : gmap string QuestionState) (newIndex : Z)
    (old target : Question) :
  item (questions s) (currentQuestionIndex s) = Some old ->
  item (questions s) newIndex = Some target ->
  newIndex <> currentQuestionIndex s ->
  navigateToQuestion s ref newIndex
  = Normal
      {| requests := option_list (saveAnswerToDB ref (question_id old));
         updates :=
           (if decide (status (getQuestionState s (question_id target)) = not_visited) then
              [setTestState (fun prevState =>
                 <[question_id target :=
                     with_status unanswered (getQuestionState s (question_id target))]>
                   prevState)]
            else []) ++ [setCurrentQuestionIndex newIndex] |}.
Proof.
  intros Hold Htarget Hne. unfold navigateToQuestion, question_id_at.
  pose proof (item_range _ _ _ Htarget) as [Hlo Hhi].
  replace (newIndex <? 0) with false by (symmetry; apply Z.ltb_ge; lia).
  replace (Z.of_nat (length (questions s)) <=? newIndex) with false
    by (symmetry; apply Z.leb_gt; lia).
  replace (newIndex =? currentQuestionIndex s) with false
    by (symmetry; apply Z.eqb_neq; exact Hne).
  simpl. rewrite Hold, Htarget. reflexivity.
Qed.

(** A navigation that goes nowhere does nothing. *)
Lemma navigateToQuestion_stays (s : State) (ref : gmap string QuestionState) (newIndex : Z) :
  item (questions s) newIndex = None \/ newIndex = currentQuestionIndex s ->
  navigateToQuestion s ref newIndex = Normal no_effects.
Proof.
  intros Hcase. unfold navigateToQuestion.
  destruct (newIndex <? 0) eqn:Hneg; [reflexivity |].
  destruct (Z.of_nat (length (questions s)) <=? newIndex) eqn:Hbig; [reflexivity |].
  destruct (newIndex =? currentQuestionIndex s) eqn:Heq; [reflexivity |].
  exfalso. destruct Hcase as [Hnone | Hsame].
  - destruct (item_in_range (questions s) newIndex) as [x Hx]; [lia | congruence].
  - apply Z.eqb_neq in Heq. contradiction.
Qed.

Lemma apply_updates_position (us : list Update) (s1 s2 : State) :
  currentQuestionIndex s1 = currentQuestionIndex s2 ->
  questions s1 = questions s2 ->
  currentQuestionIndex (apply_updates us s1) = currentQuestionIndex (apply_updates us s2)
  /\ questions (apply_updates us s1) = questions (apply_updates us s2).
Proof.
  revert s1 s2. induction us as [| u us IH]; intros s1 s2 Hi Hq; [auto |].
  change (apply_updates (u :: us) ?s) with (apply_updates us (apply_update u s)).
  apply IH; destruct u; simpl; auto.
Qed.

Lemma navigateToQuestion_tame (s : State) (ref : gmap string QuestionState) (newIndex : Z)
    (eff : Effects) :
  index_ok s ->
  navigateToQuestion s ref newIndex = Normal eff ->
  Forall quiet (updates eff) /\ index_ok (apply_updates (updates eff) s).
Proof.
  intros Hok Hnav.
  destruct (item (questions s) newIndex) as [target |] eqn:Htarget.
  2:{ rewrite navigateToQuestion_stays in Hnav by auto.
      injection Hnav as <-. split; [constructor | exact Hok]. }
  destruct (decide (newIndex = currentQuestionIndex s)) as [Heq | Hne].
  { rewrite navigateToQuestion_stays in Hnav by auto.
    injection Hnav as <-. split; [constructor | exact Hok]. }
  destruct (current_question s newIndex target Hok Htarget) as [old Hold].
  rewrite (navigateToQuestion_moves s ref newIndex old target Hold Htarget Hne) in Hnav.
  injection Hnav as <-. simpl.
  pose proof (item_range _ _ _ Htarget) as [Hlo Hhi].
  destruct (decide _); simpl; (split; [repeat constructor | split; simpl; lia]).
Qed.

Lemma dispatch_invariant (now : Z) (save_failed c : bool) (h : completion Effects) (w : World) :
  invariant w ->
  (forall eff, h = Normal eff ->
     Forall quiet (updates eff) /\ index_ok (apply_updates (updates eff) (page w))) ->
  invariant (dispatch now save_failed c h w).
Proof.
  intros [Hl Hint Href Haw Hidx] Htame. unfold dispatch.
  destruct h as [eff | e].
  2:{ split; simpl; auto. }
  destruct (Htame eff eq_refl) as [Hq Hok].
  destruct (apply_updates_quiet (updates eff) (page w) Hq) as [Hqs Hdeps].
  unfold commit. apply run_effects_invariant; simpl.
  - unfold timer_deps in Hdeps. injection Hdeps as _ Hload _. congruence.
  - exact Hok.
  - unfold timer_deps in Hdeps. injection Hdeps as _ _ Hsub. rewrite Hsub.
    destruct save_failed; simpl; exact Haw.
  - intros _ Hi. rewrite (timerEffect_deps _ _ Hdeps). apply Hint.
    destruct save_failed; simpl in Hi; exact Hi.
Qed.

Lemma current_handler_tame (s : State) (eff : Effects)
    (f : gmap string QuestionState -> gmap string QuestionState) :
  index_ok s -> eff = {| requests := nil; updates := [setTestState f] |} ->
  Forall quiet (updates eff) /\ index_ok (apply_updates (updates eff) s).
Proof. intros Hok ->. simpl. split; [repeat constructor | exact Hok]. Qed.

(** Every event keeps the invariant. *)
Lemma step_invariant (now : Z) (c : bool) (i : Input) (w : World) :
  invariant w -> invariant (step now c i w).
Proof.
  intros Hw. pose proof Hw as [Hl Hint Href Haw Hidx].
  destruct i as [| | failed | failed | index sf | sf | sf | | v]; simpl.
  - (* tick *)
    destruct (interval w) eqn:Hi; [| exact Hw].
    unfold commit. apply run_effects_invariant; simpl; auto.
    intros Hd. unfold timer_deps in Hd. simpl in Hd. injection Hd as Hd. lia.
  - (* click_submit *)
    destruct (isSubmitting (page w)) eqn:Hs; [exact Hw |].
    pose proof (submit_begin_page false c w) as Hp.
    destruct (submit_begin_keeps false c w) as [Hi' _].
    rewrite Hs in Hp. simpl in Hp.
    apply run_effects_invariant.
    + rewrite Hp. destruct c; simpl; exact Hl.
    + rewrite Hp. destruct c; simpl; exact Hidx.
    + apply submit_begin_awaiting. rewrite Hs. exact Haw.
    + rewrite Hp, Hi'. destruct c; simpl.
      * intros Hd. unfold timer_deps in Hd. simpl in Hd. congruence.
      * intros _. exact Hint.
  - (* save_settled *)
    destruct (awaiting w) as [[r |] |] eqn:Ha; try exact Hw.
    assert (Hs : isSubmitting (page w) = true).
    { destruct (isSubmitting (page w)); [reflexivity |]. specialize (Haw eq_refl). congruence. }
    destruct failed; split; simpl; auto; rewrite Hs; discriminate.
  - (* update_settled *)
    destruct (awaiting w) as [[r |] |] eqn:Ha; try exact Hw.
    unfold commit. destruct failed; simpl; apply run_effects_invariant; simpl; auto.
    intros Hd. unfold timer_deps in Hd. simpl in Hd. injection Hd as Hs.
    specialize (Haw Hs). discriminate.
  - apply dispatch_invariant; [exact Hw |]. intros eff. unfold jumpToQuestion.
    now apply navigateToQuestion_tame.
  - apply dispatch_invariant; [exact Hw |]. intros eff. unfold handleSaveAndNext.
    now apply navigateToQuestion_tame.
  - apply dispatch_invariant; [exact Hw |]. intros eff. unfold handleMarkForReview.
    destruct (question_id_at _ _) as [qId | e]; simpl; [| discriminate].
    destruct (navigateToQuestion _ _ _) as [nav | e] eqn:Hnav; simpl; [| discriminate].
    intros [= <-].
    destruct (navigateToQuestion_tame _ _ _ _ Hidx Hnav) as [Hq Hok].
    split; [constructor; [exact I | exact Hq] |].
    cbn [updates]. change (apply_updates (?u :: ?us) ?s)
      with (apply_updates us (apply_update u s)).
    unfold index_ok in *.
    destruct (apply_updates_position (updates nav)
                (apply_update
                   (setTestState (fun prevState =>
                      <[qId := with_status marked_for_review
                                 (default (getQuestionState (page w) qId) (prevState !! qId))]>
                        prevState)) (page w))
                (page w) eq_refl eq_refl) as [-> ->].
    exact Hok.
  - apply dispatch_invariant; [exact Hw |]. intros eff. unfold handleClearResponse.
    destruct (question_id_at _ _) as [qId | e]; simpl; [| discriminate].
    intros [= <-]. eapply current_handler_tame; [exact Hidx | reflexivity].
  - apply dispatch_invariant; [exact Hw |]. intros eff. unfold handleAnswerChange.
    destruct (question_id_at _ _) as [qId | e]; simpl; [| discriminate].
    intros [= <-]. eapply current_handler_tame; [exact Hidx | reflexivity].
Qed.

Lemma loaded_invariant (c : bool) (fetchedQuestions : list Question) (duration : Z)
    (d : Database) :
  invariant (loaded c fetchedQuestions duration d).
Proof.
  unfold loaded, commit. apply run_effects_invariant; simpl; auto.
  - split; simpl; [lia |]. destruct fetchedQuestions; [congruence | simpl; lia].
  - intros Hd. unfold timer_deps in Hd. simpl in Hd. congruence.
Qed.

Lemma reachable_invariant (w : World) : reachable w -> invariant w.
Proof.
  induction 1 as [c qs duration d | now c i w _ IH].
  - apply loaded_invariant.
  - now apply step_invariant.
Qed.


(** *** Navigation and answers *)

Lemma run_effects_same_page (c : bool) (s : State) (w : World) :
  timer_deps s = timer_deps (page w) ->
  commit c s w = set_ref (testState s) (set_page s w).
Proof.
  intros Hd. unfold commit. rewrite run_effects_same_deps; [reflexivity |].
  simpl. congruence.
Qed.

Lemma dispatch_quiet (now : Z) (save_failed c : bool) (eff : Effects) (w : World) :
  Forall quiet (updates eff) ->
  page (dispatch now save_failed c (Normal eff) w) = apply_updates (updates eff) (page w)
  /\ awaiting (dispatch now save_failed c (Normal eff) w) = awaiting w
  /\ interval (dispatch now save_failed c (Normal eff) w) = interval w.
Proof.
  intros Hq. unfold dispatch.
  destruct (apply_updates_quiet (updates eff) (page w) Hq) as [_ Hd].
  rewrite run_effects_same_page by (destruct save_failed; simpl; exact Hd).
  destruct save_failed; simpl; auto.
Qed.

Lemma getQuestionState_default (s : State) (qId : string) :
  default (getQuestionState s qId) (testState s !! qId) = getQuestionState s qId.
Proof. unfold getQuestionState. now destruct (testState s !! qId). Qed.

Lemma is_null_iff (v : value) : is_null v = true <-> v = JNull.
Proof. destruct v; simpl; split; congruence. Qed.

Lemma is_empty_string_iff (v : value) : is_empty_string v = true <-> v = JStr "".
Proof.
  destruct v as [| | b | x | s | l | f | d]; simpl; split; try congruence.
  - intros H. apply String.eqb_eq in H. now subst.
  - intros [= ->]. reflexivity.
Qed.

Lemma insert_visited (m : gmap string QuestionState) (k qId : string) (st : QuestionState) :
  status st <> not_visited -> visited m qId -> visited (<[k:=st]> m) qId.
Proof.
  intros Hst [old [Hold Hv]]. unfold visited.
  destruct (decide (k = qId)) as [-> | Hne].
  - exists st. now rewrite lookup_insert_eq.
  - exists old. now rewrite lookup_insert_ne.
Qed.

Lemma apply_updates_visited (us : list Update) (s : State) (qId : string) :
  Forall keeps_visited us ->
  visited (testState s) qId -> visited (testState (apply_updates us s)) qId.
Proof.
  intros Hus. revert s. induction Hus as [| u us Hu _ IH]; intros s Hv; [exact Hv |].
  change (apply_updates (u :: us) s) with (apply_updates us (apply_update u s)).
  apply IH. destruct u; simpl; auto.
Qed.

Lemma navigateToQuestion_keeps_visited (s : State) (ref : gmap string QuestionState)
    (newIndex : Z) (eff : Effects) :
  navigateToQuestion s ref newIndex = Normal eff -> Forall keeps_visited (updates eff).
Proof.
  unfold navigateToQuestion.
  destruct (_ || _ || _); [intros [= <-]; constructor |].
  destruct (question_id_at _ (currentQuestionIndex s)) as [oldQId | e]; simpl; [| discriminate].
  destruct (question_id_at _ newIndex) as [newQId | e]; simpl; [| discriminate].
  intros [= <-]. simpl.
  destruct (decide _); repeat constructor.
  intros m qId. apply insert_visited. simpl. discriminate.
Qed.

(** No event sends a question back to [not_visited]. *)
Lemma step_visited (now : Z) (c : bool) (i : Input) (w : World) (qId : string) :
  visited (testState (page w)) qId -> visited (testState (page (step now c i w))) qId.
Proof.
  intros Hv.
  assert (Heff : forall before w1, testState (page w1) = testState (page w) ->
                   visited (testState (page (run_effects 2 c before w1))) qId).
  { intros before w1 Hw1. destruct (run_effects_page 2 c before w1) as [b ->].
    simpl. now rewrite Hw1. }
  assert (Hdis : forall sf h,
            (forall eff, h = Normal eff -> Forall keeps_visited (updates eff)) ->
            visited (testState (page (dispatch now sf c h w))) qId).
  { intros sf h Hh. unfold dispatch. destruct h as [eff | e]; [| exact Hv].
    unfold commit.
    match goal with |- context [run_effects 2 c ?b ?w1] =>
      destruct (run_effects_page 2 c b w1) as [x ->] end.
    simpl. apply apply_updates_visited; [now apply Hh | exact Hv]. }
  destruct i as [| | failed | failed | index sf | sf | sf | | v]; cbn [step].
  - destruct (interval w); [| exact Hv]. unfold commit. apply Heff. reflexivity.
  - destruct (isSubmitting (page w)); [exact Hv |]. apply Heff.
    rewrite submit_begin_page. now destruct (negb _ && c).
  - destruct (awaiting w) as [[r |] |]; try exact Hv. destruct failed; exact Hv.
  - destruct (awaiting w) as [[r |] |]; try exact Hv.
    unfold commit. destruct failed; simpl; apply Heff; reflexivity.
  - apply Hdis. intros eff. apply navigateToQuestion_keeps_visited.
  - apply Hdis. intros eff. apply navigateToQuestion_keeps_visited.
  - apply Hdis. intros eff. unfold handleMarkForReview.
    destruct (question_id_at _ _) as [k | e]; simpl; [| discriminate].
    destruct (navigateToQuestion _ _ _) as [nav | e] eqn:Hnav; simpl; [| discriminate].
    intros [= <-]. simpl. constructor.
    + intros m q. apply insert_visited. simpl. discriminate.
    + eapply navigateToQuestion_keeps_visited, Hnav.
  - apply Hdis. intros eff. unfold handleClearResponse.
    destruct (question_id_at _ _) as [k | e]; simpl; [| discriminate].
    intros [= <-]. simpl. repeat constructor.
    intros m q. apply insert_visited. simpl. discriminate.
  - apply Hdis. intros eff. unfold handleAnswerChange.
    destruct (question_id_at _ _) as [k | e]; simpl; [| discriminate].
    intros [= <-]. simpl. repeat constructor.
    intros m q. apply insert_visited. simpl. destruct (_ && _); discriminate.
Qed.

Lemma run_visited (events : list (Z * bool * Input)) (w : World) (qId : string) :
  visited (testState (page w)) qId -> visited (testState (page (run events w))) qId.
Proof.
  revert w. induction events as [| [[now c] i] rest IH]; intros w Hv; [exact Hv |].
  simpl. apply IH. now apply step_visited.
Qed.

Lemma reachable_run (events : list (Z * bool * Input)) (w : World) :
  reachable w -> reachable (run events w).
Proof.
  revert w. induction events as [| [[now c] i] rest IH]; intros w Hw; [exact Hw |].
  simpl. apply IH. now constructor.
Qed.

Lemma visited_status (s : State) (qId : string) :
  visited (testState s) qId <-> status (getQuestionState s qId) <> not_visited.
Proof.
  unfold visited, getQuestionState. split.
  - intros [st [-> Hst]]. exact Hst.
  - destruct (testState s !! qId) as [st |]; simpl; [eauto | congruence].
Qed.

(** C7. In every state the page can reach, going to a question in range
    other than the current one makes it the current question; if its status
    was not_visited it becomes unanswered (answer and time kept), and if its
    status was anything else the question states are left as they were; no
    other question changes. From then on no event ever gives the question the
    status not_visited again, so it is promoted once. *)
Theorem navigation_promotes_not_visited_once (w : World) (now : Z) (c save_failed : bool)
    (index : Z) (target : Question) :
  reachable w ->
  item (questions (page w)) index = Some target ->
  index <> currentQuestionIndex (page w) ->
  let before := getQuestionState (page w) (question_id target) in
  let w' := step now c (click_palette index save_failed) w in
  currentQuestionIndex (page w') = index
  /\ (status before = not_visited ->
      testState (page w')
      = <[question_id target := with_status unanswered before]> (testState (page w)))
  /\ (status before <> not_visited -> testState (page w') = testState (page w))
  /\ (forall qId, qId <> question_id target ->
        testState (page w') !! qId = testState (page w) !! qId)
  /\ (forall events,
        status (getQuestionState (page (run events w')) (question_id target)) <> not_visited).
Proof.
  intros Hreach Htarget Hne before w'.
  pose proof (reachable_invariant w Hreach) as [_ _ _ _ Hidx].
  destruct (current_question (page w) index target Hidx Htarget) as [old Hold].
  assert (Hpage : page w' = apply_updates
            ((if decide (status before = not_visited) then
                [setTestState (fun prevState =>
                   <[question_id target := with_status unanswered before]> prevState)]
              else []) ++ [setCurrentQuestionIndex index]) (page w)).
  { subst w'. cbn [step]. unfold jumpToQuestion.
    rewrite (navigateToQuestion_moves (page w) (testStateRef w) index old target
               Hold Htarget Hne).
    apply dispatch_quiet. simpl. destruct (decide _); repeat constructor. }
  assert (Hstate : testState (page w')
                   = if decide (status before = not_visited)
                     then <[question_id target := with_status unanswered before]>
                            (testState (page w))
                     else testState (page w)).
  { rewrite Hpage. destruct (decide _); reflexivity. }
  assert (Hafter : status (getQuestionState (page w') (question_id target)) <> not_visited).
  { unfold getQuestionState. rewrite Hstate. destruct (decide _) as [Hnv | Hv].
    - rewrite lookup_insert_eq. simpl. discriminate.
    - exact Hv. }
  split; [| split; [| split; [| split]]].
  - rewrite Hpage. destruct (decide _); reflexivity.
  - intros Hnv. rewrite Hstate. destruct (decide _); [reflexivity | contradiction].
  - intros Hv. rewrite Hstate. destruct (decide _); [contradiction | reflexivity].
  - intros qId Hq. rewrite Hstate. destruct (decide _); [| reflexivity].
    now rewrite lookup_insert_ne.
  - intros events. apply visited_status, run_visited, visited_status. exact Hafter.
Qed.

Lemma navigation_promotes_not_visited_once_witness :
  currentQuestionIndex
    (page (step 5 true (click_palette 1 false) Examples.fresh_page)) = 1
  /\ status
       (getQuestionState (page (step 5 true (click_palette 1 false) Examples.fresh_page))
          "q3") = unanswered.
Proof.
  destruct (navigation_promotes_not_visited_once Examples.fresh_page 5 true false 1
              {| question_id := "q3"; question_type := "NUMERICAL"; question_number := 2 |})
    as [Hindex [Hpromoted _]].
  - apply reachable_loaded.
  - reflexivity.
  - discriminate.
  - split; [exact Hindex |].
    unfold getQuestionState. rewrite Hpromoted by reflexivity.
    rewrite lookup_insert_eq. reflexivity.
Defined.

(** C8. Changing the answer of the current question stores the value as its
    selected answer and sets its status to answered when the value is neither
    null nor the empty string, and to unanswered when it is one of them;
    whatever the status was before, marked_for_review included, it is not
    marked_for_review afterwards. No other question changes, the page stays
    on the question and nothing is saved. *)
Theorem answer_change_overwrites_status (w : World) (now : Z) (c : bool)
    (selectedOption : value) (current : Question) :
  item (questions (page w)) (currentQuestionIndex (page w)) = Some current ->
  let before := getQuestionState (page w) (question_id current) in
  let w' := step now c (change_answer selectedOption) w in
  let after := getQuestionState (page w') (question_id current) in
  testState (page w') !! question_id current = Some after
  /\ selected_answer after = selectedOption
  /\ (selectedOption <> JNull -> selectedOption <> JStr "" -> status after = answered)
  /\ (selectedOption = JNull \/ selectedOption = JStr "" -> status after = unanswered)
  /\ status after <> marked_for_review
  /\ time_taken_sec after = time_taken_sec before
  /\ (forall qId, qId <> question_id current ->
        testState (page w') !! qId = testState (page w) !! qId)
  /\ currentQuestionIndex (page w') = currentQuestionIndex (page w)
  /\ db w' = db w.
Proof.
  intros Hcur before w' after.
  assert (Hh : handleAnswerChange (page w) selectedOption
               = Normal
                   {| requests := nil;
                      updates :=
                        [setTestState (fun prevState =>
                           let oldQState :=
                             default (getQuestionState (page w) (question_id current))
                               (prevState !! question_id current) in
                           <[question_id current :=
                               {| status :=
                                    if negb (is_null selectedOption)
                                       && negb (is_empty_string selectedOption)
                                    then answered else unanswered;
                                  selected_answer := selectedOption;
                                  time_taken_sec := time_taken_sec oldQState |}]>
                             prevState)] |}).
  { unfold handleAnswerChange, question_id_at. rewrite Hcur. reflexivity. }
  assert (Hstate : testState (page w')
                   = <[question_id current :=
                         {| status :=
                              if negb (is_null selectedOption)
                                 && negb (is_empty_string selectedOption)
                              then answered else unanswered;
                            selected_answer := selectedOption;
                            time_taken_sec := time_taken_sec before |}]>
                       (testState (page w))).
  { subst w'. cbn [step]. rewrite Hh.
    destruct (dispatch_quiet now false c
                {| requests := nil;
                   updates :=
                     [setTestState (fun prevState =>
                        let oldQState :=
                          default (getQuestionState (page w) (question_id current))
                            (prevState !! question_id current) in
                        <[question_id current :=
                            {| status :=
                                 if negb (is_null selectedOption)
                                    && negb (is_empty_string selectedOption)
                                 then answered else unanswered;
                               selected_answer := selectedOption;
                               time_taken_sec := time_taken_sec oldQState |}]>
                          prevState)] |} w) as [-> _]; [repeat constructor |].
    simpl. now rewrite getQuestionState_default. }
  assert (Hafter : after
                   = {| status :=
                          if negb (is_null selectedOption)
                             && negb (is_empty_string selectedOption)
                          then answered else unanswered;
                        selected_answer := selectedOption;
                        time_taken_sec := time_taken_sec before |}).
  { subst after. unfold getQuestionState. rewrite Hstate, lookup_insert_eq. reflexivity. }
  split; [| split; [| split; [| split; [| split; [| split; [| split; [| split]]]]]]].
  - rewrite Hafter, Hstate. apply lookup_insert_eq.
  - rewrite Hafter. reflexivity.
  - intros Hn He. rewrite Hafter. simpl.
    destruct (is_null selectedOption) eqn:E1; [now apply is_null_iff in E1 |].
    destruct (is_empty_string selectedOption) eqn:E2;
      [now apply is_empty_string_iff in E2 | reflexivity].
  - intros [-> | ->]; rewrite Hafter; reflexivity.
  - rewrite Hafter. simpl. destruct (_ && _); discriminate.
  - rewrite Hafter. reflexivity.
  - intros qId Hq. rewrite Hstate. now rewrite lookup_insert_ne.
  - subst w'. cbn [step]. rewrite Hh.
    match goal with |- context [dispatch _ _ _ (Normal ?e) _] =>
      destruct (dispatch_quiet now false c e w) as [-> _]; [repeat constructor |] end.
    reflexivity.
  - subst w'. cbn [step]. rewrite Hh. unfold dispatch.
    rewrite run_effects_same_page by reflexivity. reflexivity.
Qed.


(** *** Submission and the timer *)

Lemma submit_begin_shown (by_timer c : bool) (w : World) :
  exists later, shown (submit_begin by_timer c w)
                = shown w ++ [called_handleSubmitTest by_timer] ++ later.
Proof.
  unfold submit_begin, handleSubmitTest_begin. cbn [page show].
  destruct (isSubmitting (page w)); [exists nil; reflexivity |].
  destruct c; cbn [negb]; [| exists [confirm_dialog]; simpl; now rewrite <- app_assoc].
  destruct (question_id_at _ _) as [qId | e]; cbn [bind].
  - exists [confirm_dialog]. destruct (saveAnswerToDB _ _); simpl; now rewrite <- app_assoc.
  - exists [confirm_dialog; uncaught e]. simpl. now rewrite <- !app_assoc.
Qed.

Lemma submit_calls_app (b : bool) (w : World) (l : list Ui) (n : nat) :
  length (List.filter (is_submit_call b) l) = n ->
  forall w', shown w' = shown w ++ l -> submit_calls b w' = (submit_calls b w + n)%nat.
Proof.
  intros Hl w' Hw'. unfold submit_calls. rewrite Hw', List.filter_app, length_app.
  now rewrite Hl.
Qed.

(** A call that passes the guard is counted once, for its caller. *)
Lemma submit_begin_calls (by_timer c b : bool) (w : World) :
  isSubmitting (page w) = false ->
  submit_calls b (submit_begin by_timer c w)
  = (submit_calls b w + (if Bool.eqb by_timer b then 1 else 0))%nat.
Proof.
  intros Hs. unfold submit_begin, handleSubmitTest_begin. cbn [page show]. rewrite Hs.
  destruct c; cbn [negb].
  - destruct (question_id_at _ _) as [qId | e]; cbn [bind];
      [destruct (saveAnswerToDB _ _) |];
      unfold submit_calls; simpl;
      rewrite ?List.filter_app, ?length_app; simpl;
      destruct (Bool.eqb by_timer b); simpl; lia.
  - unfold submit_calls; simpl;
      rewrite ?List.filter_app, ?length_app; simpl;
      destruct (Bool.eqb by_timer b); simpl; lia.
Qed.

Lemma awaiting_submitting (w : World) (a : Awaiting) :
  invariant w -> awaiting w = Some a -> isSubmitting (page w) = true.
Proof.
  intros [_ _ _ Haw _] Ha. destruct (isSubmitting (page w)); [reflexivity |].
  rewrite Haw in Ha by reflexivity. discriminate.
Qed.

Lemma interval_running (w : World) :
  invariant w -> interval w = true ->
  isSubmitting (page w) = false /\ 0 < timeLeft (page w).
Proof.
  intros [Hl Hint _ _ _] Hi. specialize (Hint Hi). unfold timerEffect in Hint.
  rewrite Hl in Hint. simpl in Hint.
  destruct (isSubmitting (page w)); [discriminate |].
  destruct (timeLeft (page w) <=? 0) eqn:Hz; [discriminate |].
  apply Z.leb_gt in Hz. auto.
Qed.

(** The effects that follow a commit in which the countdown is at zero or
    below and nothing is being submitted: one call of [handleSubmitTest] by
    the timer, and no interval. *)
Lemma run_effects_expired (c : bool) (before : State) (w : World) :
  timer_deps before <> timer_deps (page w) ->
  loading (page w) = false -> isSubmitting (page w) = false -> timeLeft (page w) <= 0 ->
  let w' := run_effects 2 c before w in
  page w' = (if c then apply_update (setIsSubmitting true) (page w) else page w)
  /\ interval w' = false
  /\ db w' = db w
  /\ submit_calls true w' = S (submit_calls true w)
  /\ submit_calls false w' = submit_calls false w
  /\ (exists later, shown w' = shown w ++ [called_handleSubmitTest true] ++ later).
Proof.
  intros Hd Hl Hs Hz w'. subst w'.
  rewrite (run_effects_changed 1 c before w Hd).
  unfold timerEffect. rewrite Hl, Hs. simpl orb. cbv iota.
  replace (timeLeft (page w) <=? 0) with true by (symmetry; apply Z.leb_le; exact Hz).
  set (w0 := set_interval false (set_ref (testState (page w)) w)).
  assert (Hs0 : isSubmitting (page w0) = false) by exact Hs.
  pose proof (submit_begin_page true c w0) as Hp.
  destruct (submit_begin_keeps true c w0) as [Hint [Hdb Href]].
  pose proof (submit_begin_calls true c true w0 Hs0) as Hct.
  pose proof (submit_begin_calls true c false w0 Hs0) as Hcf.
  destruct (submit_begin_shown true c w0) as [later Hshown].
  rewrite Hs0 in Hp. simpl negb in Hp. simpl andb in Hp.
  assert (Hrun : run_effects 1 c (page w) (submit_begin true c w0)
                 = (if c then set_interval false else fun x => x)
                     (set_ref (testState (page w)) (submit_begin true c w0))).
  { destruct c.
    - rewrite run_effects_submitting; [| rewrite Hp; reflexivity | exact Hs].
      rewrite Hp. reflexivity.
    - rewrite run_effects_same_deps by (rewrite Hp; reflexivity).
      rewrite Hp. reflexivity. }
  rewrite Hrun.
  repeat split.
  - destruct c; simpl; rewrite Hp; reflexivity.
  - destruct c; simpl; [reflexivity | exact Hint].
  - destruct c; simpl; exact Hdb.
  - destruct c; unfold submit_calls in *; simpl in *; rewrite Hct; lia.
  - destruct c; unfold submit_calls in *; simpl in *; rewrite Hcf; lia.
  - exists later. destruct c; simpl; exact Hshown.
Qed.

(** C6, as the code has it. In every state the page can reach: when the
    update of the attempt's status and end_time fails, the store is left as
    it was (the attempt keeps its status), the error is logged and shown in
    an alert, and isSubmitting is set back to false; with time left the page
    is idle again and the countdown resumes, and at timeLeft <= 0 the timer
    effect asks again at once, so that isSubmitting ends as the user's
    answer. A failure of the final save of the active question is only
    logged: the call goes on to the update, and when the update succeeds the
    attempt is COMPLETED and the page moves to the report. *)
Theorem failed_update_rolls_back_submission (w : World) (now : Z) (c : bool) :
  reachable w ->
  (awaiting w = Some awaiting_update ->
   let w' := step now c (update_settled true) w in
   db w' = db w
   /\ (exists later,
         shown w' = shown w ++ [console_error_submit; alert_submit_error] ++ later)
   /\ isSubmitting (page w') = (timeLeft (page w) <=? 0) && c
   /\ (0 < timeLeft (page w) ->
       awaiting w' = None /\ interval w' = true
       /\ shown w' = shown w ++ [console_error_submit; alert_submit_error]))
  /\ (forall r, awaiting w = Some (awaiting_save r) ->
        let w' := step now c (save_settled true) w in
        db w' = db w /\ page w' = page w /\ awaiting w' = Some awaiting_update
        /\ shown w' = shown w ++ [console_error_save])
  /\ (awaiting w = Some awaiting_update ->
      let w' := step now c (update_settled false) w in
      attempt_status (db w') = COMPLETED
      /\ end_time (db w') = Some now
      /\ responses (db w') = responses (db w)
      /\ shown w' = shown w ++ [router_push_report]
      /\ isSubmitting (page w') = true).
Proof.
  intros Hreach. pose proof (reachable_invariant w Hreach) as Hinv.
  pose proof Hinv as [Hl _ _ _ _].
  split; [| split].
  - intros Ha w'. subst w'. cbn [step]. rewrite Ha. cbn [handleSubmitTest_end].
    pose proof (awaiting_submitting w _ Hinv Ha) as Hs.
    unfold commit.
    set (s := apply_updates [setIsSubmitting false] (page w)).
    set (w1 := set_page s (set_awaiting None
                 (show [console_error_submit; alert_submit_error] w))).
    assert (Hd : timer_deps (page (set_awaiting None
                   (show [console_error_submit; alert_submit_error] w)))
                 <> timer_deps (page w1)).
    { unfold timer_deps. simpl. rewrite Hs. congruence. }
    destruct (Z.leb_spec (timeLeft (page w)) 0) as [Hz | Hz].
    + destruct (run_effects_expired c _ w1 Hd Hl eq_refl Hz)
        as [Hp [_ [Hdb [_ [_ [later Hshown]]]]]].
      split; [exact Hdb |].
      split; [exists (called_handleSubmitTest true :: later);
              rewrite Hshown; simpl; now rewrite <- app_assoc |].
      split; [rewrite Hp; destruct c; reflexivity |].
      intros Hpos. lia.
    + rewrite (run_effects_changed 1 c _ w1 Hd).
      unfold timerEffect. cbn [page w1 set_page s apply_updates fold_left apply_update
                               loading isSubmitting timeLeft].
      rewrite Hl. simpl orb. cbv iota.
      replace (timeLeft (page w) <=? 0) with false by (symmetry; apply Z.leb_gt; exact Hz).
      simpl. split; [reflexivity |].
      split; [exists nil; reflexivity |].
      split; [reflexivity |]. intros _. auto.
  - intros r Ha w'. subst w'. cbn [step]. rewrite Ha. simpl. auto.
  - intros Ha w'. subst w'. cbn [step]. rewrite Ha. cbn [handleSubmitTest_end].
    pose proof (awaiting_submitting w _ Hinv Ha) as Hs.
    rewrite run_effects_same_page by reflexivity.
    simpl. rewrite Hs. auto.
Qed.

(** C5, as the code has it. In every state the page can reach: the tick
    that brings timeLeft from 1 to 0 makes the timer effect call
    handleSubmitTest once in that step, and the effect holds no interval
    afterwards, so that further ticks change nothing; isSubmitting is then set
    exactly when the user confirmed. While isSubmitting is set, neither a
    tick nor a click on Submit changes anything, and a call of
    handleSubmitTest returns at its guard: no second submission starts while
    one is in flight. *)
Theorem expiry_calls_submit_once_per_effect_run (w : World) (now : Z) (c : bool) :
  reachable w ->
  (interval w = true -> timeLeft (page w) = 1 ->
   let w' := step now c tick w in
   timeLeft (page w') = 0
   /\ submit_calls true w' = S (submit_calls true w)
   /\ submit_calls false w' = submit_calls false w
   /\ isSubmitting (page w') = c
   /\ interval w' = false
   /\ (forall now' c', step now' c' tick w' = w'))
  /\ (isSubmitting (page w) = true ->
      forall now' c',
        step now' c' tick w = w
        /\ step now' c' click_submit w = w
        /\ handleSubmitTest_begin (page w) (testStateRef w) c' = submit_ignored).
Proof.
  intros Hreach. pose proof (reachable_invariant w Hreach) as Hinv.
  pose proof Hinv as [Hl _ _ _ _].
  split.
  - intros Hi Ht w'. subst w'. cbn [step]. rewrite Hi.
    destruct (interval_running w Hinv Hi) as [Hs _].
    unfold commit.
    set (w1 := set_page (apply_update (setTimeLeft (fun prevTime => prevTime - 1)) (page w)) w).
    assert (Hd : timer_deps (page w) <> timer_deps (page w1)).
    { intros Heq. apply (f_equal (fun p => fst (fst p))) in Heq. simpl in Heq. lia. }
    assert (Hz : timeLeft (page w1) <= 0) by (simpl; lia).
    destruct (run_effects_expired c _ w1 Hd Hl Hs Hz) as [Hp [Hint [_ [Hct [Hcf _]]]]].
    split; [rewrite Hp; destruct c; simpl; lia |].
    split; [exact Hct |]. split; [exact Hcf |].
    split; [rewrite Hp; destruct c; simpl; [reflexivity | exact Hs] |].
    split; [exact Hint |].
    intros now' c'. cbn [step]. now rewrite Hint.
  - intros Hs now' c'. cbn [step]. unfold handleSubmitTest_begin. rewrite Hs.
    split; [| split; reflexivity].
    destruct (interval w) eqn:Hi; [| reflexivity].
    destruct (interval_running w Hinv Hi) as [Hs' _]. congruence.
Qed.


(** The claim of C5 fails where a submission fails: the last minute runs
    down, the user confirms, the final save succeeds and the update of the
    attempt fails. The flag is set back, the timer effect runs again, and the
    timer has called [handleSubmitTest] twice for the one expiry. *)
Lemma expiry_calls_submit_again_after_failure :
  timeLeft (page (run Examples.expiry_with_failed_update Examples.last_minute)) = 0
  /\ submit_calls true (run Examples.expiry_with_failed_update Examples.last_minute) = 2%nat
  /\ submit_calls false (run Examples.expiry_with_failed_update Examples.last_minute) = 0%nat
  /\ attempt_status (db (run Examples.expiry_with_failed_update Examples.last_minute))
     = STARTED.
Proof. vm_compute. repeat split; reflexivity. Qed.

(** At the expiry the user may decline the confirmation: the countdown has
    stopped and nothing is submitted. *)
Lemma expiry_declined_submits_nothing :
  timeLeft (page (run Examples.expiry_declined Examples.last_minute)) = 0
  /\ interval (run Examples.expiry_declined Examples.last_minute) = false
  /\ isSubmitting (page (run Examples.expiry_declined Examples.last_minute)) = false
  /\ awaiting (run Examples.expiry_declined Examples.last_minute) = None
  /\ db (run Examples.expiry_declined Examples.last_minute) = Examples.started.
Proof. vm_compute. repeat split; reflexivity. Qed.

Lemma expiry_calls_submit_once_per_effect_run_witness :
  submit_calls true
    (step 0 true tick (run (repeat (0, true, tick) 59) Examples.last_minute))
  = S (submit_calls true (run (repeat (0, true, tick) 59) Examples.last_minute))
  /\ interval (step 0 true tick (run (repeat (0, true, tick) 59) Examples.last_minute))
     = false.
Proof.
  destruct (expiry_calls_submit_once_per_effect_run
              (run (repeat (0, true, tick) 59) Examples.last_minute) 0 true
              (reachable_run _ _
                 (reachable_loaded true Examples.page_questions 1 Examples.started)))
    as [Hexpiry _].
  destruct Hexpiry as [_ [Hcalls [_ [_ [Hinterval _]]]]].
  - vm_compute. reflexivity.
  - vm_compute. reflexivity.
  - split; [exact Hcalls | exact Hinterval].
Defined.

(** The claim of C6 fails for the final save: the user submits and
    confirms, the save of the active question fails, the update succeeds.
    The attempt is COMPLETED with no response stored, no alert is shown and
    isSubmitting stays set. *)
Lemma failed_final_save_still_completes :
  attempt_status (db (run Examples.submit_with_failed_save Examples.fresh_page)) = COMPLETED
  /\ responses (db (run Examples.submit_with_failed_save Examples.fresh_page)) = ∅
  /\ isSubmitting (page (run Examples.submit_with_failed_save Examples.fresh_page)) = true
  /\ shown (run Examples.submit_with_failed_save Examples.fresh_page)
     = [called_handleSubmitTest false; confirm_dialog; console_error_save;
        router_push_report].
Proof. vm_compute. repeat split; reflexivity. Qed.

Lemma failed_update_rolls_back_submission_witness :
  db (run Examples.submit_with_failed_update Examples.fresh_page)
  = db (run (firstn 2 Examples.submit_with_failed_update) Examples.fresh_page)
  /\ isSubmitting (page (run Examples.submit_with_failed_update Examples.fresh_page)) = false.
Proof.
  destruct (failed_update_rolls_back_submission
              (run (firstn 2 Examples.submit_with_failed_update) Examples.fresh_page)
              12 true
              (reachable_run _ _
                 (reachable_loaded true Examples.page_questions 180 Examples.started)))
    as [Hupdate _].
  destruct Hupdate as [Hdb [_ [Hflag _]]].
  - vm_compute. reflexivity.
  - split; [exact Hdb | exact Hflag].
Defined.

Lemma answer_change_overwrites_status_witness :
  status
    (getQuestionState
       (page (step 7 true (change_answer (JStr "A"))
                (step 6 true (click_mark_for_review false)
                   (step 5 true (click_palette 1 false) Examples.fresh_page))))
       "q3")
  <> marked_for_review.
Proof.
  destruct (answer_change_overwrites_status
              (step 6 true (click_mark_for_review false)
                 (step 5 true (click_palette 1 false) Examples.fresh_page))
              7 true (JStr "A")
              {| question_id := "q3"; question_type := "NUMERICAL"; question_number := 2 |})
    as [_ [_ [_ [_ [Hmark _]]]]].
  - vm_compute. reflexivity.
  - exact Hmark.
Defined.


(** "Mark for review and next" saves the question it leaves from the ref,
    which still holds the state of the last render: after an answer "A" and a
    mark, the page has the question as marked_for_review and the store has
    its action as answered. *)
Lemma mark_for_review_saves_previous_status :
  status
    (getQuestionState
       (page (run [(1, true, change_answer (JStr "A"));
                   (2, true, click_mark_for_review false)] Examples.fresh_page)) "q1")
  = marked_for_review
  /\ responses
       (db (run [(1, true, change_answer (JStr "A"));
                 (2, true, click_mark_for_review false)] Examples.fresh_page)) !! "q1"
     = Some {| resp_selected_answer := JStr "A"; resp_action := answered |}.
Proof. vm_compute. split; reflexivity. Qed.

End Page.

(** ** The report: list, tabs and buckets *)

Section Review.
Import Js Store ReportPage Buckets.

Lemma count_status_range (st : Status) (qs : list QuestionAnalysis) :
  0 <= count_status st qs <= Z.of_nat (length qs).
Proof.
  unfold count_status. pose proof (List.filter_length_le (has_status st) qs). lia.
Qed.

Lemma count_status_total (qs : list QuestionAnalysis) :
  count_status CORRECT qs + count_status INCORRECT qs + count_status UNATTEMPTED qs
  = Z.of_nat (length qs).
Proof.
  unfold count_status. induction qs as [| qa qs IH]; [reflexivity |].
  unfold has_status in *. simpl. destruct (qa_status qa); simpl length; lia.
Qed.

Lemma omap_length_le {A B : Type} (f : A -> option B) (l : list A) :
  (length (omap f l) <= length l)%nat.
Proof.
  induction l as [| a l IH]; [reflexivity |].
  change (omap f (a :: l)) with (match f a with Some y => y :: omap f l | None => omap f l end).
  destruct (f a); simpl length; lia.
Qed.

Lemma tally_questions (st : Status) (sub : string) (r : ReportData) :
  questions (tally st sub r) = questions r.
Proof. destruct st; reflexivity. Qed.

Lemma tally_testName (st : Status) (sub : string) (r : ReportData) :
  testName (tally st sub r) = testName r.
Proof. destruct st; reflexivity. Qed.

(** The loop appends to the list, one entry for each link that resolves. *)
Lemma report_loop_listing (answers : gmap string value) (links : list Link)
    (r r' : ReportData) :
  report_loop answers r links = Normal r' ->
  map listed (questions r') = (map listed (questions r) ++ omap (listing answers) links)%list.
Proof.
  revert r. induction links as [| link rest IH]; intros r; simpl.
  - intros [= <-]. cbn. symmetry. apply app_nil_r.
  - unfold report_step at 1, listing at 1.
    destruct (link_question link) as [q |]; simpl.
    + destruct (classify q _) as [st | e]; simpl; [| discriminate].
      intros Hloop. rewrite (IH _ Hloop). cbn.
      rewrite tally_questions, map_app. cbn. now rewrite <- app_assoc.
    + apply IH.
Qed.

Lemma report_loop_testName (answers : gmap string value) (links : list Link)
    (r r' : ReportData) :
  report_loop answers r links = Normal r' -> testName r' = testName r.
Proof.
  revert r. induction links as [| link rest IH]; intros r; simpl.
  - now intros [= <-].
  - unfold report_step at 1. destruct (link_question link) as [q |]; simpl.
    + destruct (classify q _) as [st | e]; simpl; [| discriminate].
      intros Hloop. rewrite (IH _ Hloop). cbn. apply tally_testName.
    + apply IH.
Qed.

Lemma generateReport_consistent (name : string) (userAnswers : list AnswerRow)
    (questionLinks : list Link) (r : ReportData) :
  generateReport name userAnswers questionLinks = Normal r ->
  exists r0, report_loop (answerMap userAnswers) (empty_report name) questionLinks = Normal r0
             /\ r = calculate_scores r0 /\ consistent r0.
Proof.
  unfold generateReport.
  destruct (report_loop _ _ questionLinks) as [r0 |] eqn:Hloop; simpl; [| discriminate].
  intros [= <-]. exists r0. split; [reflexivity | split; [reflexivity |]].
  exact (report_loop_consistent _ _ _ _ Hloop (consistent_empty name)).
Qed.

(** X5. The report lists the links that resolve, in the order of the links, each
    with the number of its link, the id of its question and the answer the
    lookup gives; so it lists no more questions than there are links. *)
Theorem report_lists_resolved_links_in_order (name : string) (userAnswers : list AnswerRow)
    (questionLinks : list Link) (r : ReportData) :
  generateReport name userAnswers questionLinks = Normal r ->
  map listed (questions r) = omap (listing (answerMap userAnswers)) questionLinks
  /\ (length (questions r) <= length questionLinks)%nat
  /\ testName r = name.
Proof.
  intros Hgen.
  destruct (generateReport_consistent _ _ _ _ Hgen) as [r0 [Hloop [-> _]]].
  pose proof (report_loop_listing _ _ _ _ Hloop) as Hl. simpl in Hl.
  split; [exact Hl |]. split.
  - simpl. rewrite <- (length_map listed), Hl. apply omap_length_le.
  - simpl. exact (report_loop_testName _ _ _ _ Hloop).
Qed.

Lemma report_lists_resolved_links_in_order_witness :
  map listed (questions Examples.scenario_report)
  = omap (listing (answerMap Examples.scenario_answers)) Examples.scenario_links
  /\ (length (questions Examples.scenario_report) <= length Examples.scenario_links)%nat
  /\ testName Examples.scenario_report = "Mock test".
Proof.
  apply (report_lists_resolved_links_in_order "Mock test" Examples.scenario_answers
           Examples.scenario_links).
  vm_compute. reflexivity.
Defined.

(** *** The tabs of the solution review *)

Lemma filter_tab (r : ReportData) (st : Status) (tab : ReportTab) :
  (forall st', status_is_tab st' tab = match st, st' with
                                       | CORRECT, CORRECT | INCORRECT, INCORRECT
                                       | UNATTEMPTED, UNATTEMPTED => true
                                       | _, _ => false
                                       end) ->
  tab <> TAB_ALL ->
  filteredQuestions r tab = List.filter (has_status st) (questions r).
Proof.
  intros Htab Hall. unfold filteredQuestions. apply List.filter_ext. intros qa.
  unfold has_status. rewrite <- Htab. now destruct tab.
Qed.

Lemma filter_all {A : Type} (l : list A) : List.filter (fun _ => true) l = l.
Proof. induction l as [| a l IH]; [reflexivity | simpl; now rewrite IH]. Qed.

Lemma filter_by_status_permutation (qs : list QuestionAnalysis) :
  Permutation qs
    (List.filter (has_status CORRECT) qs ++ List.filter (has_status INCORRECT) qs
     ++ List.filter (has_status UNATTEMPTED) qs)%list.
Proof.
  induction qs as [| qa qs IH]; [constructor |].
  unfold has_status in *. simpl. destruct (qa_status qa); simpl.
  - now constructor.
  - now apply Permutation_cons_app.
  - rewrite app_assoc. apply Permutation_cons_app. now rewrite <- app_assoc.
Qed.

(** X6. The tab ALL shows the whole list; each other tab shows as many
    questions as the summary card of its status counts; and the three of
    them share out the list. *)
Theorem tabs_show_the_counted_questions (name : string) (userAnswers : list AnswerRow)
    (questionLinks : list Link) (r : ReportData) :
  generateReport name userAnswers questionLinks = Normal r ->
  filteredQuestions r TAB_ALL = questions r
  /\ Z.of_nat (length (filteredQuestions r TAB_CORRECT)) = totalCorrect r
  /\ Z.of_nat (length (filteredQuestions r TAB_INCORRECT)) = totalIncorrect r
  /\ Z.of_nat (length (filteredQuestions r TAB_UNATTEMPTED)) = totalUnattempted r
  /\ Permutation (questions r)
       (filteredQuestions r TAB_CORRECT ++ filteredQuestions r TAB_INCORRECT
        ++ filteredQuestions r TAB_UNATTEMPTED)%list.
Proof.
  intros Hgen.
  destruct (generateReport_consistent _ _ _ _ Hgen) as [r0 [_ [-> [_ _ _ Lc Li Lu]]]].
  rewrite (filter_tab _ CORRECT TAB_CORRECT), (filter_tab _ INCORRECT TAB_INCORRECT),
    (filter_tab _ UNATTEMPTED TAB_UNATTEMPTED);
    try discriminate; try (now intros []).
  split; [| split; [exact Lc | split; [exact Li | split; [exact Lu |]]]].
  - apply filter_all.
  - apply filter_by_status_permutation.
Qed.

Lemma tabs_show_the_counted_questions_witness :
  Z.of_nat (length (filteredQuestions Examples.scenario_report TAB_CORRECT))
  = totalCorrect Examples.scenario_report.
Proof.
  refine (proj1 (proj2 (tabs_show_the_counted_questions "Mock test" Examples.scenario_answers
                          Examples.scenario_links Examples.scenario_report _))).
  vm_compute. reflexivity.
Defined.

(** *** Bounds *)

(** X7. Every listed question is counted once; the score lies between one mark
    lost and four marks won for each listed question; and no more questions
    are listed than there are links. *)
Theorem report_totals_are_bounded (name : string) (userAnswers : list AnswerRow)
    (questionLinks : list Link) (r : ReportData) :
  generateReport name userAnswers questionLinks = Normal r ->
  totalCorrect r + totalIncorrect r + totalUnattempted r = Z.of_nat (length (questions r))
  /\ 0 <= totalCorrect r /\ 0 <= totalIncorrect r /\ 0 <= totalUnattempted r
  /\ - Z.of_nat (length (questions r)) <= totalScore r <= 4 * Z.of_nat (length (questions r))
  /\ Z.of_nat (length (questions r)) <= Z.of_nat (length questionLinks).
Proof.
  intros Hgen.
  destruct (generateReport_consistent _ _ _ _ Hgen) as [r0 [Hloop [-> [_ _ _ Lc Li Lu]]]].
  pose proof (report_loop_listing _ _ _ _ Hloop) as Hl.
  apply (f_equal (@length _)) in Hl. rewrite length_map in Hl. simpl in Hl.
  pose proof (omap_length_le (listing (answerMap userAnswers)) questionLinks) as Hle.
  pose proof (count_status_total (questions r0)) as Htot.
  pose proof (count_status_range CORRECT (questions r0)).
  pose proof (count_status_range INCORRECT (questions r0)).
  pose proof (count_status_range UNATTEMPTED (questions r0)).
  simpl. lia.
Qed.

Lemma report_totals_are_bounded_witness :
  totalCorrect Examples.scenario_report + totalIncorrect Examples.scenario_report
  + totalUnattempted Examples.scenario_report
  = Z.of_nat (length (questions Examples.scenario_report)).
Proof.
  refine (proj1 (report_totals_are_bounded "Mock test" Examples.scenario_answers
                   Examples.scenario_links Examples.scenario_report _)).
  vm_compute. reflexivity.
Defined.

(** *** The subject buckets *)

Lemma upper_ascii_idem (c : ascii) : upper_ascii (upper_ascii c) = upper_ascii c.
Proof. destruct c as [[] [] [] [] [] [] [] []]; vm_compute; reflexivity. Qed.

Lemma toUpperCase_idem (s : string) : toUpperCase (toUpperCase s) = toUpperCase s.
Proof.
  induction s as [| c s IH]; [reflexivity |].
  simpl. now rewrite upper_ascii_idem, IH.
Qed.

Lemma qa_key_upper (qa : QuestionAnalysis) : toUpperCase (qa_key qa) = qa_key qa.
Proof. unfold qa_key. apply toUpperCase_idem. Qed.

Lemma listed_in_snoc (sub : string) (qs : list QuestionAnalysis) (qa : QuestionAnalysis) :
  listed_in sub (qs ++ [qa])
  = (listed_in sub qs ++ if String.eqb (qa_key qa) sub then [qa] else [])%list.
Proof. unfold listed_in. rewrite List.filter_app. simpl. now destruct (String.eqb _ _). Qed.

Lemma bucket_counts_counted (r : ReportData) (qa : QuestionAnalysis) (sub : string) :
  bucket_counts r sub ->
  bucket_counts r (qa_key qa) ->
  bucket_counts (push_question qa (tally (qa_status qa) (qa_key qa) r)) sub.
Proof.
  unfold bucket_counts. intros Hsub Hkey.
  assert (Hmap : subjectStats (push_question qa (tally (qa_status qa) (qa_key qa) r)) !! sub
                 = if decide (qa_key qa = sub)
                   then Some (let stats := default zero_stats (subjectStats r !! qa_key qa) in
                              match qa_status qa with
                              | CORRECT =>
                                  {| correct := correct stats + 1; incorrect := incorrect stats;
                                     unattempted := unattempted stats; score := score stats |}
                              | INCORRECT =>
                                  {| correct := correct stats; incorrect := incorrect stats + 1;
                                     unattempted := unattempted stats; score := score stats |}
                              | UNATTEMPTED =>
                                  {| correct := correct stats; incorrect := incorrect stats;
                                     unattempted := unattempted stats + 1;
                                     score := score stats |}
                              end)
                   else subjectStats r !! sub).
  { destruct (decide (qa_key qa = sub)) as [<- | Hne].
    - destruct (qa_status qa); simpl; now rewrite lookup_insert_eq.
    - destruct (qa_status qa); simpl; now rewrite lookup_insert_ne. }
  rewrite Hmap. clear Hmap.
  assert (Hqs : questions (push_question qa (tally (qa_status qa) (qa_key qa) r))
                = (questions r ++ [qa])%list).
  { simpl. now rewrite tally_questions. }
  rewrite Hqs, listed_in_snoc. clear Hqs.
  destruct (decide (qa_key qa = sub)) as [<- | Hne].
  - rewrite String.eqb_refl. rewrite !count_status_snoc. unfold has_status.
    split; [| split; [| split]]; try (now destruct (listed_in _ _)).
    all: destruct (subjectStats r !! qa_key qa) as [st |];
      [destruct Hkey as [Hc [Hi [Hu _]]] | rewrite Hkey; unfold count_status];
      destruct (qa_status qa); simpl; lia.
  - apply String.eqb_neq in Hne. rewrite Hne, app_nil_r. exact Hsub.
Qed.

Lemma report_loop_buckets (answers : gmap string value) (links : list Link)
    (r r' : ReportData) :
  report_loop answers r links = Normal r' ->
  (forall sub, bucket_counts r sub) -> forall sub, bucket_counts r' sub.
Proof.
  revert r. induction links as [| link rest IH]; intros r; simpl.
  - now intros [= <-].
  - unfold report_step at 1. destruct (link_question link) as [q |]; simpl; [| apply IH].
    destruct (classify q _) as [st | e]; simpl; [| discriminate].
    intros Hloop Hr. apply (IH _ Hloop). intros sub.
    match goal with |- bucket_counts (push_question ?qa _) _ =>
      exact (bucket_counts_counted r qa sub (Hr sub) (Hr (qa_key qa))) end.
Qed.

(** X8. A subject has a bucket exactly when a listed question has that subject
    (upper-cased, UNCATEGORIZED for none); the bucket counts the listed
    questions of its subject by status, and its score is the sum of their
    marks. The name of a bucket is in upper case, so subjects that differ
    only in case share one bucket. *)
Theorem subject_buckets_count_their_questions (name : string)
    (userAnswers : list AnswerRow) (questionLinks : list Link) (r : ReportData)
    (sub : string) :
  generateReport name userAnswers questionLinks = Normal r ->
  (subjectStats r !! sub = None <-> listed_in sub (questions r) = [])
  /\ (forall st, subjectStats r !! sub = Some st ->
        correct st = count_status CORRECT (listed_in sub (questions r))
        /\ incorrect st = count_status INCORRECT (listed_in sub (questions r))
        /\ unattempted st = count_status UNATTEMPTED (listed_in sub (questions r))
        /\ score st = total_marks (listed_in sub (questions r))
        /\ toUpperCase sub = sub).
Proof.
  intros Hgen.
  destruct (generateReport_consistent _ _ _ _ Hgen) as [r0 [Hloop [-> _]]].
  assert (Hb : bucket_counts r0 sub).
  { apply (report_loop_buckets _ _ _ _ Hloop). intros sub'. reflexivity. }
  unfold bucket_counts in Hb. simpl. rewrite lookup_fmap.
  destruct (subjectStats r0 !! sub) as [st0 |]; simpl.
  - destruct Hb as [Hc [Hi [Hu Hne]]]. split; [split; [discriminate | tauto] |].
    intros st [= <-]. simpl. rewrite total_marks_counts, <- Hc, <- Hi.
    repeat split; auto.
    destruct (listed_in sub (questions r0)) as [| qa qs] eqn:Hl; [tauto |].
    assert (Hin : In qa (listed_in sub (questions r0))) by (rewrite Hl; now left).
    apply List.filter_In in Hin as [_ Hkey]. apply String.eqb_eq in Hkey.
    rewrite <- Hkey. apply qa_key_upper.
  - split; [tauto |]. discriminate.
Qed.

Lemma subject_buckets_count_their_questions_witness :
  subjectStats Examples.scenario_report !! "PHYSICS" = None
  <-> listed_in "PHYSICS" (questions Examples.scenario_report) = [].
Proof.
  refine (proj1 (subject_buckets_count_their_questions "Mock test" Examples.scenario_answers
                   Examples.scenario_links Examples.scenario_report "PHYSICS" _)).
  vm_compute. reflexivity.
Defined.

(** *** The answers of the list *)

Lemma answerMap_fold (rows : list AnswerRow) (m : gmap string value) (id : string) :
  fold_left (fun m ans => <[ans_question_id ans := ans_selected_answer ans]> m) rows m !! id
  = match last (List.filter (fun a => String.eqb (ans_question_id a) id) rows) with
    | Some a => Some (ans_selected_answer a)
    | None => m !! id
    end.
Proof.
  revert m. induction rows as [| a rows IH]; intros m; [reflexivity |].
  simpl. rewrite IH. destruct (String.eqb (ans_question_id a) id) eqn:Hid.
  - rewrite last_cons. destruct (last _); [reflexivity |].
    apply String.eqb_eq in Hid. subst id. now rewrite lookup_insert_eq.
  - destruct (last _); [reflexivity |].
    apply String.eqb_neq in Hid. now rewrite lookup_insert_ne.
Qed.

Lemma answerMap_keeps_last_row_aux (userAnswers : list AnswerRow) (id : string) :
  answerMap userAnswers !! id
  = ans_selected_answer
      <$> last (List.filter (fun a => String.eqb (ans_question_id a) id) userAnswers).
Proof.
  unfold answerMap. rewrite answerMap_fold, lookup_empty. now destruct (last _).
Qed.

(** X9. Both scoring paths look an answer up in [answerMap]: a question has the
    answer of the last of its rows, and none without a row. *)
Theorem answerMap_keeps_last_row (userAnswers : list AnswerRow) (id : string) :
  answerMap userAnswers !! id
  = ans_selected_answer
      <$> last (List.filter (fun a => String.eqb (ans_question_id a) id) userAnswers).
Proof. apply answerMap_keeps_last_row_aux. Qed.

Lemma looked_up_null_or_truthy (stored : value) :
  or_else stored JNull = JNull \/ truthy (or_else stored JNull) = true.
Proof. unfold or_else. destruct (truthy stored) eqn:Ht; [now right | now left]. Qed.

Lemma classify_unattempted (q : Question) (stored : value) (st : Status) :
  classify q (or_else stored JNull) = Normal st ->
  st = UNATTEMPTED <-> or_else stored JNull = JNull.
Proof.
  unfold classify. rewrite looked_up_answer_not_empty, orb_false_r.
  destruct (is_null (or_else stored JNull)) eqn:Hn.
  - intros [= <-]. apply is_null_iff in Hn. tauto.
  - assert (or_else stored JNull <> JNull).
    { intros Heq. rewrite Heq in Hn. discriminate. }
    destruct (isAnswerCorrect _ _ _) as [[|] | e]; simpl; [| | discriminate];
      intros [= <-]; (split; [discriminate | tauto]).
Qed.

Lemma report_loop_answers (answers : gmap string value) (links : list Link)
    (r r' : ReportData) :
  report_loop answers r links = Normal r' ->
  Forall (answer_listed answers) (questions r) ->
  Forall (answer_listed answers) (questions r').
Proof.
  revert r. induction links as [| link rest IH]; intros r; simpl.
  - now intros [= <-].
  - unfold report_step at 1. destruct (link_question link) as [q |]; simpl; [| apply IH].
    destruct (classify q _) as [st | e] eqn:Hst; simpl; [| discriminate].
    intros Hloop Hr. apply (IH _ Hloop). simpl. rewrite tally_questions.
    apply Forall_app. split; [exact Hr |]. constructor; [| constructor].
    unfold answer_listed. simpl. split; [reflexivity |].
    split; [exact (classify_unattempted q _ st Hst) | apply looked_up_null_or_truthy].
Qed.

(** X10. The answer listed for a question is the last stored row of the question
    if that answer is truthy, and null otherwise; the question is
    UNATTEMPTED exactly when the listed answer is null, and the review card
    then shows "Not Answered". A question without a row is UNATTEMPTED. *)
Theorem listed_answers_are_last_rows_or_null (name : string)
    (userAnswers : list AnswerRow) (questionLinks : list Link) (r : ReportData)
    (qa : QuestionAnalysis) :
  generateReport name userAnswers questionLinks = Normal r ->
  In qa (questions r) ->
  qa_selected_answer qa
  = match last (List.filter (fun a => String.eqb (ans_question_id a) (qa_question_id qa))
                  userAnswers) with
    | Some a => if truthy (ans_selected_answer a) then ans_selected_answer a else JNull
    | None => JNull
    end
  /\ (qa_status qa = UNATTEMPTED <-> qa_selected_answer qa = JNull)
  /\ (qa_status qa = UNATTEMPTED ->
      getAnswerDisplay (qa_selected_answer qa) = Normal "Not Answered")
  /\ (~ In (qa_question_id qa) (map ans_question_id userAnswers) ->
      qa_status qa = UNATTEMPTED).
Proof.
  intros Hgen Hin.
  destruct (generateReport_consistent _ _ _ _ Hgen) as [r0 [Hloop [-> _]]].
  simpl in Hin.
  pose proof (report_loop_answers _ _ _ _ Hloop (List.Forall_nil _)) as Hall.
  rewrite List.Forall_forall in Hall. destruct (Hall qa Hin) as [Hsel [Hun _]].
  assert (Hlast : qa_selected_answer qa
                  = match last (List.filter
                                  (fun a => String.eqb (ans_question_id a) (qa_question_id qa))
                                  userAnswers) with
                    | Some a => if truthy (ans_selected_answer a) then ans_selected_answer a
                                else JNull
                    | None => JNull
                    end).
  { rewrite Hsel. unfold or_else, Map_get. rewrite answerMap_keeps_last_row_aux.
    now destruct (last _). }
  split; [exact Hlast |]. split; [exact Hun |]. split.
  - intros Hst. apply Hun in Hst. now rewrite Hst.
  - intros Hno. apply Hun. rewrite Hlast.
    destruct (last _) as [a |] eqn:Ha; [| reflexivity].
    exfalso. apply Hno. apply last_Some_elem_of in Ha.
    apply list_elem_of_In, List.filter_In in Ha as [Ha Hid].
    apply String.eqb_eq in Hid. rewrite <- Hid. apply in_map. exact Ha.
Qed.

Lemma listed_answers_are_last_rows_or_null_witness :
  qa_status
    {| qa_question_id := "q3"; qa_question_number := 3; qa_question_text := None;
       qa_subject := Some "Maths"; qa_correct_answer := JArr [Examples.ten];
       qa_solution_text := None; qa_selected_answer := JNull;
       qa_status := UNATTEMPTED |}
  = UNATTEMPTED.
Proof.
  refine (proj2 (proj2 (proj2
    (listed_answers_are_last_rows_or_null "Mock test" Examples.scenario_answers
       Examples.scenario_links Examples.scenario_report
       {| qa_question_id := "q3"; qa_question_number := 3; qa_question_text := None;
          qa_subject := Some "Maths"; qa_correct_answer := JArr [Examples.ten];
          qa_solution_text := None; qa_selected_answer := JNull;
          qa_status := UNATTEMPTED |} _ _))) _).
  - vm_compute. reflexivity.
  - vm_compute. right. right. left. reflexivity.
  - simpl. intros [Heq | [Heq | []]]; discriminate.
Defined.
End Review.

(** ** The edge function *)

Section Server.
Import Js Store CalculateScore.

Lemma count_comm (b1 b2 : Branch) (t : Totals) : count b1 (count b2 t) = count b2 (count b1 t).
Proof. destruct b1, b2; simpl; f_equal; lia. Qed.

(** One turn of the loop counts a branch that depends on the link and the
    answers only, or nothing. *)
Lemma score_step_counts (answers : gmap string value) (link : Link) :
  exists ob : option Branch,
    forall t, score_step answers t link
              = Normal (match ob with Some b => count b t | None => t end).
Proof.
  unfold score_step. destruct (link_question link) as [q |].
  - destruct (server_classify_returns q (or_else (Map_get answers (question_id q)) JNull))
      as [b Hb].
    exists (Some b). intros t. now rewrite Hb.
  - exists None. reflexivity.
Qed.

Lemma score_loop_permutation (answers : gmap string value) (l l' : list Link) :
  Permutation l l' -> forall t, score_loop answers t l = score_loop answers t l'.
Proof.
  induction 1 as [| x l l' _ IH | x y l | l l' l'' _ IH1 _ IH2]; intros t.
  - reflexivity.
  - simpl. destruct (score_step answers t x); simpl; [apply IH | reflexivity].
  - simpl. destruct (score_step_counts answers x) as [bx Hx].
    destruct (score_step_counts answers y) as [by_ Hy].
    rewrite !Hx, !Hy. simpl. rewrite !Hx, !Hy. simpl.
    destruct bx, by_; try reflexivity. now rewrite count_comm.
  - now rewrite IH1.
Qed.

(** X11. The edge function reads the links in no stated order: its score does not
    depend on the order of the links. *)
Theorem finalScore_ignores_link_order (userAnswers : list AnswerRow)
    (questionLinks questionLinks' : list Link) :
  Permutation questionLinks questionLinks' ->
  finalScore userAnswers questionLinks = finalScore userAnswers questionLinks'.
Proof.
  intros Hperm. unfold finalScore. now rewrite (score_loop_permutation _ _ _ Hperm).
Qed.

Lemma finalScore_ignores_link_order_witness :
  finalScore Examples.scenario_answers Examples.scenario_links
  = finalScore Examples.scenario_answers (rev Examples.scenario_links).
Proof.
  apply (finalScore_ignores_link_order Examples.scenario_answers Examples.scenario_links
           (rev Examples.scenario_links)).
  apply Permutation_rev.
Defined.

Lemma as_array_joined (link : Link) : Spec.array_joined (as_array link).
Proof.
  unfold Spec.array_joined, as_array.
  destruct (Questions link) as [| q | items] eqn:Hq; simpl; [now rewrite Hq | exact I |].
  now rewrite Hq.
Qed.

Lemma as_array_server (link : Link) : link_question (as_array link) = link_question link.
Proof.
  unfold link_question, as_array.
  destruct (Questions link) as [| q | items] eqn:Hq; simpl; now rewrite ?Hq.
Qed.

Lemma score_loop_as_array (answers : gmap string value) (links : list Link) (t : Totals) :
  score_loop answers t (map as_array links) = score_loop answers t links.
Proof.
  revert t. induction links as [| link rest IH]; intros t; [reflexivity |].
  simpl. unfold score_step. rewrite as_array_server.
  destruct (link_question link) as [q |]; simpl; [| apply IH].
  destruct (classify q _); simpl; [apply IH | reflexivity].
Qed.

(** X12. On any links, the score of the edge function is the total score of the
    report for the same rows with every join of one row read as an array of
    that row. *)
Theorem server_scores_joins_of_either_shape (name : string) (userAnswers : list AnswerRow)
    (questionLinks : list Link) :
  exists r,
    ReportPage.generateReport name userAnswers (map as_array questionLinks) = Normal r
    /\ finalScore userAnswers questionLinks = Normal (ReportPage.totalScore r).
Proof.
  unfold ReportPage.generateReport, finalScore.
  rewrite <- (score_loop_as_array (answerMap userAnswers) questionLinks).
  assert (Hlinks : Forall Spec.array_joined (map as_array questionLinks)).
  { apply List.Forall_forall. intros link Hin. apply in_map_iff in Hin as [l [<- _]].
    apply as_array_joined. }
  pose proof (loops_agree (answerMap userAnswers) _ Hlinks (ReportPage.empty_report name)
                {| totalCorrect := 0; totalIncorrect := 0 |} eq_refl eq_refl) as Hagree.
  destruct (report_loop_returns (answerMap userAnswers) (map as_array questionLinks)
              (ReportPage.empty_report name)) as [r Hr].
  rewrite Hr in *.
  destruct (score_loop _ _ (map as_array questionLinks)) as [t |]; [| destruct Hagree].
  destruct Hagree as [Hc Hi]. simpl. eexists. split; [reflexivity |].
  simpl. now rewrite Hc, Hi.
Qed.

(** *** The handler *)

(** X13. Every response carries the CORS headers. The handler answers 200 with
    the score exactly when the request is not a preflight, names an attempt,
    all three queries and the update succeed; it then stores that score. In
    every other case the stored score stays what it was, and the answer to a
    request that is not a preflight is 400 with the message of the error. *)
Theorem serve_stores_the_score_or_nothing (method : string) (attemptId : completion value)
    (attempt : fetched string) (answers : fetched (list AnswerRow))
    (links : fetched (list Link)) (updateError : option string) (stored : option Z) :
  let '(response, stored') := serve method attemptId attempt answers links updateError stored in
  cors response = true
  /\ (method = "OPTIONS" ->
      response = {| status := 200; body := body_ok; cors := true; json := false |}
      /\ stored' = stored)
  /\ (forall score, body response = body_score score <->
        method <> "OPTIONS"
        /\ (exists id testId userAnswers questionLinks,
              attemptId = Normal id /\ truthy id = true
              /\ attempt = fetch_data testId
              /\ answers = fetch_data userAnswers
              /\ links = fetch_data questionLinks
              /\ finalScore userAnswers questionLinks = Normal score)
        /\ updateError = None)
  /\ (forall score, body response = body_score score ->
        status response = 200 /\ stored' = Some score)
  /\ ((forall score, body response <> body_score score) -> stored' = stored)
  /\ (method <> "OPTIONS" -> (forall score, body response <> body_score score) ->
      status response = 400 /\ json response = true
      /\ exists message, body response = body_error message).
Proof.
  unfold serve. destruct (String.eqb method "OPTIONS") eqn:Hm.
  - apply String.eqb_eq in Hm. simpl. repeat split; try discriminate; try tauto.
  - apply String.eqb_neq in Hm.
    destruct (recompute attemptId attempt answers links) as [score0 | m] eqn:Hre.
    + assert (Hok : exists id testId userAnswers questionLinks,
                 attemptId = Normal id /\ truthy id = true
                 /\ attempt = fetch_data testId
                 /\ answers = fetch_data userAnswers
                 /\ links = fetch_data questionLinks
                 /\ finalScore userAnswers questionLinks = Normal score0).
      { unfold recompute in Hre.
        destruct attemptId as [id | [m]]; [| discriminate].
        destruct (truthy id) eqn:Hid; simpl in Hre; [| discriminate].
        destruct attempt as [testId | m]; [| discriminate].
        destruct answers as [userAnswers | m]; [| discriminate].
        destruct links as [questionLinks | m]; [| discriminate].
        destruct (finalScore userAnswers questionLinks) as [sc | [m]] eqn:Hsc;
          [| discriminate].
        injection Hre as <-. now exists id, testId, userAnswers, questionLinks. }
      destruct updateError as [m |]; simpl.
      * split; [reflexivity |]. split; [intros Heq; contradiction |].
        split; [intros score; split; [discriminate | intros [_ [_ Hnone]]; discriminate] |].
        split; [discriminate |]. split; [reflexivity |].
        intros _ _. repeat split. eexists; reflexivity.
      * split; [reflexivity |]. split; [intros Heq; contradiction |].
        split.
        { intros score. split.
          - intros [= <-]. split; [exact Hm | split; [exact Hok | reflexivity]].
          - intros [_ [[id [testId [ua [ql [Hid [_ [Ht [Ha [Hl Hsc]]]]]]]]] _]].
            destruct Hok as [id' [testId' [ua' [ql' [_ [_ [_ [Ha' [Hl' Hsc']]]]]]]]].
            f_equal. congruence. }
        split; [intros score [= <-]; split; reflexivity |].
        split; [intros Hnot; exfalso; exact (Hnot score0 eq_refl) |].
        intros _ Hnot. exfalso. exact (Hnot score0 eq_refl).
    + simpl. split; [reflexivity |]. split; [intros Heq; contradiction |].
      split.
      { intros score. split; [discriminate |].
        intros [_ [[id [testId [ua [ql [-> [Hid [-> [-> [-> Hsc]]]]]]]]] _]].
        unfold recompute in Hre. rewrite Hid in Hre. simpl in Hre. rewrite Hsc in Hre.
        discriminate. }
      split; [discriminate |]. split; [reflexivity |].
      intros _ _. repeat split. eexists; reflexivity.
Qed.
End Server.

(** ** The report page as the user sees it *)

Section ReportView.
Import Js Store ReportPage.

Ltac view_case :=
  repeat split; try discriminate; try tauto; try congruence;
  try (intros [uid' [a [ua [ql [Hu [Ha [Hid [Hans [Hl Hg]]]]]]]]]; congruence).

(** X14. Whatever the queries give, the page stops loading. It shows a report
    only to the signed-in user who owns the attempt, and only when all three
    queries succeeded; the report is then the computed one. Without a user
    it shows nothing and goes to the login page; otherwise it shows an error
    or a report, never both. *)
Theorem report_is_shown_to_the_owner_only (user : option string)
    (attempt : fetched AttemptRow) (answers : fetched (list AnswerRow))
    (links : fetched (list Link)) :
  let view := generateReport_view user attempt answers links in
  view_loading view = false
  /\ (forall r, view_report view = Some r <->
        exists uid attemptData userAnswers questionLinks,
          user = Some uid /\ attempt = fetch_data attemptData
          /\ user_id attemptData = uid
          /\ answers = fetch_data userAnswers /\ links = fetch_data questionLinks
          /\ generateReport (testName_of (Tests attemptData)) userAnswers questionLinks
             = Normal r)
  /\ (forall uid attemptData, user = Some uid -> attempt = fetch_data attemptData ->
        user_id attemptData <> uid ->
        view_error view = Some "You do not have permission to view this report."
        /\ view_report view = None)
  /\ (user = None <-> view_route view = Some "/login")
  /\ (user = None -> view_error view = None /\ view_report view = None)
  /\ (user <> None -> (view_error view = None <-> view_report view <> None)).
Proof.
  unfold generateReport_view, generateReport_try.
  destruct user as [uid |]; simpl; [| view_case].
  destruct attempt as [attemptData | m]; simpl; [| view_case].
  destruct (String.eqb (user_id attemptData) uid) eqn:Huid; simpl;
    [apply String.eqb_eq in Huid | apply String.eqb_neq in Huid; view_case].
  destruct answers as [userAnswers | m]; simpl; [| view_case].
  destruct links as [questionLinks | m]; simpl; [| view_case].
  destruct (report_loop_returns (answerMap userAnswers) questionLinks
              (empty_report (testName_of (Tests attemptData)))) as [r0 Hr0].
  assert (Hgen : generateReport (testName_of (Tests attemptData)) userAnswers questionLinks
                 = Normal (calculate_scores r0)).
  { unfold generateReport. now rewrite Hr0. }
  rewrite Hgen. simpl.
  split; [reflexivity |]. split.
  { intros r. split.
    - intros [= <-]. now exists uid, attemptData, userAnswers, questionLinks.
    - intros [uid' [a [ua [ql [Hu [Ha [_ [Hans [Hl Hr]]]]]]]]]. congruence. }
  view_case.
Qed.
End ReportView.

(** ** The review card *)

Section Card.
Import Js Store ReportPage.

Lemma ToString_returns : forall v, symbol_free v = true -> exists s, ToString v = Normal s.
Proof.
  fix IH 1. intros [| | b | x | s | items | fields | d]; simpl; intros Hsf;
    try (eexists; reflexivity); [| discriminate].
  induction items as [| a rest IHrest]; [eexists; reflexivity |].
  simpl in Hsf. apply andb_prop in Hsf as [Ha Hrest].
  destruct (IHrest Hrest) as [sr Hsr]. destruct (IH a Ha) as [sa Hsa].
  assert (Hitem : exists sx, match a with
                             | JNull | JUndefined => Normal ""
                             | _ => ToString a
                             end = Normal sx).
  { destruct a; try (eexists; reflexivity); exact (ex_intro _ sa Hsa). }
  destruct Hitem as [sx Hsx]. rewrite Hsx. simpl.
  destruct rest; [eexists; reflexivity |]. rewrite Hsr. eexists; reflexivity.
Qed.

Lemma Array_join_returns (items : list value) (sep : string) :
  forallb symbol_free items = true -> exists s, Array_join items sep = Normal s.
Proof.
  induction items as [| a rest IH]; [eexists; reflexivity |].
  simpl. intros Hsf. apply andb_prop in Hsf as [Ha Hrest].
  destruct (IH Hrest) as [sr Hsr]. destruct (ToString_returns a Ha) as [sa Hsa].
  assert (Hitem : exists sx, match a with
                             | JNull | JUndefined => Normal ""
                             | _ => ToString a
                             end = Normal sx).
  { destruct a; try (eexists; reflexivity); exact (ex_intro _ sa Hsa). }
  destruct Hitem as [sx Hsx]. rewrite Hsx. simpl.
  destruct rest; [eexists; reflexivity |]. rewrite Hsr. eexists; reflexivity.
Qed.

Lemma getAnswerDisplay_returns (answer : value) :
  symbol_free answer = true -> exists s, getAnswerDisplay answer = Normal s.
Proof.
  intros Hsf. unfold getAnswerDisplay.
  destruct (is_null answer || is_undefined answer || is_empty_string answer);
    [eexists; reflexivity |].
  unfold parseFloat. destruct (ToString_returns answer Hsf) as [s ->]. simpl.
  destruct (if is_number answer then Normal true
            else Normal (negb (Number_isNaN (parseFloat_string s)))) as [numeric |] eqn:Hn;
    [| destruct (is_number answer); discriminate].
  simpl. destruct numeric; [eexists; reflexivity |].
  destruct answer; try (eexists; reflexivity).
  apply Array_join_returns. exact Hsf.
Qed.

Lemma displays_returns (items : list value) :
  forallb symbol_free items = true -> exists ds, displays items = Normal ds.
Proof.
  induction items as [| a rest IH]; [eexists; reflexivity |].
  simpl. intros Hsf. apply andb_prop in Hsf as [Ha Hrest].
  destruct (getAnswerDisplay_returns a Ha) as [d ->]. destruct (IH Hrest) as [ds ->].
  eexists; reflexivity.
Qed.

(** X15. On a value that holds no symbol, as every value read from the record
    store, neither display function throws. *)
Theorem displays_of_stored_values_return (answer : value) :
  symbol_free answer = true ->
  (exists s, getAnswerDisplay answer = Normal s)
  /\ (exists s, getCorrectAnswerDisplay answer = Normal s).
Proof.
  intros Hsf. split; [exact (getAnswerDisplay_returns answer Hsf) |].
  unfold getCorrectAnswerDisplay.
  destruct (is_null answer || is_undefined answer); [eexists; reflexivity |].
  destruct answer; try exact (getAnswerDisplay_returns _ Hsf).
  destruct (displays_returns items Hsf) as [ds ->]. eexists; reflexivity.
Qed.

Lemma displays_of_stored_values_return_witness :
  (exists s, getAnswerDisplay (JArr [JStr "A"; JStr "B"]) = Normal s)
  /\ (exists s, getCorrectAnswerDisplay (JArr [JStr "A"; JStr "B"]) = Normal s).
Proof. apply (displays_of_stored_values_return (JArr [JStr "A"; JStr "B"])). reflexivity. Defined.

(** X16. The key of a question with one correct answer is displayed as that
    answer would be displayed, and a key or answer that is missing has its
    own text. *)
Theorem single_key_is_displayed_as_an_answer (a : value) :
  getCorrectAnswerDisplay (JArr [a]) = getAnswerDisplay a
  /\ getCorrectAnswerDisplay JNull = Normal "N/A"
  /\ getCorrectAnswerDisplay JUndefined = Normal "N/A"
  /\ getCorrectAnswerDisplay (JArr []) = Normal ""
  /\ (Spec.no_answer a -> getAnswerDisplay a = Normal "Not Answered").
Proof.
  split; [| repeat split].
  - unfold getCorrectAnswerDisplay. simpl. now destruct (getAnswerDisplay a) as [d | e].
  - intros [-> | [-> | ->]]; reflexivity.
Qed.
End Card.

(** ** The test page, over whole runs *)

Section Runs.
Import Js TestPage.
Local Open Scope list_scope.

(** X17. "Clear Response" does what changing the answer to null does. *)
Theorem clear_response_is_null_answer (now : Z) (c : bool) (w : World) :
  step now c click_clear_response w = step now c (change_answer JNull) w.
Proof. reflexivity. Qed.

(** The effects after a commit keep what the reference update, the interval
    and a call of [handleSubmitTest] by the timer keep. *)
Lemma run_effects_keeps (P : World -> Prop) (c : bool) :
  (forall w, P w -> P (set_ref (testState (page w)) w)) ->
  (forall w b, P w -> P (set_interval b w)) ->
  (forall w, P w -> P (submit_begin true c w)) ->
  forall fuel before w,
    P (set_ref (testState (page w)) w) -> P (run_effects fuel c before w).
Proof.
  intros Href Hint Hsub. induction fuel as [| fuel IH]; intros before w Hw; simpl.
  - destruct (decide _); exact Hw.
  - destruct (decide _); [exact Hw |].
    destruct (timerEffect _).
    + now apply Hint.
    + apply IH. now apply Href, Hsub, Hint.
    + now apply Hint, Hint.
Qed.

Lemma run_effects_db (fuel : nat) (c : bool) (before : State) (w : World) :
  db (run_effects fuel c before w) = db w.
Proof.
  apply (run_effects_keeps (fun w' => db w' = db w) c); auto.
  intros w' Hw'. destruct (submit_begin_keeps true c w') as [_ [-> _]]. exact Hw'.
Qed.

#[local] Arguments run_effects : simpl never.

Lemma question_id_at_item (qs : list Question) (i : Z) (qId : string) :
  question_id_at qs i = Normal qId <->
  exists q, item qs i = Some q /\ question_id q = qId.
Proof.
  unfold question_id_at. destruct (item qs i) as [q |]; split.
  - intros [= <-]. now exists q.
  - intros [q' [[= <-] <-]]. reflexivity.
  - discriminate.
  - intros [q' [Hq _]]. discriminate.
Qed.

(** The request of [saveAnswerToDB] carries the answer and the status of the
    saved state, [unanswered] standing for [not_visited]. *)
Lemma saveAnswerToDB_request (ref : gmap string QuestionState) (qId : string) :
  saveAnswerToDB ref qId
  = (fun st => upsert_response qId (selected_answer st) (dbAction (status st))) <$> ref !! qId.
Proof.
  unfold saveAnswerToDB. destruct (ref !! qId) as [st |]; [| reflexivity].
  simpl. now destruct (status st).
Qed.

Lemma saveAnswerToDB_ok (ref : gmap string QuestionState) (qId : string) (r : Request) :
  saveAnswerToDB ref qId = Some r -> request_ok r.
Proof.
  rewrite saveAnswerToDB_request. destruct (ref !! qId) as [st |]; [| discriminate].
  intros [= <-]. simpl. now destruct (status st).
Qed.

Lemma navigateToQuestion_button (s : State) (ref : gmap string QuestionState) (newIndex : Z) :
  button_handler s ref (navigateToQuestion s ref newIndex).
Proof.
  intros eff. unfold navigateToQuestion.
  destruct (_ || _ || _); [intros [= <-]; split; [constructor | now left] |].
  destruct (question_id_at _ (currentQuestionIndex s)) as [oldQId | e] eqn:Hold; simpl;
    [| discriminate].
  destruct (question_id_at _ newIndex) as [newQId | e]; simpl; [| discriminate].
  intros [= <-]. simpl. split.
  - destruct (decide _); repeat constructor.
  - right. apply question_id_at_item in Hold as [q [Hq <-]]. now exists q.
Qed.

Lemma handlers_are_buttons (w : World) (i : Input) :
  match i with
  | click_palette index _ => button_handler (page w) (testStateRef w)
                               (jumpToQuestion (page w) (testStateRef w) index)
  | click_save_next _ => button_handler (page w) (testStateRef w)
                           (handleSaveAndNext (page w) (testStateRef w))
  | click_mark_for_review _ => button_handler (page w) (testStateRef w)
                                 (handleMarkForReview (page w) (testStateRef w))
  | click_clear_response => button_handler (page w) (testStateRef w)
                              (handleClearResponse (page w))
  | change_answer v => button_handler (page w) (testStateRef w)
                         (handleAnswerChange (page w) v)
  | _ => True
  end.
Proof.
  destruct i as [| | failed | failed | index sf | sf | sf | | v]; try exact I.
  - apply navigateToQuestion_button.
  - apply navigateToQuestion_button.
  - intros eff. unfold handleMarkForReview.
    destruct (question_id_at _ _) as [qId | e]; simpl; [| discriminate].
    destruct (navigateToQuestion _ _ _) as [nav | e] eqn:Hnav; simpl; [| discriminate].
    intros [= <-]. simpl.
    destruct (navigateToQuestion_button _ _ _ nav Hnav) as [Hq Hr].
    split; [constructor; [exact I | exact Hq] | exact Hr].
  - intros eff. unfold handleClearResponse.
    destruct (question_id_at _ _) as [qId | e]; simpl; [| discriminate].
    intros [= <-]. simpl. split; [repeat constructor | now left].
  - intros eff. unfold handleAnswerChange.
    destruct (question_id_at _ _) as [qId | e]; simpl; [| discriminate].
    intros [= <-]. simpl. split; [repeat constructor | now left].
Qed.

Lemma submit_begin_awaits (by_timer c : bool) (w : World) :
  awaiting (submit_begin by_timer c w) = awaiting w
  \/ (c = true /\ isSubmitting (page w) = false
      /\ exists q, item (questions (page w)) (currentQuestionIndex (page w)) = Some q
                   /\ awaiting (submit_begin by_timer c w)
                      = Some (awaited (testStateRef w) q)).
Proof.
  unfold submit_begin, handleSubmitTest_begin. simpl.
  destruct (isSubmitting (page w)) eqn:Hs; [now left |].
  destruct c; simpl; [| now left].
  unfold question_id_at. destruct (item _ _) as [q |] eqn:Hq; simpl; [| now left].
  right. split; [reflexivity |]. split; [reflexivity |]. exists q. split; [reflexivity |].
  unfold awaited. now destruct (saveAnswerToDB _ _).
Qed.

Lemma same_test_refl (s : State) : same_test s s.
Proof. repeat split. Qed.

Lemma same_test_submitting (s s' : State) (b : bool) :
  same_test s s' -> same_test s (apply_update (setIsSubmitting b) s').
Proof. intros H. exact H. Qed.

Lemma run_effects_same_test (fuel : nat) (c : bool) (before : State) (w : World) :
  same_test (page w) (page (run_effects fuel c before w)).
Proof.
  destruct (run_effects_page fuel c before w) as [b ->].
  apply same_test_submitting, same_test_refl.
Qed.

Lemma run_effects_awaits (fuel : nat) (c : bool) (before : State) (w : World) :
  awaiting (run_effects fuel c before w) = awaiting w
  \/ (c = true
      /\ exists q, item (questions (page w)) (currentQuestionIndex (page w)) = Some q
                   /\ awaiting (run_effects fuel c before w)
                      = Some (awaited (testState (page w)) q)).
Proof.
  apply (run_effects_keeps
           (fun w' => same_test (page w) (page w')
                      /\ testStateRef w' = testState (page w)
                      /\ (awaiting w' = awaiting w
                          \/ (c = true
                              /\ exists q,
                                   item (questions (page w)) (currentQuestionIndex (page w))
                                   = Some q
                                   /\ awaiting w'
                                      = Some (awaited (testState (page w)) q))))
           c).
  - intros w' [Hs [Hr Ha]]. simpl. split; [exact Hs |]. split; [| exact Ha].
    destruct Hs as [_ [_ [Ht _]]]. exact Ht.
  - intros w' b Hw'. exact Hw'.
  - intros w' [Hs [Hr Ha]].
    destruct (submit_begin_keeps true c w') as [_ [_ Hr']].
    split; [| split; [now rewrite Hr' |]].
    + rewrite submit_begin_page. destruct (negb _ && c); [| exact Hs].
      now apply same_test_submitting.
    + destruct (submit_begin_awaits true c w') as [Hsame | [Hc [_ [q [Hq Haw]]]]].
      * rewrite Hsame. exact Ha.
      * right. split; [exact Hc |]. destruct Hs as [Hqs [Hi [Ht _]]].
        exists q. rewrite <- Hqs, <- Hi. split; [exact Hq |].
        rewrite Haw. unfold awaited. now rewrite Hr.
  - simpl. split; [apply same_test_refl |]. split; [reflexivity | now left].
Qed.

(** What the page of the next world keeps of the page before an event. *)
Lemma step_frame (now : Z) (c : bool) (i : Input) (w : World) :
  questions (page (step now c i w)) = questions (page w)
  /\ loading (page (step now c i w)) = loading (page w)
  /\ timeLeft (page (step now c i w))
     = match i with
       | tick => if interval w then timeLeft (page w) - 1 else timeLeft (page w)
       | _ => timeLeft (page w)
       end.
Proof.
  assert (Hdis : forall sf h,
            button_handler (page w) (testStateRef w) h ->
            questions (page (dispatch now sf c h w)) = questions (page w)
            /\ loading (page (dispatch now sf c h w)) = loading (page w)
            /\ timeLeft (page (dispatch now sf c h w)) = timeLeft (page w)).
  { intros sf h Hh. destruct h as [eff | e]; [| now repeat split].
    destruct (Hh eff eq_refl) as [Hq _].
    destruct (dispatch_quiet now sf c eff w Hq) as [-> _].
    destruct (apply_updates_quiet (updates eff) (page w) Hq) as [Hqs Hd].
    unfold timer_deps in Hd. injection Hd as Ht Hl _. now repeat split. }
  pose proof (handlers_are_buttons w i) as Hbutton.
  destruct i as [| | failed | failed | index sf | sf | sf | | v]; cbn [step];
    try (now apply Hdis).
  - destruct (interval w); [| now repeat split].
    unfold commit.
    match goal with |- context [run_effects 2 c ?b ?w1] =>
      destruct (run_effects_same_test 2 c b w1) as [Hq [_ [_ [Ht Hl]]]] end.
    rewrite Hq, Ht, Hl. now repeat split.
  - destruct (isSubmitting (page w)); [now repeat split |].
    match goal with |- context [run_effects 2 c ?b ?w1] =>
      destruct (run_effects_same_test 2 c b w1) as [Hq [_ [_ [Ht Hl]]]] end.
    rewrite Hq, Ht, Hl, submit_begin_page. destruct (negb _ && c); now repeat split.
  - destruct (awaiting w) as [[r |] |]; try (now repeat split).
    destruct failed; now repeat split.
  - destruct (awaiting w) as [[r |] |]; try (now repeat split).
    destruct failed; simpl; unfold commit;
      match goal with |- context [run_effects 2 c ?b ?w1] =>
        destruct (run_effects_same_test 2 c b w1) as [Hq [_ [_ [Ht Hl]]]] end;
      rewrite Hq, Ht, Hl; now repeat split.
Qed.

(** What an event writes to the store: nothing; or the save of the current
    question, sent by a button; or the request that [handleSubmitTest]
    awaits. *)
Lemma step_db (now : Z) (c : bool) (i : Input) (w : World) :
  db (step now c i w) = db w
  \/ (exists q r, item (questions (page w)) (currentQuestionIndex (page w)) = Some q
                  /\ saveAnswerToDB (testStateRef w) (question_id q) = Some r
                  /\ db (step now c i w) = perform now r (db w))
  \/ (exists r, awaiting w = Some (awaiting_save r) /\ i = save_settled false
                /\ db (step now c i w) = perform now r (db w))
  \/ (awaiting w = Some awaiting_update /\ i = update_settled false
      /\ db (step now c i w) = perform now update_attempt_completed (db w)).
Proof.
  assert (Hdis : forall sf h,
            button_handler (page w) (testStateRef w) h ->
            db (dispatch now sf c h w) = db w
            \/ (exists q r, item (questions (page w)) (currentQuestionIndex (page w)) = Some q
                            /\ saveAnswerToDB (testStateRef w) (question_id q) = Some r
                            /\ db (dispatch now sf c h w) = perform now r (db w))).
  { intros sf h Hh. destruct h as [eff | e]; [| now left].
    destruct (Hh eff eq_refl) as [_ Hr]. unfold dispatch, commit.
    rewrite run_effects_db. destruct sf; [now left |]. simpl.
    destruct Hr as [-> | [q [Hq ->]]]; [now left |].
    destruct (saveAnswerToDB _ _) as [r |] eqn:Hsave; [| now left].
    right. now exists q, r. }
  pose proof (handlers_are_buttons w i) as Hbutton.
  destruct i as [| | failed | failed | index sf | sf | sf | | v]; cbn [step];
    try (match goal with |- context [dispatch now ?sf c ?h w] =>
           destruct (Hdis sf h Hbutton) as [Hd | Hd]; [now left | right; now left] end).
  - destruct (interval w); [| now left]. unfold commit. rewrite run_effects_db. now left.
  - destruct (isSubmitting (page w)); [now left |]. rewrite run_effects_db.
    destruct (submit_begin_keeps false c w) as [_ [-> _]]. now left.
  - destruct (awaiting w) as [[r |] |]; try (now left).
    destruct failed; [now left |]. right. right. left. now exists r.
  - destruct (awaiting w) as [[r |] |]; try (now left).
    destruct failed; simpl; unfold commit; rewrite run_effects_db; [now left |].
    right. right. right. now repeat split.
Qed.

(** What an event leaves awaited: what was awaited; or the update after the
    final save settled; or nothing after the update settled; or, after an
    accepted confirmation, the final save of the current question. *)
Lemma step_awaiting (now : Z) (c : bool) (i : Input) (w : World) :
  invariant w ->
  awaiting (step now c i w) = awaiting w
  \/ (exists r, awaiting w = Some (awaiting_save r)
                /\ awaiting (step now c i w) = Some awaiting_update)
  \/ (awaiting w = Some awaiting_update /\ awaiting (step now c i w) = None)
  \/ (c = true
      /\ exists q, item (questions (page w)) (currentQuestionIndex (page w)) = Some q
                   /\ awaiting (step now c i w)
                      = Some (awaited (testState (page w)) q)).
Proof.
  intros Hw. pose proof (inv_ref w Hw) as Href.
  assert (Hdis : forall sf h,
            button_handler (page w) (testStateRef w) h ->
            awaiting (dispatch now sf c h w) = awaiting w).
  { intros sf h Hh. destruct h as [eff | e]; [| reflexivity].
    destruct (Hh eff eq_refl) as [Hq _].
    now destruct (dispatch_quiet now sf c eff w Hq) as [_ [-> _]]. }
  pose proof (handlers_are_buttons w i) as Hbutton.
  destruct i as [| | failed | failed | index sf | sf | sf | | v]; cbn [step];
    try (left; now apply Hdis).
  - destruct (interval w); [| now left]. unfold commit.
    match goal with |- context [run_effects 2 c ?b ?w1] =>
      destruct (run_effects_awaits 2 c b w1) as [Ha | [Hc [q [Hq Ha]]]] end.
    + left. exact Ha.
    + right. right. right. split; [exact Hc |]. exists q. split; [exact Hq | exact Ha].
  - destruct (isSubmitting (page w)) eqn:Hs; [now left |].
    match goal with |- context [run_effects 2 c ?b ?w1] =>
      destruct (run_effects_awaits 2 c b w1) as [Ha | [Hc [q [Hq Ha]]]] end.
    + rewrite Ha.
      destruct (submit_begin_awaits false c w) as [Hsame | [Hc [_ [q [Hq Haw]]]]];
        [now left |].
      right. right. right. split; [exact Hc |]. exists q. split; [exact Hq |].
      rewrite Haw, Href. reflexivity.
    + right. right. right. split; [exact Hc |].
      rewrite submit_begin_page, Hs, Hc in Hq, Ha. simpl in Hq, Ha. subst c.
      exists q. split; [exact Hq | exact Ha].
  - destruct (awaiting w) as [[r |] |] eqn:Ha; try (now left).
    right. left. exists r. split; [reflexivity |]. now destruct failed.
  - destruct (awaiting w) as [[r |] |] eqn:Ha; try (now left).
    destruct failed; simpl; unfold commit;
      match goal with |- context [run_effects 2 c ?b ?w1] =>
        destruct (run_effects_awaits 2 c b w1) as [Haw | [Hc [q [Hq Haw]]]] end.
    + right. right. left. split; [reflexivity | exact Haw].
    + right. right. right. split; [exact Hc |]. exists q. split; [exact Hq | exact Haw].
    + right. right. left. split; [reflexivity | exact Haw].
    + right. right. right. split; [exact Hc |]. exists q. split; [exact Hq | exact Haw].
Qed.

Lemma run_keeps (P : World -> Prop) (ok : Z * bool * Input -> Prop) :
  (forall now c i w, ok (now, c, i) -> invariant w -> P w -> P (step now c i w)) ->
  forall events w, Forall ok events -> invariant w -> P w -> P (run events w).
Proof.
  intros Hstep. induction events as [| [[now c] i] rest IH]; intros w Hok Hw HP; [exact HP |].
  apply List.Forall_cons_iff in Hok as [Hok Hrest]. simpl.
  apply IH; [exact Hrest | now apply step_invariant | now apply Hstep].
Qed.

Lemma all_events (events : list (Z * bool * Input)) : Forall (fun _ => True) events.
Proof. now apply List.Forall_forall. Qed.

Lemma loaded_db (c : bool) (qs : list Question) (dur : Z) (d : Database) :
  db (loaded c qs dur d) = d.
Proof. unfold loaded, commit. now rewrite run_effects_db. Qed.

Lemma loaded_awaiting (c : bool) (qs : list Question) (dur : Z) (d : Database) :
  awaiting (loaded c qs dur d) = None
  \/ (c = true /\ exists q, item qs 0 = Some q
                            /\ awaiting (loaded c qs dur d)
                               = Some (awaited (initialState qs) q)).
Proof.
  unfold loaded, commit.
  match goal with |- context [run_effects 2 c ?b ?w1] =>
    destruct (run_effects_awaits 2 c b w1) as [Ha | [Hc [q [Hq Ha]]]] end.
  - left. exact Ha.
  - right. split; [exact Hc |]. exists q. split; [exact Hq | exact Ha].
Qed.

(** *** The stored responses *)

Lemma perform_stored_ok (now : Z) (r : Request) (d : Database) :
  stored_ok d -> request_ok r -> stored_ok (perform now r d).
Proof.
  intros Hd Hr. destruct r as [k sel act |]; [| exact Hd].
  intros qId resp. simpl. destruct (decide (k = qId)) as [-> | Hne].
  - rewrite lookup_insert_eq. intros [= <-]. exact Hr.
  - rewrite lookup_insert_ne by exact Hne. apply Hd.
Qed.

Lemma awaited_ok (ref : gmap string QuestionState) (q : Question) (r : Request) :
  awaited ref q = awaiting_save r -> request_ok r.
Proof.
  unfold awaited. destruct (saveAnswerToDB _ _) as [r' |] eqn:Hsave; [| discriminate].
  intros [= <-]. exact (saveAnswerToDB_ok _ _ _ Hsave).
Qed.

Lemma step_store_kept (now : Z) (c : bool) (i : Input) (w : World) :
  invariant w -> store_kept w -> store_kept (step now c i w).
Proof.
  intros Hw [Hdb Haw]. split.
  - destruct (step_db now c i w)
      as [-> | [[q [r [_ [Hsave ->]]]] | [[r [Ha [_ ->]]] | [_ [_ ->]]]]].
    + exact Hdb.
    + apply perform_stored_ok; [exact Hdb | exact (saveAnswerToDB_ok _ _ _ Hsave)].
    + apply perform_stored_ok; [exact Hdb | now apply Haw].
    + exact Hdb.
  - intros r.
    destruct (step_awaiting now c i w Hw)
      as [-> | [[r' [_ ->]] | [[_ ->] | [_ [q [_ ->]]]]]]; try discriminate.
    + apply Haw.
    + intros [= Heq]. exact (awaited_ok _ _ _ Heq).
Qed.

(** X18. Whatever the user does and however the requests end, no stored response
    ever gets the action [not_visited]. *)
Theorem stored_actions_are_never_not_visited (c : bool) (fetchedQuestions : list Question)
    (duration : Z) (d : Database) (events : list (Z * bool * Input)) :
  stored_ok d -> stored_ok (db (run events (loaded c fetchedQuestions duration d))).
Proof.
  intros Hd.
  apply (run_keeps store_kept (fun _ => True)).
  - intros now c' i w _. apply step_store_kept.
  - apply all_events.
  - apply loaded_invariant.
  - split; [now rewrite loaded_db |].
    intros r. destruct (loaded_awaiting c fetchedQuestions duration d)
      as [-> | [_ [q [_ ->]]]]; [discriminate |].
    intros [= Heq]. exact (awaited_ok _ _ _ Heq).
Qed.

Lemma stored_actions_are_never_not_visited_witness :
  stored_ok
    (db (run [(1, true, change_answer (JStr "A")); (2, true, click_save_next false)]
           (loaded true Examples.page_questions 180 Examples.started))).
Proof.
  apply (stored_actions_are_never_not_visited true Examples.page_questions 180
           Examples.started).
  intros qId r. simpl. rewrite lookup_empty. discriminate.
Defined.

(** *** Submission and the confirmation *)

Lemma run_effects_declined (fuel : nat) (before : State) (w : World) :
  isSubmitting (page (run_effects fuel false before w)) = isSubmitting (page w)
  /\ awaiting (run_effects fuel false before w) = awaiting w.
Proof.
  split.
  - apply (run_effects_keeps
             (fun w' => isSubmitting (page w') = isSubmitting (page w)) false); auto.
    intros w' Hw'. rewrite submit_begin_page, andb_false_r. exact Hw'.
  - destruct (run_effects_awaits fuel false before w) as [Ha | [Hc _]];
      [exact Ha | discriminate].
Qed.

Lemma perform_save_keeps_attempt (now : Z) (ref : gmap string QuestionState) (qId : string)
    (r : Request) (d : Database) :
  saveAnswerToDB ref qId = Some r ->
  attempt_status (perform now r d) = attempt_status d
  /\ end_time (perform now r d) = end_time d.
Proof.
  rewrite saveAnswerToDB_request. destruct (ref !! qId); [| discriminate].
  intros [= <-]. now split.
Qed.

Lemma step_not_submitted (d : Database) (now : Z) (i : Input) (w : World) :
  invariant w -> not_submitted d w -> not_submitted d (step now false i w).
Proof.
  intros Hw [Hst [Hend [Haw Hsub]]].
  assert (Hawait : awaiting (step now false i w) = None).
  { destruct (step_awaiting now false i w Hw)
      as [-> | [[r [Ha _]] | [[Ha _] | [Hc _]]]]; congruence. }
  assert (Hdb : attempt_status (db (step now false i w)) = attempt_status d
                /\ end_time (db (step now false i w)) = end_time d).
  { destruct (step_db now false i w)
      as [-> | [[q [r [_ [Hsave ->]]]] | [[r [Ha _]] | [Ha _]]]]; try congruence.
    - now split.
    - destruct (perform_save_keeps_attempt now _ _ r (db w) Hsave) as [-> ->]. now split. }
  destruct Hdb as [Hst' Hend']. repeat split; try assumption.
  pose proof (handlers_are_buttons w i) as Hbutton.
  assert (Hdis : forall sf h,
            button_handler (page w) (testStateRef w) h ->
            isSubmitting (page (dispatch now sf false h w)) = false).
  { intros sf h Hh. destruct h as [eff | e]; [| exact Hsub].
    destruct (Hh eff eq_refl) as [Hq _].
    destruct (dispatch_quiet now sf false eff w Hq) as [-> _].
    destruct (apply_updates_quiet (updates eff) (page w) Hq) as [_ Hd].
    unfold timer_deps in Hd. injection Hd as _ _ ->. exact Hsub. }
  destruct i as [| | failed | failed | index sf | sf | sf | | v]; cbn [step];
    try (now apply Hdis).
  - destruct (interval w); [| exact Hsub]. unfold commit.
    match goal with |- context [run_effects 2 false ?b ?w1] =>
      destruct (run_effects_declined 2 b w1) as [-> _] end.
    exact Hsub.
  - rewrite Hsub.
    match goal with |- context [run_effects 2 false ?b ?w1] =>
      destruct (run_effects_declined 2 b w1) as [-> _] end.
    rewrite submit_begin_page, andb_false_r. exact Hsub.
  - rewrite Haw. exact Hsub.
  - rewrite Haw. exact Hsub.
Qed.

(** X19. As long as the user accepts no confirmation, the attempt is not
    completed: its status and end time stay what they were, whatever else
    happens, the timer running out included. *)
Theorem submission_needs_a_confirmation (fetchedQuestions : list Question) (duration : Z)
    (d : Database) (events : list (Z * bool * Input)) :
  Forall (fun e => snd (fst e) = false) events ->
  attempt_status (db (run events (loaded false fetchedQuestions duration d)))
  = attempt_status d
  /\ end_time (db (run events (loaded false fetchedQuestions duration d))) = end_time d
  /\ awaiting (run events (loaded false fetchedQuestions duration d)) = None
  /\ isSubmitting (page (run events (loaded false fetchedQuestions duration d))) = false.
Proof.
  intros Hev.
  apply (run_keeps (not_submitted d) (fun e => snd (fst e) = false)).
  - intros now c i w Hc. simpl in Hc. subst c. apply step_not_submitted.
  - exact Hev.
  - apply loaded_invariant.
  - unfold not_submitted. rewrite loaded_db.
    unfold loaded, commit.
    match goal with |- context [run_effects 2 false ?b ?w1] =>
      destruct (run_effects_declined 2 b w1) as [-> ->] end.
    now repeat split.
Qed.

Lemma submission_needs_a_confirmation_witness :
  attempt_status
    (db (run Examples.expiry_declined
           (loaded false Examples.page_questions 1 Examples.started)))
  = STARTED.
Proof.
  apply (submission_needs_a_confirmation Examples.page_questions 1 Examples.started
           Examples.expiry_declined).
  unfold Examples.expiry_declined. apply List.Forall_forall. intros e He.
  apply repeat_spec in He. now subst e.
Defined.

(** *** The shape of the joins *)

Lemma fetchedQuestions_cons (link : Store.Link) (links : list Store.Link) :
  fetchedQuestions (link :: links)
  = match link_question link with
    | Some q => q :: fetchedQuestions links
    | None => fetchedQuestions links
    end.
Proof. reflexivity. Qed.

Lemma link_question_exclusive (link : Store.Link) :
  link_question link = None \/ ReportPage.link_question link = None.
Proof.
  unfold link_question, ReportPage.link_question.
  destruct (Store.Questions link) as [| q | items]; auto.
Qed.

Lemma array_joined_not_fetched (links : list Store.Link) :
  Forall Spec.array_joined links -> fetchedQuestions links = [].
Proof.
  induction 1 as [| link rest Hlink _ IH]; [reflexivity |].
  rewrite fetchedQuestions_cons, IH. unfold link_question, Spec.array_joined in *.
  destruct (Store.Questions link); [reflexivity | contradiction | reflexivity].
Qed.

(** X20. The test page and the report page read joins of different shapes: a
    link gives a question to at most one of them. So the two pages together
    show no more questions than there are links, and when the test page has
    a question for every link the report lists none. *)
Theorem pages_read_joins_of_different_shapes (name : string)
    (userAnswers : list Store.AnswerRow) (questionLinks : list Store.Link)
    (r : ReportPage.ReportData) :
  ReportPage.generateReport name userAnswers questionLinks = Normal r ->
  (length (fetchedQuestions questionLinks) + length (ReportPage.questions r)
   <= length questionLinks)%nat
  /\ (length (fetchedQuestions questionLinks) = length questionLinks ->
      ReportPage.questions r = [])
  /\ (Forall Spec.array_joined questionLinks -> fetchedQuestions questionLinks = []).
Proof.
  intros Hgen.
  assert (Hlen : length (ReportPage.questions r)
                 = length (omap (Buckets.listing (Store.answerMap userAnswers))
                             questionLinks)).
  { unfold ReportPage.generateReport in Hgen.
    destruct (ReportPage.report_loop _ _ questionLinks) as [r0 |] eqn:Hloop; simpl in Hgen;
      [| discriminate].
    injection Hgen as <-. simpl.
    pose proof (report_loop_listing _ _ _ _ Hloop) as Hl.
    apply (f_equal (@length _)) in Hl. now rewrite length_map in Hl. }
  assert (Hsum : (length (fetchedQuestions questionLinks)
                  + length (omap (Buckets.listing (Store.answerMap userAnswers))
                              questionLinks)
                  <= length questionLinks)%nat).
  { clear. induction questionLinks as [| link rest IH]; [reflexivity |].
    rewrite fetchedQuestions_cons.
    change (omap ?f (link :: rest))
      with (match f link with Some y => y :: omap f rest | None => omap f rest end).
    unfold Buckets.listing at 1.
    destruct (link_question_exclusive link) as [-> | ->]; simpl length.
    - destruct (ReportPage.link_question link); simpl length; lia.
    - destruct (link_question link); simpl length; lia. }
  split; [lia |]. split; [| apply array_joined_not_fetched].
  intros Hall. destruct (ReportPage.questions r); [reflexivity | simpl in Hlen; lia].
Qed.

Lemma pages_read_joins_of_different_shapes_witness :
  (length (fetchedQuestions Examples.scenario_links)
   + length (ReportPage.questions Examples.scenario_report)
   <= length Examples.scenario_links)%nat.
Proof.
  refine (proj1 (pages_read_joins_of_different_shapes "Mock test" Examples.scenario_answers
                   Examples.scenario_links Examples.scenario_report _)).
  vm_compute. reflexivity.
Defined.

(** *** A test without questions *)

Lemma item_nil {A : Type} (i : Z) : item (@nil A) i = None.
Proof. unfold item. destruct (i <? 0); [reflexivity |]. now destruct (Z.to_nat i). Qed.

Lemma step_nothing_to_do (d : Database) (now : Z) (c : bool) (i : Input) (w : World) :
  invariant w -> nothing_to_do d w -> nothing_to_do d (step now c i w).
Proof.
  intros Hw [Hqs [Hdb Haw]].
  destruct (step_frame now c i w) as [Hqs' _]. split; [congruence |]. split.
  - destruct (step_db now c i w)
      as [-> | [[q [r [Hq _]]] | [[r [Ha _]] | [Ha _]]]]; try congruence.
    rewrite Hqs, item_nil in Hq. discriminate.
  - destruct (step_awaiting now c i w Hw)
      as [-> | [[r [Ha _]] | [[Ha _] | [_ [q [Hq _]]]]]]; try congruence.
    rewrite Hqs, item_nil in Hq. discriminate.
Qed.

(** X21. When every join of the links is an array, the shape that the report
    page reads, the test page loads without a question, and whatever happens
    on it, nothing is ever written to the store: no answer is saved and the
    attempt is never completed. *)
Theorem test_of_array_joins_cannot_be_taken (c : bool) (session : option string)
    (attempt : Store.fetched Store.AttemptRow) (questionLinks : list Store.Link)
    (d : Database) (w : World) (events : list (Z * bool * Input)) :
  Forall Spec.array_joined questionLinks ->
  fetchTestData c session attempt (Store.fetch_data questionLinks) d = ready w ->
  questions (page (run events w)) = []
  /\ db (run events w) = d
  /\ awaiting (run events w) = None.
Proof.
  intros Hlinks Hfetch. unfold fetchTestData in Hfetch.
  destruct session as [user |]; [| discriminate].
  destruct attempt as [attemptData | m]; [| discriminate].
  injection Hfetch as <-. rewrite (array_joined_not_fetched _ Hlinks).
  apply (run_keeps (nothing_to_do d) (fun _ => True)).
  - intros now c' i w _. apply step_nothing_to_do.
  - apply all_events.
  - apply loaded_invariant.
  - split; [| split].
    + unfold loaded, commit.
      match goal with |- context [run_effects 2 c ?b ?w1] =>
        destruct (run_effects_same_test 2 c b w1) as [-> _] end.
      reflexivity.
    + apply loaded_db.
    + destruct (loaded_awaiting c [] (duration (Store.Tests attemptData)) d)
        as [Ha | [_ [q [Hq _]]]]; [exact Ha |].
      rewrite item_nil in Hq. discriminate.
Qed.

Lemma test_of_array_joins_cannot_be_taken_witness :
  db (run [(1, true, click_submit); (2, true, update_settled false)]
        (loaded true [] 180 Examples.started))
  = Examples.started.
Proof.
  apply (test_of_array_joins_cannot_be_taken true (Some "user")
           (Store.fetch_data
              {| Store.test_id := "t"; Store.user_id := "user"; Store.Tests := Store.TestsNull |})
           Examples.scenario_links Examples.started).
  - repeat constructor.
  - reflexivity.
Defined.

(** *** The current question *)

Lemma dispatch_world (now : Z) (sf c : bool) (eff : Effects) (w : World) :
  Forall quiet (updates eff) ->
  dispatch now sf c (Normal eff) w
  = set_ref (testState (apply_updates (updates eff) (page w)))
      (set_page (apply_updates (updates eff) (page w))
         (if sf then show (map (fun _ => console_error_save) (requests eff)) w
          else set_db (fold_left (fun d r => perform now r d) (requests eff) (db w)) w)).
Proof.
  intros Hq. unfold dispatch.
  destruct (apply_updates_quiet (updates eff) (page w) Hq) as [_ Hd].
  rewrite run_effects_same_page by (destruct sf; simpl; exact Hd).
  now destruct sf.
Qed.

Lemma initial_states (qs : list Question) (m : gmap string QuestionState) (k : string) :
  fold_left (fun m q => <[question_id q := fresh_state]> m) qs m !! k
  = if decide (k ∈ map question_id qs) then Some fresh_state else m !! k.
Proof.
  revert m. induction qs as [| q qs IH]; intros m; [reflexivity |].
  simpl fold_left. rewrite IH. simpl map.
  destruct (decide (k ∈ map question_id qs)) as [Hin | Hout].
  - destruct (decide _) as [_ | Hno]; [reflexivity |]. exfalso. apply Hno.
    apply elem_of_cons. now right.
  - destruct (decide (question_id q = k)) as [<- | Hne].
    + rewrite lookup_insert_eq.
      destruct (decide _) as [_ | Hno]; [reflexivity |]. exfalso. apply Hno.
      apply elem_of_cons. now left.
    + rewrite lookup_insert_ne by exact Hne.
      destruct (decide _) as [Hin | _]; [| reflexivity].
      apply elem_of_cons in Hin as [Heq | Hin]; [congruence | contradiction].
Qed.

(** The question states that [fetchTestData] sets: the first question, and
    any other with its id, starts as [unanswered], every other question as
    [not_visited], all without an answer. *)
Lemma initialState_lookup (qs : list Question) (k : string) :
  initialState qs !! k
  = if decide (k ∈ map question_id qs) then
      Some (if decide (Some k = question_id <$> head qs)
            then with_status unanswered fresh_state else fresh_state)
    else None.
Proof.
  unfold initialState. destruct qs as [| q0 rest].
  - simpl. now rewrite lookup_empty.
  - remember (q0 :: rest) as qs eqn:Hqs.
    replace (head qs) with (Some q0) by now subst qs. simpl.
    destruct (decide (question_id q0 = k)) as [<- | Hne].
    + rewrite lookup_alter_eq, initial_states.
      destruct (decide _) as [_ | Hno].
      * simpl. destruct (decide _) as [_ | Hno]; [reflexivity | congruence].
      * exfalso. apply Hno. subst qs. apply elem_of_cons. now left.
    + rewrite lookup_alter_ne by exact Hne. rewrite initial_states, lookup_empty.
      destruct (decide _) as [_ |]; [| reflexivity].
      destruct (decide _) as [Heq | _]; [congruence | reflexivity].
Qed.

Lemma item_zero {A : Type} (l : list A) : item l 0 = head l.
Proof. unfold item. simpl. now destruct l. Qed.

Lemma loaded_page (c : bool) (qs : list Question) (dur : Z) (d : Database) :
  questions (page (loaded c qs dur d)) = qs
  /\ currentQuestionIndex (page (loaded c qs dur d)) = 0
  /\ testState (page (loaded c qs dur d)) = initialState qs
  /\ timeLeft (page (loaded c qs dur d)) = dur * 60
  /\ loading (page (loaded c qs dur d)) = false.
Proof.
  unfold loaded, commit.
  match goal with |- context [run_effects 2 c ?b ?w1] =>
    destruct (run_effects_same_test 2 c b w1) as [-> [-> [-> [-> ->]]]] end.
  now repeat split.
Qed.

Lemma loaded_current_visited (c : bool) (qs : list Question) (dur : Z) (d : Database) :
  current_visited (page (loaded c qs dur d)).
Proof.
  destruct (loaded_page c qs dur d) as [Hq [Hi [Ht _]]].
  intros q. rewrite Hq, Hi, Ht, item_zero. intros Hhead.
  unfold visited. rewrite initialState_lookup, Hhead. simpl.
  destruct (decide _) as [_ | Hno].
  - destruct (decide _) as [_ | Hno]; [| congruence].
    eexists. split; [reflexivity | discriminate].
  - exfalso. apply Hno. destruct qs as [| q0 rest]; [discriminate |].
    injection Hhead as ->. apply elem_of_cons. now left.
Qed.

(** What the setter calls of a navigation make of a state that has the
    position of the render, and at least its visited questions. *)
Lemma navigate_current_visited (s s0 : State) (ref : gmap string QuestionState)
    (newIndex : Z) (eff : Effects) :
  index_ok s -> current_visited s ->
  navigateToQuestion s ref newIndex = Normal eff ->
  questions s0 = questions s -> currentQuestionIndex s0 = currentQuestionIndex s ->
  (forall k, visited (testState s) k -> visited (testState s0) k) ->
  current_visited (apply_updates (updates eff) s0).
Proof.
  intros Hok Hcur Hnav Hqs Hidx Hvis.
  destruct (item (questions s) newIndex) as [target |] eqn:Htarget.
  2:{ rewrite navigateToQuestion_stays in Hnav by auto. injection Hnav as <-.
      intros q. simpl. rewrite Hqs, Hidx. intros Hq. now apply Hvis, Hcur. }
  destruct (decide (newIndex = currentQuestionIndex s)) as [Heq | Hne].
  { rewrite navigateToQuestion_stays in Hnav by auto. injection Hnav as <-.
    intros q. simpl. rewrite Hqs, Hidx. intros Hq. now apply Hvis, Hcur. }
  destruct (current_question s newIndex target Hok Htarget) as [old Hold].
  rewrite (navigateToQuestion_moves s ref newIndex old target Hold Htarget Hne) in Hnav.
  injection Hnav as <-. cbn [updates].
  destruct (decide _) as [Hnew | Hseen]; intros q; simpl; rewrite Hqs, Htarget;
    intros [= <-].
  - eexists. rewrite lookup_insert_eq. split; [reflexivity | discriminate].
  - now apply Hvis, visited_status.
Qed.

(** The events that are not clicks on the buttons of a question keep the
    position and the question states. *)
Lemma step_static (now : Z) (c : bool) (i : Input) (w : World) :
  match i with
  | tick | click_submit | save_settled _ | update_settled _ =>
      currentQuestionIndex (page (step now c i w)) = currentQuestionIndex (page w)
      /\ testState (page (step now c i w)) = testState (page w)
  | _ => True
  end.
Proof.
  destruct i as [| | failed | failed | index sf | sf | sf | | v]; cbn [step]; try exact I.
  - destruct (interval w); [| now split]. unfold commit.
    match goal with |- context [run_effects 2 c ?b ?w1] =>
      destruct (run_effects_same_test 2 c b w1) as [_ [-> [-> _]]] end.
    now split.
  - destruct (isSubmitting (page w)); [now split |].
    match goal with |- context [run_effects 2 c ?b ?w1] =>
      destruct (run_effects_same_test 2 c b w1) as [_ [-> [-> _]]] end.
    rewrite submit_begin_page. destruct (negb _ && c); now split.
  - destruct (awaiting w) as [[r |] |]; try (now split). destruct failed; now split.
  - destruct (awaiting w) as [[r |] |]; try (now split).
    destruct failed; simpl; unfold commit;
      match goal with |- context [run_effects 2 c ?b ?w1] =>
        destruct (run_effects_same_test 2 c b w1) as [_ [-> [-> _]]] end;
      now split.
Qed.

Lemma step_current_visited (now : Z) (c : bool) (i : Input) (w : World) :
  invariant w -> current_visited (page w) -> current_visited (page (step now c i w)).
Proof.
  intros Hw Hcur. pose proof (inv_index w Hw) as Hok.
  destruct (step_frame now c i w) as [Hqs _].
  pose proof (step_static now c i w) as Hstatic.
  pose proof (fun k => step_visited now c i w k) as Hvis.
  assert (Hsame : currentQuestionIndex (page (step now c i w)) = currentQuestionIndex (page w)
                  -> current_visited (page (step now c i w))).
  { intros Hidx q. rewrite Hqs, Hidx. intros Hq. now apply Hvis, Hcur. }
  assert (Hdis : forall sf h,
            (forall eff, h = Normal eff ->
               Forall quiet (updates eff)
               /\ current_visited (apply_updates (updates eff) (page w))) ->
            current_visited (page (dispatch now sf c h w))).
  { intros sf h Hh. destruct h as [eff | e]; [| exact Hcur].
    destruct (Hh eff eq_refl) as [Hq Hv]. now rewrite (dispatch_world now sf c eff w Hq). }
  assert (Hnav : forall newIndex eff,
            navigateToQuestion (page w) (testStateRef w) newIndex = Normal eff ->
            Forall quiet (updates eff)
            /\ current_visited (apply_updates (updates eff) (page w))).
  { intros newIndex eff Hnav.
    destruct (navigateToQuestion_button _ _ _ eff Hnav) as [Hq _]. split; [exact Hq |].
    now apply (navigate_current_visited (page w) (page w) (testStateRef w) newIndex). }
  destruct i as [| | failed | failed | index sf | sf | sf | | v];
    try (apply Hsame; apply Hstatic); cbn [step]; apply Hdis; intros eff.
  - apply Hnav.
  - apply Hnav.
  - unfold handleMarkForReview.
    destruct (question_id_at _ _) as [qId | e]; simpl; [| discriminate].
    destruct (navigateToQuestion _ _ _) as [nav | e] eqn:Hnavigate; simpl; [| discriminate].
    intros [= <-].
    destruct (navigateToQuestion_button _ _ _ nav Hnavigate) as [Hq _].
    split; [constructor; [exact I | exact Hq] |]. cbn [updates].
    change (apply_updates (?u :: ?us) ?s) with (apply_updates us (apply_update u s)).
    apply (navigate_current_visited (page w) _ (testStateRef w)
             (currentQuestionIndex (page w) + 1)); auto.
    intros k. simpl. apply insert_visited. simpl. discriminate.
  - unfold handleClearResponse.
    destruct (question_id_at _ _) as [qId | e]; simpl; [| discriminate].
    intros [= <-]. split; [repeat constructor |].
    intros q. simpl. intros Hq. apply insert_visited; [simpl; discriminate | now apply Hcur].
  - unfold handleAnswerChange.
    destruct (question_id_at _ _) as [qId | e]; simpl; [| discriminate].
    intros [= <-]. split; [repeat constructor |].
    intros q. simpl. intros Hq.
    apply insert_visited; [simpl; destruct (_ && _); discriminate | now apply Hcur].
Qed.

Lemma reachable_current_visited (w : World) : reachable w -> current_visited (page w).
Proof.
  induction 1 as [c qs dur d | now c i w Hw IH].
  - apply loaded_current_visited.
  - apply step_current_visited; [now apply reachable_invariant | exact IH].
Qed.

(** X22. The current question has a state of its own, and the question
    palette never shows it as not visited. *)
Theorem current_question_is_never_not_visited (w : World) (q : Question) :
  reachable w ->
  item (questions (page w)) (currentQuestionIndex (page w)) = Some q ->
  testState (page w) !! question_id q = Some (getQuestionState (page w) (question_id q))
  /\ testStateRef w !! question_id q = Some (getQuestionState (page w) (question_id q))
  /\ status (getQuestionState (page w) (question_id q)) <> not_visited.
Proof.
  intros Hw Hq.
  destruct (reachable_current_visited w Hw q Hq) as [st [Hst Hv]].
  rewrite (inv_ref w (reachable_invariant w Hw)).
  unfold getQuestionState. rewrite Hst. now repeat split.
Qed.

Lemma current_question_is_never_not_visited_witness :
  status
    (getQuestionState
       (page (step 5 true (click_palette 1 false) Examples.fresh_page)) "q3")
  <> not_visited.
Proof.
  apply (current_question_is_never_not_visited
           (step 5 true (click_palette 1 false) Examples.fresh_page)
           {| question_id := "q3"; question_type := "NUMERICAL"; question_number := 2 |}).
  - apply reachable_step. apply reachable_loaded.
  - reflexivity.
Defined.

(** *** Leaving a question *)

Lemma save_of_visited (ref : gmap string QuestionState) (qId : string) (st : QuestionState) :
  ref !! qId = Some st -> status st <> not_visited ->
  saveAnswerToDB ref qId = Some (upsert_response qId (selected_answer st) (status st)).
Proof.
  intros Hst Hv. rewrite saveAnswerToDB_request, Hst. simpl.
  destruct (status st); [contradiction | reflexivity | reflexivity | reflexivity].
Qed.

(** X23. A navigation to another question sends the save of the question left,
    with its answer and its status as they are on the page; the stand-in
    for [not_visited] is never needed. A save that fails is logged and
    changes nothing else: the page moves on all the same. *)
Theorem navigation_saves_the_question_left (w : World) (now : Z) (c : bool) (index : Z)
    (current target : Question) :
  reachable w ->
  item (questions (page w)) (currentQuestionIndex (page w)) = Some current ->
  item (questions (page w)) index = Some target ->
  index <> currentQuestionIndex (page w) ->
  let st := getQuestionState (page w) (question_id current) in
  db (step now c (click_palette index false) w)
  = perform now (upsert_response (question_id current) (selected_answer st) (status st))
      (db w)
  /\ responses (db (step now c (click_palette index false) w)) !! question_id current
     = Some {| resp_selected_answer := selected_answer st; resp_action := status st |}
  /\ status st <> not_visited
  /\ db (step now c (click_palette index true) w) = db w
  /\ shown (step now c (click_palette index true) w) = shown w ++ [console_error_save]
  /\ page (step now c (click_palette index true) w)
     = page (step now c (click_palette index false) w).
Proof.
  intros Hw Hcur Htarget Hne st.
  pose proof (reachable_invariant w Hw) as Hinv.
  destruct (reachable_current_visited w Hw current Hcur) as [st' [Hst Hv]].
  assert (Hst' : st = st') by (unfold st, getQuestionState; now rewrite Hst).
  subst st'. cbn [step]. unfold jumpToQuestion.
  pose proof (navigateToQuestion_moves (page w) (testStateRef w) index current target
                Hcur Htarget Hne) as Hnav.
  destruct (navigateToQuestion_button _ _ _ _ Hnav) as [Hq _].
  rewrite Hnav, !(dispatch_world now _ c _ w Hq). cbn [requests].
  rewrite (inv_ref w Hinv), (save_of_visited _ _ st Hst Hv). simpl.
  rewrite lookup_insert_eq. now repeat split.
Qed.

Lemma navigation_saves_the_question_left_witness :
  responses
    (db (step 2 true (click_palette 1 false)
           (step 1 true (change_answer (JStr "A")) Examples.fresh_page))) !! "q1"
  = Some {| resp_selected_answer := JStr "A"; resp_action := answered |}.
Proof.
  refine (proj1 (proj2
    (navigation_saves_the_question_left
       (step 1 true (change_answer (JStr "A")) Examples.fresh_page) 2 true 1
       {| question_id := "q1"; question_type := "SINGLE_CHOICE"; question_number := 1 |}
       {| question_id := "q3"; question_type := "NUMERICAL"; question_number := 2 |}
       _ _ _ _))).
  - apply reachable_step. apply reachable_loaded.
  - reflexivity.
  - reflexivity.
  - discriminate.
Defined.

(** X24. "Mark for Review & Next" marks the current question on the page, but
    the save it sends reads the state of the last render: the stored action
    is the status the question had before it was marked. On the last
    question nothing is sent at all. *)
Theorem mark_for_review_saves_the_status_before (w : World) (now : Z) (c : bool)
    (current : Question) :
  reachable w ->
  item (questions (page w)) (currentQuestionIndex (page w)) = Some current ->
  let st := getQuestionState (page w) (question_id current) in
  let w' := step now c (click_mark_for_review false) w in
  testState (page w') !! question_id current = Some (with_status marked_for_review st)
  /\ (forall next,
        item (questions (page w)) (currentQuestionIndex (page w) + 1) = Some next ->
        currentQuestionIndex (page w') = currentQuestionIndex (page w) + 1
        /\ responses (db w') !! question_id current
           = Some {| resp_selected_answer := selected_answer st; resp_action := status st |})
  /\ (item (questions (page w)) (currentQuestionIndex (page w) + 1) = None ->
      currentQuestionIndex (page w') = currentQuestionIndex (page w) /\ db w' = db w).
Proof.
  intros Hw Hcur st w'.
  pose proof (reachable_invariant w Hw) as Hinv.
  destruct (reachable_current_visited w Hw current Hcur) as [st' [Hst Hv]].
  assert (Hst' : st = st') by (unfold st, getQuestionState; now rewrite Hst).
  subst st'.
  assert (Hid : question_id_at (questions (page w)) (currentQuestionIndex (page w))
                = Normal (question_id current)).
  { unfold question_id_at. now rewrite Hcur. }
  assert (Hold : default (getQuestionState (page w) (question_id current))
                   (testState (page w) !! question_id current) = st).
  { apply getQuestionState_default. }
  unfold w'. cbn [step]. unfold handleMarkForReview. rewrite Hid. cbn [Js.bind].
  destruct (item (questions (page w)) (currentQuestionIndex (page w) + 1)) as [next |]
    eqn:Hnext.
  - pose proof (navigateToQuestion_moves (page w) (testStateRef w)
                  (currentQuestionIndex (page w) + 1) current next Hcur Hnext
                  ltac:(lia)) as Hnav.
    destruct (navigateToQuestion_button _ _ _ _ Hnav) as [Hq _].
    rewrite Hnav. cbn [Js.bind].
    rewrite dispatch_world by (constructor; [exact I | exact Hq]). cbn [requests updates].
    rewrite (inv_ref w Hinv), (save_of_visited _ _ st Hst Hv).
    destruct (decide (status (getQuestionState (page w) (question_id next)) = not_visited))
      as [Hnew | Hseen]; simpl; rewrite Hold, ?lookup_insert_eq.
    + assert (Hdiff : question_id next <> question_id current).
      { intros Heq. rewrite Heq in Hnew. contradiction. }
      rewrite lookup_insert_ne by exact Hdiff. rewrite lookup_insert_eq.
      split; [reflexivity |]. split; [| discriminate].
      intros next' [= <-]. now split.
    + split; [reflexivity |]. split; [| discriminate].
      intros next' [= <-]. now split.
  - rewrite navigateToQuestion_stays by auto. cbn [Js.bind].
    rewrite dispatch_world by repeat constructor. simpl. rewrite Hold, lookup_insert_eq.
    split; [reflexivity |]. split; [discriminate |]. intros _. now split.
Qed.

Lemma mark_for_review_saves_the_status_before_witness :
  testState
    (page (step 2 true (click_mark_for_review false)
             (step 1 true (change_answer (JStr "A")) Examples.fresh_page))) !! "q1"
  = Some {| status := marked_for_review; selected_answer := JStr "A"; time_taken_sec := 0 |}.
Proof.
  refine (proj1
    (mark_for_review_saves_the_status_before
       (step 1 true (change_answer (JStr "A")) Examples.fresh_page) 2 true
       {| question_id := "q1"; question_type := "SINGLE_CHOICE"; question_number := 1 |}
       _ _)).
  - apply reachable_step. apply reachable_loaded.
  - reflexivity.
Defined.

(** *** The countdown *)

Lemma step_timeLeft_le (now : Z) (c : bool) (i : Input) (w : World) :
  invariant w ->
  timeLeft (page w) - 1 <= timeLeft (page (step now c i w)) <= timeLeft (page w)
  /\ (0 <= timeLeft (page w) -> 0 <= timeLeft (page (step now c i w))).
Proof.
  intros Hw. destruct (step_frame now c i w) as [_ [_ ->]].
  destruct i; try lia.
  destruct (interval w) eqn:Hi; [| lia].
  destruct (interval_running w Hw Hi) as [_ Hpos]. lia.
Qed.

Lemma run_timeLeft (events : list (Z * bool * Input)) (w : World) :
  invariant w ->
  timeLeft (page w) - Z.of_nat (length events) <= timeLeft (page (run events w))
  /\ timeLeft (page (run events w)) <= timeLeft (page w)
  /\ (0 <= timeLeft (page w) -> 0 <= timeLeft (page (run events w))).
Proof.
  revert w. induction events as [| [[now c] i] rest IH]; intros w Hw.
  - simpl. lia.
  - destruct (step_timeLeft_le now c i w Hw) as [Hstep Hpos].
    destruct (IH (step now c i w) (step_invariant now c i w Hw)) as [Hlo [Hhi Hnn]].
    cbn [run]. simpl length. lia.
Qed.

(** X25. The time left never goes up and falls by at most one second an event;
    on a test of a duration that is not negative it starts at sixty seconds
    a minute and never falls below zero, and the interval is held only
    while time is left. *)
Theorem countdown_stays_in_range (c : bool) (fetchedQuestions : list Question)
    (duration : Z) (d : Database) (events more : list (Z * bool * Input)) :
  0 <= duration ->
  let w := run events (loaded c fetchedQuestions duration d) in
  0 <= timeLeft (page w) <= duration * 60
  /\ duration * 60 - Z.of_nat (length events) <= timeLeft (page w)
  /\ timeLeft (page (run more w)) <= timeLeft (page w)
  /\ (interval w = true -> 0 < timeLeft (page w)).
Proof.
  intros Hdur w.
  pose proof (loaded_invariant c fetchedQuestions duration d) as Hload.
  destruct (loaded_page c fetchedQuestions duration d) as [_ [_ [_ [Ht _]]]].
  destruct (run_timeLeft events _ Hload) as [Hlo [Hhi Hnn]]. fold w in Hlo, Hhi, Hnn.
  assert (Hw : invariant w).
  { apply reachable_invariant, reachable_run, reachable_loaded. }
  destruct (run_timeLeft more w Hw) as [_ [Hmore _]].
  rewrite Ht in *. repeat split; try lia.
  intros Hi. now destruct (interval_running w Hw Hi).
Qed.

Lemma countdown_stays_in_range_witness :
  0 <= timeLeft (page (run Examples.expiry_declined
                         (loaded false Examples.page_questions 1 Examples.started)))
    <= 1 * 60.
Proof.
  refine (proj1 (countdown_stays_in_range false Examples.page_questions 1 Examples.started
                   Examples.expiry_declined [] _)).
  lia.
Defined.

(** *** No handler throws *)

Lemma no_uncaught_show (us : list Ui) (w : World) :
  no_uncaught w -> Forall (fun u => is_uncaught u = false) us -> no_uncaught (show us w).
Proof. intros Hw Hus. unfold no_uncaught. simpl. apply Forall_app. now split. Qed.

Lemma current_question_id (s : State) :
  questions s <> [] -> index_ok s ->
  exists q, item (questions s) (currentQuestionIndex s) = Some q
            /\ question_id_at (questions s) (currentQuestionIndex s)
               = Normal (question_id q).
Proof.
  intros Hqs [Hlo Hhi].
  destruct (item_in_range (questions s) (currentQuestionIndex s)) as [q Hq];
    [split; [exact Hlo | now apply Hhi] |].
  exists q. split; [exact Hq |]. unfold question_id_at. now rewrite Hq.
Qed.

Lemma submit_begin_never_thrown (by_timer c : bool) (w : World) :
  never_thrown w -> never_thrown (submit_begin by_timer c w).
Proof.
  intros [Hqs [Hok Hlog]]. unfold never_thrown. rewrite submit_begin_page.
  split; [now destruct (negb _ && c) |]. split; [now destruct (negb _ && c) |].
  unfold submit_begin, handleSubmitTest_begin. simpl.
  destruct (isSubmitting (page w));
    [apply (no_uncaught_show _ w Hlog); now repeat constructor |].
  destruct c; simpl.
  2:{ unfold no_uncaught. simpl. rewrite <- app_assoc.
      apply Forall_app. split; [exact Hlog | now repeat constructor]. }
  destruct (current_question_id (page w) Hqs Hok) as [q [_ ->]]. simpl.
  destruct (saveAnswerToDB _ _); unfold no_uncaught; simpl; rewrite <- app_assoc;
    (apply Forall_app; split; [exact Hlog | now repeat constructor]).
Qed.

Lemma run_effects_never_thrown (fuel : nat) (c : bool) (before : State) (w : World) :
  never_thrown w -> never_thrown (run_effects fuel c before w).
Proof.
  intros Hw. apply (run_effects_keeps never_thrown c); auto.
  intros w'. apply submit_begin_never_thrown.
Qed.

Lemma navigateToQuestion_returns (s : State) (ref : gmap string QuestionState)
    (newIndex : Z) :
  index_ok s -> exists eff, navigateToQuestion s ref newIndex = Normal eff.
Proof.
  intros Hok.
  destruct (item (questions s) newIndex) as [target |] eqn:Htarget.
  2:{ rewrite navigateToQuestion_stays by auto. now eexists. }
  destruct (decide (newIndex = currentQuestionIndex s)) as [Heq | Hne].
  { rewrite navigateToQuestion_stays by auto. now eexists. }
  destruct (current_question s newIndex target Hok Htarget) as [old Hold].
  rewrite (navigateToQuestion_moves s ref newIndex old target Hold Htarget Hne).
  now eexists.
Qed.

Lemma handlers_return (w : World) (i : Input) :
  questions (page w) <> [] -> index_ok (page w) ->
  match i with
  | click_palette index _ => exists eff, jumpToQuestion (page w) (testStateRef w) index
                                         = Normal eff
  | click_save_next _ => exists eff, handleSaveAndNext (page w) (testStateRef w) = Normal eff
  | click_mark_for_review _ =>
      exists eff, handleMarkForReview (page w) (testStateRef w) = Normal eff
  | click_clear_response => exists eff, handleClearResponse (page w) = Normal eff
  | change_answer v => exists eff, handleAnswerChange (page w) v = Normal eff
  | _ => True
  end.
Proof.
  intros Hqs Hok. destruct (current_question_id (page w) Hqs Hok) as [q [_ Hid]].
  destruct i as [| | failed | failed | index sf | sf | sf | | v]; try exact I.
  - now apply navigateToQuestion_returns.
  - now apply navigateToQuestion_returns.
  - unfold handleMarkForReview. rewrite Hid. cbn [Js.bind].
    destruct (navigateToQuestion_returns (page w) (testStateRef w)
                (currentQuestionIndex (page w) + 1) Hok) as [nav ->].
    now eexists.
  - unfold handleClearResponse. rewrite Hid. now eexists.
  - unfold handleAnswerChange. rewrite Hid. now eexists.
Qed.

Lemma step_never_thrown (now : Z) (c : bool) (i : Input) (w : World) :
  invariant w -> never_thrown w -> never_thrown (step now c i w).
Proof.
  intros Hw [Hqs [Hok Hlog]].
  destruct (step_frame now c i w) as [Hsame _].
  split; [now rewrite Hsame |].
  split; [exact (inv_index _ (step_invariant now c i w Hw)) |].
  assert (Heff : forall before w1, never_thrown w1 ->
                   no_uncaught (run_effects 2 c before w1)).
  { intros before w1 Hw1. now apply run_effects_never_thrown. }
  assert (Hdis : forall sf h,
            (exists eff, h = Normal eff) -> button_handler (page w) (testStateRef w) h ->
            no_uncaught (dispatch now sf c h w)).
  { intros sf h [eff ->] Hh. destruct (Hh eff eq_refl) as [Hquiet _].
    rewrite (dispatch_world now sf c eff w Hquiet).
    destruct sf; [| exact Hlog].
    apply (no_uncaught_show _ w Hlog). apply List.Forall_forall.
    intros u Hu. apply in_map_iff in Hu as [r [<- _]]. reflexivity. }
  pose proof (handlers_return w i Hqs Hok) as Hret.
  pose proof (handlers_are_buttons w i) as Hbutton.
  destruct i as [| | failed | failed | index sf | sf | sf | | v]; cbn [step];
    try (now apply Hdis).
  - destruct (interval w); [| exact Hlog]. unfold commit. apply Heff.
    split; [exact Hqs | split; [exact Hok | exact Hlog]].
  - destruct (isSubmitting (page w)); [exact Hlog |]. apply Heff.
    apply submit_begin_never_thrown. split; [exact Hqs | split; [exact Hok | exact Hlog]].
  - destruct (awaiting w) as [[r |] |]; try exact Hlog.
    destruct failed; [| exact Hlog].
    apply (no_uncaught_show _ w Hlog). now repeat constructor.
  - destruct (awaiting w) as [[r |] |]; try exact Hlog.
    destruct failed; simpl; unfold commit; apply Heff.
    + split; [exact Hqs |]. split; [exact Hok |].
      apply (no_uncaught_show _ w Hlog). now repeat constructor.
    + split; [exact Hqs |]. split; [exact Hok |]. unfold no_uncaught. simpl.
      apply Forall_app. split; [exact Hlog | now repeat constructor].
Qed.

(** X26. On a page with at least one question no handler ever throws, whatever
    the user clicks and however the requests end. *)
Theorem handlers_never_throw (c : bool) (fetchedQuestions : list Question) (duration : Z)
    (d : Database) (events : list (Z * bool * Input)) :
  fetchedQuestions <> [] ->
  no_uncaught (run events (loaded c fetchedQuestions duration d)).
Proof.
  intros Hqs.
  assert (Hrun : never_thrown (run events (loaded c fetchedQuestions duration d))).
  { apply (run_keeps never_thrown (fun _ => True)).
    - intros now c' i w _. apply step_never_thrown.
    - apply all_events.
    - apply loaded_invariant.
    - unfold loaded, commit. apply run_effects_never_thrown.
      split; [exact Hqs |]. split; [| constructor].
      split; simpl; [lia |]. intros _. destruct fetchedQuestions; [contradiction |].
      simpl length. lia. }
  now destruct Hrun as [_ [_ Hlog]].
Qed.

Lemma handlers_never_throw_witness :
  no_uncaught
    (run Examples.submit_with_failed_update
       (loaded true Examples.page_questions 180 Examples.started)).
Proof.
  apply (handlers_never_throw true Examples.page_questions 180 Examples.started
           Examples.submit_with_failed_update).
  discriminate.
Defined.

(** *** The clock *)

Lemma pad_two_digits (n : Z) :
  0 <= n < 100 -> padStart2 (integer_toString n) = Clock.two_digits n.
Proof.
  intros Hn.
  assert (Hall : forallb (fun k => String.eqb (padStart2 (integer_toString (Z.of_nat k)))
                                     (Clock.two_digits (Z.of_nat k)))
                   (seq 0 100) = true) by (vm_compute; reflexivity).
  rewrite forallb_forall in Hall.
  specialize (Hall (Z.to_nat n)). rewrite Z2Nat.id in Hall by lia.
  apply String.eqb_eq, Hall, in_seq. lia.
Qed.

Lemma two_digits_inj (n m : Z) :
  0 <= n < 100 -> 0 <= m < 100 -> Clock.two_digits n = Clock.two_digits m -> n = m.
Proof.
  intros Hn Hm. unfold Clock.two_digits. intros [= Hhi Hlo].
  apply (f_equal nat_of_ascii) in Hhi, Hlo.
  rewrite !nat_ascii_embedding in Hhi, Hlo
    by (pose proof (Z.mod_pos_bound n 10); pose proof (Z.mod_pos_bound m 10);
        pose proof (Z.div_pos n 10); pose proof (Z.div_pos m 10);
        assert (n / 10 < 10) by (apply Z.div_lt_upper_bound; lia);
        assert (m / 10 < 10) by (apply Z.div_lt_upper_bound; lia); lia).
  pose proof (Z.div_mod n 10). pose proof (Z.div_mod m 10).
  pose proof (Z.mod_pos_bound n 10). pose proof (Z.mod_pos_bound m 10).
  pose proof (Z.div_pos n 10). pose proof (Z.div_pos m 10).
  lia.
Qed.

Lemma formatTime_clock (seconds : Z) :
  0 <= seconds < 360000 -> formatTime seconds = Clock.hh_mm_ss seconds.
Proof.
  intros Hs. unfold formatTime, Clock.hh_mm_ss.
  rewrite !Z.rem_mod_nonneg by lia.
  replace (seconds mod 3600 / 60) with (seconds / 60 mod 60).
  2:{ pose proof (Z.div_mod seconds 3600). pose proof (Z.mod_pos_bound seconds 3600).
      pose proof (Z.div_mod (seconds mod 3600) 60).
      pose proof (Z.mod_pos_bound (seconds mod 3600) 60).
      assert (H3600 : 3600 = 60 * 60) by reflexivity.
      rewrite (Z.mod_unique_pos (seconds / 60) 60 (seconds / 3600) (seconds mod 3600 / 60));
        [reflexivity | |].
      - split; [apply Z.div_pos; lia | apply Z.div_lt_upper_bound; lia].
      - symmetry. apply (Z.div_unique_pos seconds 60 _ ((seconds mod 3600) mod 60)); lia. }
  assert (B1 : 0 <= seconds / 3600 < 100)
    by (split; [apply Z.div_pos; lia | apply Z.div_lt_upper_bound; lia]).
  assert (B2 : 0 <= seconds / 60 mod 60 < 100)
    by (pose proof (Z.mod_pos_bound (seconds / 60) 60); lia).
  assert (B3 : 0 <= seconds mod 60 < 100)
    by (pose proof (Z.mod_pos_bound seconds 60); lia).
  now rewrite !pad_two_digits by assumption.
Qed.

(** X27. Below a hundred hours the timer reads hh:mm:ss, two digits each: eight
    characters, and different times read differently. *)
Theorem formatTime_reads_hh_mm_ss (seconds : Z) :
  0 <= seconds < 360000 ->
  formatTime seconds = Clock.hh_mm_ss seconds
  /\ String.length (formatTime seconds) = 8%nat
  /\ (forall seconds', 0 <= seconds' < 360000 ->
        formatTime seconds' = formatTime seconds -> seconds' = seconds).
Proof.
  intros Hs. split; [now apply formatTime_clock |]. split.
  - rewrite formatTime_clock by exact Hs. reflexivity.
  - intros s' Hs'. rewrite !formatTime_clock by assumption.
    unfold Clock.hh_mm_ss.
    assert (Hsplit : forall a b c a' b' c',
              (Clock.two_digits a ++ ":" ++ Clock.two_digits b ++ ":" ++ Clock.two_digits c
               = Clock.two_digits a' ++ ":" ++ Clock.two_digits b' ++ ":" ++ Clock.two_digits c')%string
              -> Clock.two_digits a = Clock.two_digits a'
                 /\ Clock.two_digits b = Clock.two_digits b'
                 /\ Clock.two_digits c = Clock.two_digits c').
    { intros a b c a' b' c'. unfold Clock.two_digits. simpl. intros [= -> -> -> -> -> ->].
      now repeat split. }
    intros Heq. apply Hsplit in Heq as [Hh [Hm Hsec]].
    assert (Hb : forall x, 0 <= x < 360000 ->
                   0 <= x / 3600 < 100 /\ 0 <= x / 60 mod 60 < 100 /\ 0 <= x mod 60 < 100).
    { intros x Hx. pose proof (Z.mod_pos_bound (x / 60) 60). pose proof (Z.mod_pos_bound x 60).
      split; [split; [apply Z.div_pos; lia | apply Z.div_lt_upper_bound; lia] | lia]. }
    destruct (Hb seconds Hs) as [B1 [B2 B3]]. destruct (Hb s' Hs') as [B1' [B2' B3']].
    apply two_digits_inj in Hh, Hm, Hsec; try assumption.
    pose proof (Z.div_mod seconds 60). pose proof (Z.div_mod s' 60).
    pose proof (Z.div_mod (seconds / 60) 60). pose proof (Z.div_mod (s' / 60) 60).
    assert (Hd : forall x, x / 60 / 60 = x / 3600).
    { intros x. rewrite Z.div_div by lia. reflexivity. }
    rewrite !Hd in *. lia.
Qed.

Lemma formatTime_reads_hh_mm_ss_witness :
  formatTime 10800 = Clock.hh_mm_ss 10800.
Proof. refine (proj1 (formatTime_reads_hh_mm_ss 10800 _)). lia. Defined.

(** *** Loading *)

Lemma fetchedQuestions_ids (links : list Store.Link) :
  Forall (fun q => question_id q <> "") (fetchedQuestions links).
Proof.
  induction links as [| link rest IH]; [constructor |].
  rewrite fetchedQuestions_cons. unfold link_question.
  destruct (Store.Questions link) as [| q | items]; try exact IH.
  destruct (String.eqb (Store.question_id q) "") eqn:Hid; [exact IH |].
  constructor; [| exact IH]. simpl. now apply String.eqb_neq.
Qed.

(** X28. The page that [fetchTestData] sets up: it needs a session, the attempt
    and the links; its questions are those of the links joined as objects
    with an id, none with an empty id; it stands on the first question with
    sixty seconds a minute on the clock; the first question (and any other
    with its id) starts as unanswered, the others as not visited, all without
    an answer; and if there is time, the countdown runs and nothing is
    submitted. Nothing is written to the store. *)
Theorem fetched_page_starts_on_the_first_question (c : bool) (session : option string)
    (attempt : Store.fetched Store.AttemptRow) (links : Store.fetched (list Store.Link))
    (d : Database) (w : World) :
  fetchTestData c session attempt links d = ready w ->
  exists attemptData questionLinks,
    session <> None /\ attempt = Store.fetch_data attemptData
    /\ links = Store.fetch_data questionLinks
    /\ questions (page w) = fetchedQuestions questionLinks
    /\ Forall (fun q => question_id q <> "") (questions (page w))
    /\ currentQuestionIndex (page w) = 0
    /\ timeLeft (page w) = duration (Store.Tests attemptData) * 60
    /\ loading (page w) = false
    /\ db w = d
    /\ (forall q, In q (questions (page w)) ->
          getQuestionState (page w) (question_id q)
          = if decide (Some (question_id q) = question_id <$> head (questions (page w)))
            then with_status unanswered fresh_state else fresh_state)
    /\ (0 < duration (Store.Tests attemptData) ->
        interval w = true /\ isSubmitting (page w) = false /\ awaiting w = None
        /\ shown w = []).
Proof.
  unfold fetchTestData.
  destruct session as [user |]; [| discriminate].
  destruct attempt as [attemptData | m]; [| discriminate].
  destruct links as [questionLinks | m]; [| discriminate].
  intros [= <-]. exists attemptData, questionLinks.
  destruct (loaded_page c (fetchedQuestions questionLinks) (duration (Store.Tests attemptData)) d)
    as [Hq [Hi [Ht [Htime Hl]]]].
  split; [discriminate |]. split; [reflexivity |]. split; [reflexivity |].
  split; [exact Hq |]. split; [rewrite Hq; apply fetchedQuestions_ids |].
  split; [exact Hi |]. split; [exact Htime |]. split; [exact Hl |].
  split; [apply loaded_db |]. split.
  - intros q Hin. unfold getQuestionState. rewrite Ht, Hq, initialState_lookup.
    rewrite Hq in Hin. destruct (decide _) as [_ | Hno]; [reflexivity |].
    exfalso. apply Hno. apply list_elem_of_In, in_map. exact Hin.
  - intros Hpos. unfold loaded, commit.
    rewrite run_effects_changed by (unfold timer_deps; simpl; congruence).
    unfold timerEffect. simpl.
    replace (duration (Store.Tests attemptData) * 60 <=? 0) with false
      by (symmetry; apply Z.leb_gt; lia).
    now repeat split.
Qed.

Lemma fetched_page_starts_on_the_first_question_witness :
  exists attemptData questionLinks,
    Some "user" <> None
    /\ Store.fetch_data
         {| Store.test_id := "t"; Store.user_id := "user"; Store.Tests := Store.TestsNull |}
       = Store.fetch_data attemptData
    /\ Store.fetch_data Examples.object_links = Store.fetch_data questionLinks
    /\ questions (page (loaded true (fetchedQuestions Examples.object_links) 180
                          Examples.started))
       = fetchedQuestions questionLinks.
Proof.
  destruct (fetched_page_starts_on_the_first_question true (Some "user")
              (Store.fetch_data
                 {| Store.test_id := "t"; Store.user_id := "user";
                    Store.Tests := Store.TestsNull |})
              (Store.fetch_data Examples.object_links) Examples.started
              (loaded true (fetchedQuestions Examples.object_links) 180 Examples.started)
              eq_refl)
    as [attemptData [questionLinks [H1 [H2 [H3 [H4 _]]]]]].
  exists attemptData, questionLinks. now repeat split.
Defined.

(** *** Status and answer *)

Lemma insert_matches (m : gmap string QuestionState) (k : string) (st : QuestionState) :
  answer_matches st -> states_match m -> states_match (<[k := st]> m).
Proof.
  intros Hst Hm qId st'. destruct (decide (k = qId)) as [-> | Hne].
  - rewrite lookup_insert_eq. now intros [= <-].
  - rewrite lookup_insert_ne by exact Hne. apply Hm.
Qed.

Lemma getQuestionState_matches (s : State) (qId : string) :
  states_match (testState s) -> answer_matches (getQuestionState s qId).
Proof.
  intros Hm. unfold getQuestionState.
  destruct (testState s !! qId) as [st |] eqn:Hst; simpl; [exact (Hm _ _ Hst) |].
  split; [discriminate | now left].
Qed.

Lemma apply_updates_matching (us : list Update) (s : State) :
  Forall keeps_matching us ->
  states_match (testState s) -> states_match (testState (apply_updates us s)).
Proof.
  intros Hus. revert s. induction Hus as [| u us Hu _ IH]; intros s Hm; [exact Hm |].
  change (apply_updates (u :: us) s) with (apply_updates us (apply_update u s)).
  apply IH. destruct u; simpl; auto.
Qed.

Lemma navigateToQuestion_matching (s : State) (ref : gmap string QuestionState)
    (newIndex : Z) (eff : Effects) :
  states_match (testState s) ->
  navigateToQuestion s ref newIndex = Normal eff -> Forall keeps_matching (updates eff).
Proof.
  intros Hs. unfold navigateToQuestion.
  destruct (_ || _ || _); [intros [= <-]; constructor |].
  destruct (question_id_at _ (currentQuestionIndex s)) as [oldQId | e]; simpl; [| discriminate].
  destruct (question_id_at _ newIndex) as [newQId | e]; simpl; [| discriminate].
  intros [= <-]. simpl.
  destruct (decide _) as [Hnew | Hseen]; [| repeat constructor].
  constructor; [| repeat constructor].
  intros m. apply insert_matches.
  destruct (getQuestionState_matches s newQId Hs) as [_ Hnone].
  split; simpl; [discriminate |]. intros _. apply Hnone. now right.
Qed.

Lemma step_matching (now : Z) (c : bool) (i : Input) (w : World) :
  states_match (testState (page w)) -> states_match (testState (page (step now c i w))).
Proof.
  intros Hm.
  pose proof (step_static now c i w) as Hstatic.
  assert (Hdis : forall sf h,
            (forall eff, h = Normal eff ->
               Forall quiet (updates eff) /\ Forall keeps_matching (updates eff)) ->
            states_match (testState (page (dispatch now sf c h w)))).
  { intros sf h Hh. destruct h as [eff | e]; [| exact Hm].
    destruct (Hh eff eq_refl) as [Hq Hk]. rewrite (dispatch_world now sf c eff w Hq).
    simpl. now apply apply_updates_matching. }
  assert (Hold : forall qId m, states_match m ->
            answer_matches (default (getQuestionState (page w) qId) (m !! qId))).
  { intros qId m Hmm. destruct (m !! qId) as [st |] eqn:Hst; simpl;
      [exact (Hmm _ _ Hst) | now apply getQuestionState_matches]. }
  destruct i as [| | failed | failed | index sf | sf | sf | | v];
    try (rewrite (proj2 Hstatic); exact Hm); cbn [step]; apply Hdis; intros eff.
  - intros Hnav. split; [exact (proj1 (navigateToQuestion_button _ _ _ eff Hnav)) |].
    exact (navigateToQuestion_matching _ _ _ _ Hm Hnav).
  - intros Hnav. split; [exact (proj1 (navigateToQuestion_button _ _ _ eff Hnav)) |].
    exact (navigateToQuestion_matching _ _ _ _ Hm Hnav).
  - unfold handleMarkForReview.
    destruct (question_id_at _ _) as [qId | e]; simpl; [| discriminate].
    destruct (navigateToQuestion _ _ _) as [nav | e] eqn:Hnav; simpl; [| discriminate].
    intros [= <-]. simpl. split.
    + constructor; [exact I | exact (proj1 (navigateToQuestion_button _ _ _ nav Hnav))].
    + constructor; [| exact (navigateToQuestion_matching _ _ _ _ Hm Hnav)].
      intros m0 Hmm. apply insert_matches; [| exact Hmm].
      split; simpl; [discriminate | intros [|]; discriminate].
  - unfold handleClearResponse.
    destruct (question_id_at _ _) as [qId | e]; simpl; [| discriminate].
    intros [= <-]. simpl. split; [repeat constructor |]. constructor; [| constructor].
    intros m0 Hmm. apply insert_matches; [| exact Hmm].
    split; simpl; [discriminate | now left].
  - unfold handleAnswerChange.
    destruct (question_id_at _ _) as [qId | e]; simpl; [| discriminate].
    intros [= <-]. simpl. split; [repeat constructor |]. constructor; [| constructor].
    intros m0 Hmm. apply insert_matches; [| exact Hmm].
    destruct (is_null v) eqn:Hnull; simpl.
    { apply is_null_iff in Hnull. subst v. split; [discriminate | now left]. }
    destruct (is_empty_string v) eqn:Hempty; simpl.
    { apply is_empty_string_iff in Hempty. subst v. split; [discriminate | now right]. }
    split; simpl; [| intros [|]; discriminate].
    intros _. split; intros ->; discriminate.
Qed.

Lemma loaded_matching (c : bool) (qs : list Question) (dur : Z) (d : Database) :
  states_match (testState (page (loaded c qs dur d))).
Proof.
  destruct (loaded_page c qs dur d) as [_ [_ [-> _]]].
  intros qId st. rewrite initialState_lookup.
  destruct (decide _); [| discriminate]. intros [= <-].
  destruct (decide _); (split; simpl; [discriminate | now left]).
Qed.

(** X29. On the page the status of a question fits its answer: a question shown
    as answered has an answer that is neither null nor the empty string, and
    a question shown as unanswered or not visited has none. Only a question
    marked for review may be either. *)
Theorem status_fits_the_answer (w : World) (qId : string) :
  reachable w ->
  let st := getQuestionState (page w) qId in
  (status st = answered -> selected_answer st <> JNull /\ selected_answer st <> JStr "")
  /\ (status st = unanswered \/ status st = not_visited ->
      selected_answer st = JNull \/ selected_answer st = JStr "").
Proof.
  intros Hw. apply getQuestionState_matches.
  induction Hw as [c qs dur d | now c i w _ IH].
  - apply loaded_matching.
  - now apply step_matching.
Qed.

Lemma status_fits_the_answer_witness :
  selected_answer
    (getQuestionState (page (step 1 true (change_answer (JStr "")) Examples.fresh_page)) "q1")
  = JNull
  \/ selected_answer
       (getQuestionState (page (step 1 true (change_answer (JStr "")) Examples.fresh_page))
          "q1")
     = JStr "".
Proof.
  refine (proj2 (status_fits_the_answer
                   (step 1 true (change_answer (JStr "")) Examples.fresh_page) "q1" _) _).
  - apply reachable_step. apply reachable_loaded.
  - left. reflexivity.
Defined.
End Runs.
